(** * Monitor refresh and price-tracking engine of the award monitor dashboard

    A shallow embedding of [src/qantas-dashboard.ts]: the flight normalizer,
    the lowest-price and slot tracker, the cash-price handshake, the refresh
    scheduler and the monitor management handlers, followed by the properties
    proved about them.

    Conventions of the embedding.
    - A JavaScript number is an exact rational ([Q]); [NaN] is the [None] of an
      [option Q]. Numeric equality is [Qeq] ([==]), which is what [===]
      decides on two numbers.
    - An optional field ([x?: T]) is an [option T]; [delete o.x] stores [None].
    - A thrown exception is the [None] of the [option] monad.
    - A JSON document on disk is the [option] of its parsed content; [None] is
      a missing or unparsable file.
    - [new Date().toISOString()] is the parameter [now] of an operation.
    - Alert lines are kept structured ([AlertLine]); their rendering through
      [toLocaleString] is locale dependent and carries no logic.
    - An object literal, a parsed JSON object and the result of
      [Object.fromEntries] inherit from [Object.prototype]: a read [o[k]] of a
      name the object does not own yields the prototype's member of that
      name, when it has one.
    - A document holds the values the program wrote, with one reserve: a
      cabin code that is an inherited member is carried as its string form
      ([tableGet]), where [JSON.stringify] leaves a function out and writes
      the prototype object as an empty object. This concerns the cabin of the
      flights of [lastOutbound] and [lastReturn] only, which the server never
      reads back. *)

From Stdlib Require Import QArith ZArith Ascii String OrdersEx Lia Lqa.
From stdpp Require Import base option list strings gmap sorting pretty.

Local Open Scope Z_scope.
Local Open Scope string_scope.
Local Open Scope list_scope.

(** ** JavaScript scalars *)

Inductive JsVal : Type :=
  | JUndefined
  | JNull
  | JBool (b : bool)
  | JNum (q : Q)
  | JStr (s : string).

(** [!!v] *)
Definition truthy (v : JsVal) : bool :=
  match v with
  | JUndefined | JNull => false
  | JBool b => b
  | JNum q => negb (Qeq_bool q 0)
  | JStr s => negb (String.eqb s "")
  end.

(** [a || b] *)
Definition js_or (a b : JsVal) : JsVal := if truthy a then a else b.

(** [a === b] on scalars. *)
Definition strictEq (a b : JsVal) : bool :=
  match a, b with
  | JUndefined, JUndefined => true
  | JNull, JNull => true
  | JBool x, JBool y => Bool.eqb x y
  | JNum x, JNum y => Qeq_bool x y
  | JStr x, JStr y => String.eqb x y
  | _, _ => false
  end.

(** [n > 0] and [n || 0] on a number that may be [NaN]. *)
Definition num_pos (n : option Q) : bool :=
  match n with Some q => negb (Qle_bool q 0) | None => false end.

(** [a < b] on numbers. *)
Definition Qlt_bool (a b : Q) : bool := negb (Qle_bool b a).

(** [!prev || v < prev.x]: the test guarding every replacement of a lowest
    record, on the previous value [was] if there is one. *)
Definition improves (v : Q) (was : option Q) : bool :=
  match was with None => true | Some p => Qlt_bool v p end.

(** Truthiness and [||] on an optional string. *)
Definition str_truthy (s : option string) : bool :=
  match s with Some s => negb (String.eqb s "") | None => false end.

Definition str_or (a b : option string) : option string :=
  if str_truthy a then a else b.

Definition num_or0 (n : option Q) : Q :=
  match n with Some q => if Qeq_bool q 0 then 0%Q else q | None => 0%Q end.

(** [f[`${code}Name${sfx}`]] on a raw record: a missing key reads
    [undefined]. No name of this form is inherited
    ([cabin_field_not_inherited] below). *)
Definition field (o : gmap string JsVal) (k : string) : JsVal :=
  default JUndefined (o !! k).

(** [String.prototype.toUpperCase] on the ASCII letters. *)
Definition upper_ascii (c : ascii) : ascii :=
  let n := nat_of_ascii c in
  if ((97 <=? n) && (n <=? 122))%nat then ascii_of_nat (n - 32) else c.

Fixpoint toUpperCase (s : string) : string :=
  match s with
  | EmptyString => EmptyString
  | String c s' => String (upper_ascii c) (toUpperCase s')
  end.

(** ** Inherited members

    The names that [Object.prototype] defines. All but [__proto__] are
    functions; [__proto__] reads the prototype itself. *)

Definition OBJECT_PROTOTYPE : list string :=
  ["constructor"; "__defineGetter__"; "__defineSetter__"; "hasOwnProperty";
   "__lookupGetter__"; "__lookupSetter__"; "isPrototypeOf";
   "propertyIsEnumerable"; "toString"; "valueOf"; "__proto__"; "toLocaleString"].

Definition inherited (k : string) : bool := bool_decide (k ∈ OBJECT_PROTOTYPE).

(** [Object.prototype[k].name]: the name of the function, [undefined] on the
    prototype object. *)
Definition inheritedName (k : string) : option string :=
  if String.eqb k "__proto__" then None
  else if String.eqb k "constructor" then Some "Object"
  else Some k.

(** [String(Object.prototype[k])], as Node prints a built-in function and a
    plain object. *)
Definition inheritedString (k : string) : string :=
  match inheritedName k with
  | Some name => "function " +:+ name +:+ "() { [native code] }"
  | None => "[object Object]"
  end.

(** [table[k] ?? d] on a table of strings, as the string that the program
    makes of it. Every use of the result is in a template literal, as a
    property name, or under [===] against a result of the same expression on
    the same table; an inherited member is therefore carried as its string
    form, which tells it from every other result ([cabinCode_inj_inherited]
    below). *)
Definition tableGet (table : gmap string string) (k d : string) : string :=
  match table !! k with
  | Some v => v
  | None => if inherited k then inheritedString k else d
  end.

(** [o[k] = v]. On [__proto__] the assignment reaches the accessor that sets
    the prototype and adds no member, unless the object owns a member of that
    name, as a parsed document may. *)
Definition assign {V} (k : string) (v : V) (o : gmap string V) : gmap string V :=
  if String.eqb k "__proto__" && bool_decide (o !! k = None) then o
  else <[k := v]> o.

(** [o[k]] is an inherited member: truthy, and without the members of a
    record. *)
Definition readsInherited {V} (o : gmap string V) (k : string) : bool :=
  inherited k && bool_decide (o !! k = None).

(** ** Stable sorting

    [Array.prototype.sort] is stable; with a consistent comparator its result
    is the stable sorted permutation, computed here by insertion.
    [le a b] stands for [cmp(a, b) <= 0]. *)

Fixpoint insertBy {A} (le : A -> A -> bool) (x : A) (l : list A) : list A :=
  match l with
  | [] => [x]
  | y :: l' => if le x y then x :: l else y :: insertBy le x l'
  end.

Definition sortBy {A} (le : A -> A -> bool) (l : list A) : list A :=
  foldr (insertBy le) [] l.

(** ** Types *)

(** A mileage cost. [NormalizedFlight.MileageCost] and [LowestRecord.points]
    are declared numbers; what the program stores there is the value of
    [parseFloat(x) || x || 0] on a raw field [x], which is a number, or [x]
    itself when [parseFloat] gives 0 or [NaN] and [x] is truthy (a non-empty
    string or [true]), and the [+] of two such values. *)
Inductive Cost :=
  | CNum (q : Q)
  | CStr (s : string)
  | CTrue.

Record Leg := {
  origin : option string;
  destination : option string;
  dateFrom : option string;
  dateTo : option string;
}.

Record LowestRecord := {
  points : Cost;
  lr_outboundDate : string;
  lr_returnDate : string;
  lr_seenAt : string;
  totalTaxes : option Q;
  taxesCurrency : option string;
  lr_isDirect : option bool;
}.

Record CashRecord := {
  aud : Q;
  cr_outboundDate : string;
  cr_returnDate : string;
  cr_seenAt : string;
  cr_isDirect : option bool;
}.

Inductive Source := awards | cash.
Inductive AvailType := rewards | any.

Record NormalizedFlight := {
  Date : string;
  cabin : string;
  MileageCost : Cost;
  RemainingSeats : JsVal;
  IsDirect : bool;
  Airlines : JsVal;
  TaxesCurrency : option string;
  TotalTaxes : option Q;
}.

Record Monitor := {
  id : string;
  label : string;
  cabins : list string;
  source : option Source;
  availType : option AvailType;
  outbound : option Leg;
  return_ : option Leg;
  createdAt : string;
  lastChecked : option string;
  currentCombined : option (gmap string LowestRecord);
  lowestCombined : option (gmap string LowestRecord);
  knownSlots : option (list string);
  lastOutbound : option (list NormalizedFlight);
  lastReturn : option (list NormalizedFlight);
  currentCash : option (gmap string CashRecord);
  lowestCash : option (gmap string CashRecord);
  cashPending : option bool;
  cashRequestedAt : option string;
}.

#[global] Instance Source_eq_dec : EqDecision Source.
Proof. solve_decision. Defined.
#[global] Instance AvailType_eq_dec : EqDecision AvailType.
Proof. solve_decision. Defined.
#[global] Instance Leg_eq_dec : EqDecision Leg.
Proof. solve_decision. Defined.

(** A raw per-date record of the award-search response. [Date] and
    [TaxesCurrency] are read under a fixed name and typed as the source casts
    them; the per-cabin fields are read under computed names. *)
Record RawRecord := {
  raw_Date : string;
  raw_TaxesCurrency : option string;
  raw_fields : gmap string JsVal;
}.

(** ** seats.aero *)

Definition CABIN_CODES : gmap string string :=
  list_to_map [("business", "J"); ("premium", "W"); ("economy", "Y"); ("first", "F")].

Definition CODE_LABELS : gmap string string :=
  list_to_map [("J", "Business"); ("W", "Prem Eco"); ("Y", "Economy"); ("F", "First")].

(** [CABIN_CODES[c] ?? c.toUpperCase()] *)
Definition cabinCode (c : string) : string :=
  tableGet CABIN_CODES c (toUpperCase c).

(** [CODE_LABELS[code] ?? code] *)
Definition codeLabel (code : string) : string :=
  tableGet CODE_LABELS code code.

Definition suffix (availType : AvailType) : string :=
  match availType with any => "Raw" | rewards => "" end.

Section Conversions.
(** The platform's conversions between strings and numbers: [parseFloat] and
    [Number] on a string ([None] is [NaN]), and [String] on a number. *)
Variable parseFloatStr : string -> option Q.
Variable toNumberStr : string -> option Q.
Variable numberToString : Q -> string.

(** [parseFloat(v)]: the argument is converted to a string first, so a
    number parses to itself and the other non-strings to [NaN]. *)
Definition parseFloat (v : JsVal) : option Q :=
  match v with
  | JNum q => Some q
  | JStr s => parseFloatStr s
  | _ => None
  end.

(** [Number(v)], the conversion applied by [>] and [/]. *)
Definition toNumber (v : JsVal) : option Q :=
  match v with
  | JUndefined => None
  | JNull => Some 0%Q
  | JBool b => Some (if b then 1%Q else 0%Q)
  | JNum q => Some q
  | JStr s => toNumberStr s
  end.

(** A cost as the scalar it is. *)
Definition costVal (c : Cost) : JsVal :=
  match c with
  | CNum q => JNum q
  | CStr s => JStr s
  | CTrue => JBool true
  end.

(** [Number(c)] and [String(c)] *)
Definition costNumber (c : Cost) : option Q := toNumber (costVal c).

Definition costString (c : Cost) : string :=
  match c with
  | CNum q => numberToString q
  | CStr s => s
  | CTrue => "true"
  end.

(** [a + b]: concatenation as soon as one side is a string, and the sum of
    the numbers otherwise ([true] counts 1). *)
Definition costAdd (a b : Cost) : Cost :=
  match a, b with
  | CStr _, _ | _, CStr _ => CStr (costString a +:+ costString b)
  | CNum x, CNum y => CNum (x + y)
  | CNum x, CTrue => CNum (x + 1)
  | CTrue, CNum y => CNum (1 + y)
  | CTrue, CTrue => CNum (1 + 1)
  end.

(** [a < b]: two strings are compared by code units; otherwise both sides
    are converted to numbers, and a comparison with [NaN] is false. *)
Definition costLt (a b : Cost) : bool :=
  match a, b with
  | CStr s, CStr t => String.ltb s t
  | _, _ =>
      match costNumber a, costNumber b with
      | Some x, Some y => Qlt_bool x y
      | _, _ => false
      end
  end.

(** [!prev || v < prev.points] on the previous points, if there is a
    previous record. *)
Definition improvesPoints (v : Cost) (was : option Cost) : bool :=
  match was with None => true | Some p => costLt v p end.

(** [parseFloat(v) || v || 0] *)
Definition mileageOf (v : JsVal) : Cost :=
  let raw :=
    match v with
    | JStr s => if String.eqb s "" then CNum 0 else CStr s
    | JBool true => CTrue
    | _ => CNum 0
    end in
  match parseFloat v with
  | Some q => if Qeq_bool q 0 then raw else CNum q
  | None => raw
  end.
End Conversions.

Section Normalizer.
Variable parseFloatStr : string -> option Q.
Variable toNumberStr : string -> option Q.
(** [String.prototype.localeCompare] *)
Variable localeCompare : string -> string -> Z.

(** One iteration of the inner loop of [normalizeFlights]: the entry pushed
    for record [f] and cabin [code], if any. [MileageCost] holds [mileage]
    itself, which [>] converts and [===] does not. *)
Definition normalizeEntry (sfx : string) (f : RawRecord) (code : string)
    : option NormalizedFlight :=
  let available := field (raw_fields f) (code +:+ "Available" +:+ sfx) in
  let mileage :=
    mileageOf parseFloatStr (field (raw_fields f) (code +:+ "MileageCost" +:+ sfx)) in
  if truthy available && num_pos (costNumber toNumberStr mileage) then
    let directMileage :=
      js_or (field (raw_fields f) (code +:+ "DirectMileageCost" +:+ sfx)) (JNum 0) in
    Some {|
      Date := raw_Date f;
      cabin := code;
      MileageCost := mileage;
      RemainingSeats := js_or (field (raw_fields f) (code +:+ "RemainingSeats" +:+ sfx)) (JNum 0);
      IsDirect := num_pos (toNumber toNumberStr directMileage)
                  && strictEq directMileage (costVal mileage);
      Airlines := js_or (field (raw_fields f) (code +:+ "Airlines" +:+ sfx)) (JStr "");
      TaxesCurrency := raw_TaxesCurrency f;
      TotalTaxes :=
        (fun q => (q / 100)%Q) <$>
          toNumber toNumberStr
            (js_or (field (raw_fields f) (code +:+ "TotalTaxes" +:+ sfx)) (JNum 0));
    |}
  else None.

Definition byDate (a b : NormalizedFlight) : bool :=
  (localeCompare (Date a) (Date b) <=? 0)%Z.

Definition normalizeFlights (raw : list RawRecord) (cabins : list string)
    (availType : AvailType) : list NormalizedFlight :=
  let codes := cabinCode <$> cabins in
  let sfx := suffix availType in
  sortBy byDate (f ← raw; omap (normalizeEntry sfx f) codes).
End Normalizer.

(** ** Persistence

    The documents under [MONITOR_DIR], the API key file and the lines written
    by [console.error]. *)

Inductive Direction := Out | Ret.

Inductive AlertLine :=
  | NewSlot (dir : Direction) (cabinLabel date : string) (cost : Cost)
  | NewLowest (cabinLabel : string) (combined : Cost) (was : option Cost)
      (outDate retDate : string)
  | NewLowestCash (cabinLabel : string) (fare : Q) (was : option Q)
      (outDate retDate : string).

Record PendingAlert := {
  monitorId : string;
  monitorLabel : string;
  messages : list AlertLine;
  pa_createdAt : string;
}.

Record CashRequest := {
  rq_monitorId : string;
  rq_label : string;
  rq_outbound : option Leg;
  rq_return : option Leg;
  rq_cabins : list string;
  requestedAt : option string;
}.

Record CashResult := {
  rs_monitorId : string;
  checkedAt : option string;
  prices : option (list (string * CashRecord));
}.

Inductive LogLine :=
  | RefreshFailed (monitorLabel : string)
  | HandlerError.

Record World := {
  monitorsFile : option (list Monitor);
  alertsFile : option (list PendingAlert);
  cashRequestsFile : option (list CashRequest);
  cashResultsFile : option (list CashResult);
  keyFile : option string;
  console : list LogLine;
}.

Definition readMonitors (w : World) : list Monitor := default [] (monitorsFile w).

Definition writeMonitors (data : list Monitor) (w : World) : World :=
  {| monitorsFile := Some data; alertsFile := alertsFile w;
     cashRequestsFile := cashRequestsFile w; cashResultsFile := cashResultsFile w;
     keyFile := keyFile w; console := console w |}.

Definition readKey (w : World) : option string := keyFile w.

Definition appendAlert (now : string) (monitorId label : string)
    (messages : list AlertLine) (w : World) : World :=
  let pending := default [] (alertsFile w) in
  {| monitorsFile := monitorsFile w;
     alertsFile := Some (pending ++
       [{| monitorId := monitorId; monitorLabel := label; messages := messages;
           pa_createdAt := now |}]);
     cashRequestsFile := cashRequestsFile w; cashResultsFile := cashResultsFile w;
     keyFile := keyFile w; console := console w |}.

Definition writeCashRequest (monitor : Monitor) (w : World) : World :=
  let requests := default [] (cashRequestsFile w) in
  let requests := filter (fun r => rq_monitorId r ≠ id monitor) requests in
  {| monitorsFile := monitorsFile w; alertsFile := alertsFile w;
     cashRequestsFile := Some (requests ++
       [{| rq_monitorId := id monitor; rq_label := label monitor;
           rq_outbound := outbound monitor; rq_return := return_ monitor;
           rq_cabins := cabins monitor; requestedAt := cashRequestedAt monitor |}]);
     cashResultsFile := cashResultsFile w;
     keyFile := keyFile w; console := console w |}.

Definition writeCashResults (results : list CashResult) (w : World) : World :=
  {| monitorsFile := monitorsFile w; alertsFile := alertsFile w;
     cashRequestsFile := cashRequestsFile w; cashResultsFile := Some results;
     keyFile := keyFile w; console := console w |}.

Definition consoleError (line : LogLine) (w : World) : World :=
  {| monitorsFile := monitorsFile w; alertsFile := alertsFile w;
     cashRequestsFile := cashRequestsFile w; cashResultsFile := cashResultsFile w;
     keyFile := keyFile w; console := console w ++ [line] |}.

(** [if (alerts.length) appendAlert(...)] *)
Definition appendAlerts (now : string) (monitor : Monitor) (alerts : list AlertLine)
    (w : World) : World :=
  match alerts with
  | [] => w
  | _ => appendAlert now (id monitor) (label monitor) alerts w
  end.

(** [data.monitors.find(m => m.id === i)] and the in-place mutation of the
    object it returns. *)
Definition hasId (i : string) (m : Monitor) : bool := String.eqb (id m) i.

Fixpoint updateFirst {A} (p : A -> bool) (x' : A) (l : list A) : list A :=
  match l with
  | [] => []
  | x :: l' => if p x then x' :: l' else x :: updateFirst p x' l'
  end.

(** ** Field updates on a monitor *)

Definition setCashRequested (now : string) (m : Monitor) : Monitor :=
  {| id := id m; label := label m; cabins := cabins m; source := source m;
     availType := availType m; outbound := outbound m; return_ := return_ m;
     createdAt := createdAt m; lastChecked := lastChecked m;
     currentCombined := currentCombined m; lowestCombined := lowestCombined m;
     knownSlots := knownSlots m; lastOutbound := lastOutbound m;
     lastReturn := lastReturn m; currentCash := currentCash m;
     lowestCash := lowestCash m;
     cashPending := Some true; cashRequestedAt := Some now |}.

Definition setAwardsTracking (m : Monitor) (checked : string)
    (out ret : list NormalizedFlight) (cur low : gmap string LowestRecord)
    (slots : list string) : Monitor :=
  {| id := id m; label := label m; cabins := cabins m; source := source m;
     availType := availType m; outbound := outbound m; return_ := return_ m;
     createdAt := createdAt m; lastChecked := Some checked;
     currentCombined := Some cur; lowestCombined := Some low;
     knownSlots := Some slots; lastOutbound := Some out;
     lastReturn := Some ret; currentCash := currentCash m;
     lowestCash := lowestCash m;
     cashPending := cashPending m; cashRequestedAt := cashRequestedAt m |}.

Definition setCashTracking (m : Monitor) (checked : string)
    (cur low : gmap string CashRecord) : Monitor :=
  {| id := id m; label := label m; cabins := cabins m; source := source m;
     availType := availType m; outbound := outbound m; return_ := return_ m;
     createdAt := createdAt m; lastChecked := Some checked;
     currentCombined := currentCombined m; lowestCombined := lowestCombined m;
     knownSlots := knownSlots m; lastOutbound := lastOutbound m;
     lastReturn := lastReturn m; currentCash := Some cur;
     lowestCash := Some low;
     cashPending := Some false; cashRequestedAt := cashRequestedAt m |}.

Definition setEdited (m : Monitor) (label' : string) (cabins' : list string)
    (source' : Source) (availType' : AvailType) (outbound' return' : option Leg)
    : Monitor :=
  {| id := id m; label := label'; cabins := cabins'; source := Some source';
     availType := Some availType'; outbound := outbound'; return_ := return';
     createdAt := createdAt m; lastChecked := lastChecked m;
     currentCombined := currentCombined m; lowestCombined := lowestCombined m;
     knownSlots := knownSlots m; lastOutbound := lastOutbound m;
     lastReturn := lastReturn m; currentCash := currentCash m;
     lowestCash := lowestCash m;
     cashPending := cashPending m; cashRequestedAt := cashRequestedAt m |}.

(** The ten [delete monitor.x] statements of the edit handler. *)
Definition clearTracking (m : Monitor) : Monitor :=
  {| id := id m; label := label m; cabins := cabins m; source := source m;
     availType := availType m; outbound := outbound m; return_ := return_ m;
     createdAt := createdAt m; lastChecked := None;
     currentCombined := None; lowestCombined := None;
     knownSlots := None; lastOutbound := None;
     lastReturn := None; currentCash := None;
     lowestCash := None;
     cashPending := None; cashRequestedAt := None |}.

(** ** Leg fetcher *)

(** What the award-search API does with one query: the call is rejected (the
    30 second abort, a network error, an unparsable body), or it answers with
    a status and a body whose [data] member may be missing. *)
Inductive FetchOutcome :=
  | Rejected
  | Responded (status : nat) (data : option (list RawRecord)).

(** [resp.ok] *)
Definition resp_ok (status : nat) : bool := ((200 <=? status) && (status <=? 299))%nat.

Section Engine.
Variable parseFloatStr : string -> option Q.
Variable toNumberStr : string -> option Q.
Variable numberToString : Q -> string.
Variable localeCompare : string -> string -> Z.
(** The network, queried with the API key and the leg of the URL. *)
Variable net : string -> Leg -> FetchOutcome.

Definition fetchLeg (w : World) (leg : option Leg) (cabins : list string)
    (availType : AvailType) : option (list NormalizedFlight) :=
  key ← readKey w;
  leg ← leg;
  match net key leg with
  | Rejected => None
  | Responded status data =>
      if resp_ok status
      then Some (normalizeFlights parseFloatStr toNumberStr localeCompare
                   (default [] data) cabins availType)
      else None
  end.

(** ** Refresh logic *)

Definition dirTag (d : Direction) : string :=
  match d with Out => "out" | Ret => "ret" end.

(** [`${f.Date}|${f.cabin}|out`] *)
Definition slotKey (d : Direction) (f : NormalizedFlight) : string :=
  Date f +:+ "|" +:+ cabin f +:+ "|" +:+ dirTag d.

(** [new Set(l)], in iteration order. *)
Fixpoint setOf (l : list string) : list string :=
  match l with
  | [] => []
  | x :: l' => x :: filter (fun y => y ≠ x) (setOf l')
  end.

(** One of the two slot-detection loops: the keys pushed on [newSlots] and
    the lines pushed on [alerts]. *)
Definition detectSlots (known : list string) (d : Direction)
    (flights : list NormalizedFlight) : list (string * AlertLine) :=
  f ← flights;
  if bool_decide (slotKey d f ∈ known) then []
  else [(slotKey d f, NewSlot d (codeLabel (cabin f)) (Date f) (MileageCost f))].

(** [flights.filter(f => f.cabin === code).sort((a, b) => a.MileageCost - b.MileageCost)[0]].
    The subtraction converts both costs to numbers; a comparator that
    returns [NaN] is taken as returning 0. *)
Definition byMileage (a b : NormalizedFlight) : bool :=
  match costNumber toNumberStr (MileageCost a),
        costNumber toNumberStr (MileageCost b) with
  | Some x, Some y => Qle_bool (x - y) 0
  | _, _ => true
  end.

Definition cheapest (code : string) (flights : list NormalizedFlight)
    : option NormalizedFlight :=
  head (sortBy byMileage (filter (fun f => cabin f = code) flights)).

Definition Tracking : Type :=
  gmap string LowestRecord * gmap string LowestRecord * list AlertLine.

(** The record [rec] built for [code] when both legs have a flight in that
    cabin; [None] is the [continue] of the loop. *)
Definition combinedRecord (now : string) (out ret : list NormalizedFlight)
    (code : string) : option LowestRecord :=
match cheapest code out, cheapest code ret with
| Some bestOut, Some bestRet =>
    Some {|
      points := costAdd numberToString (MileageCost bestOut) (MileageCost bestRet);
      lr_outboundDate := Date bestOut;
      lr_returnDate := Date bestRet;
      lr_seenAt := now;
      totalTaxes := Some (num_or0 (TotalTaxes bestOut) + num_or0 (TotalTaxes bestRet))%Q;
      taxesCurrency :=
        str_or (TaxesCurrency bestOut) (str_or (TaxesCurrency bestRet) (Some "AUD"));
      lr_isDirect := Some (IsDirect bestOut && IsDirect bestRet);
    |}
| _, _ => None
end.

(** The body of the loop over [codes]. The state is [currentCombined],
    [lowestCombined] and [alerts]. When [lowestCombined[code]] is an
    inherited member, [prev] is truthy and [prev.points] is [undefined], so
    the test fails. *)
Definition trackCabin (now : string) (out ret : list NormalizedFlight)
    (st : Tracking) (code : string) : Tracking :=
let '(cur, low, alerts) := st in
match combinedRecord now out ret code with
| Some rec =>
    let cur := assign code rec cur in
    let prev := low !! code in
    if negb (readsInherited low code)
       && improvesPoints toNumberStr (points rec) (points <$> prev)
    then (cur, <[code := rec]> low,
          alerts ++ [NewLowest (codeLabel code) (points rec) (points <$> prev)
                       (lr_outboundDate rec) (lr_returnDate rec)])
    else (cur, low, alerts)
| None => st
end.

Definition refreshMonitor (now : string) (w : World) (monitor : Monitor)
    : option (Monitor * list AlertLine) :=
  let availType := default rewards (availType monitor) in
  outbound ← fetchLeg w (outbound monitor) (cabins monitor) availType;
  ret ← fetchLeg w (return_ monitor) (cabins monitor) availType;
  let knownSlots := setOf (default [] (knownSlots monitor)) in
  let newOut := detectSlots knownSlots Out outbound in
  let newRet := detectSlots knownSlots Ret ret in
  let newSlots := (newOut ++ newRet).*1 in
  let alerts := (newOut ++ newRet).*2 in
  let codes := cabinCode <$> cabins monitor in
  let lowestCombined := default ∅ (lowestCombined monitor) in
  let '(currentCombined, lowestCombined, alerts) :=
    foldl (trackCabin now outbound ret) (∅, lowestCombined, alerts) codes in
  Some (setAwardsTracking monitor now outbound ret currentCombined lowestCombined
          (knownSlots ++ newSlots),
        alerts).

(** The body of the loop of [refreshAll] for one monitor: the monitor as
    the loop leaves it, whether [changed] was set, and the effects. *)
Definition refreshStep (now : string) (monitor : Monitor) (w : World)
    : Monitor * bool * World :=
  if bool_decide (source monitor = Some cash) then
    if default false (cashPending monitor) then (monitor, false, w)
    else
      let monitor := setCashRequested now monitor in
      (monitor, true, writeCashRequest monitor w)
  else
    match refreshMonitor now w monitor with
    | Some (monitor', alerts) => (monitor', true, appendAlerts now monitor' alerts w)
    | None => (monitor, false, consoleError (RefreshFailed (label monitor)) w)
    end.

Fixpoint refreshLoop (now : string) (monitors : list Monitor) (w : World)
    : list Monitor * bool * World :=
  match monitors with
  | [] => ([], false, w)
  | monitor :: rest =>
      let '(monitor', changed, w) := refreshStep now monitor w in
      let '(rest', changed', w) := refreshLoop now rest w in
      (monitor' :: rest', changed || changed', w)
  end.

Definition refreshAll (now : string) (w : World) : World :=
  let data := readMonitors w in
  let '(data, changed, w) := refreshLoop now data w in
  if changed then writeMonitors data w else w.
End Engine.

(** ** Cash results *)

Definition CASH_CABIN_CODES : gmap string string :=
  list_to_map [("business", "J"); ("premium", "W"); ("economy", "Y"); ("first", "F")].

Definition CASH_CABIN_LABELS : gmap string string :=
  list_to_map [("J", "Business"); ("W", "Prem Eco"); ("Y", "Economy"); ("F", "First")].

(** [o[k] = v] on an object whose entries are listed in insertion order,
    for a name other than [__proto__]. *)
Fixpoint objSet {V} (o : list (string * V)) (k : string) (v : V) : list (string * V) :=
  match o with
  | [] => [(k, v)]
  | (k', v') :: o' => if String.eqb k' k then (k, v) :: o' else (k', v') :: objSet o' k v
  end.

(** [CASH_CABIN_CODES[k] ?? k.toUpperCase()], as the property name it is
    used as; never [__proto__]. *)
Definition cashCabinCode (k : string) : string :=
  tableGet CASH_CABIN_CODES k (toUpperCase k).

(** The loop that normalizes the keys of [rawPrices] to cabin codes, on the
    entries of [rawPrices] as [Object.entries] lists them. *)
Definition normalizePrices (rawPrices : list (string * CashRecord))
    : list (string * CashRecord) :=
  foldl (fun prices '(k, v) => objSet prices (cashCabinCode k) v) [] rawPrices.

Definition CashTracking : Type :=
  gmap string CashRecord * gmap string CashRecord * list AlertLine.

(** [CASH_CABIN_LABELS[code] ?? code] *)
Definition cashCabinLabel (code : string) : string :=
  tableGet CASH_CABIN_LABELS code code.

(** The body of the loop over the entries of [prices]. When
    [monitor.lowestCash[code]] is an inherited member, [prev] is truthy and
    [prev.aud] is [undefined], so the test fails. *)
Definition trackCash (st : CashTracking) (entry : string * CashRecord) : CashTracking :=
  let '(cur, low, alerts) := st in
  let '(code, price) := entry in
  let cur := assign code price cur in
  let prev := low !! code in
  if negb (readsInherited low code) && improves (aud price) (aud <$> prev)
  then (cur, <[code := price]> low,
        alerts ++ [NewLowestCash (cashCabinLabel code) (aud price)
                     (aud <$> prev) (cr_outboundDate price) (cr_returnDate price)])
  else (cur, low, alerts).

(** What one result does to the monitor it names. *)
Definition applyCashResult (now : string) (result : CashResult) (monitor : Monitor)
    : Monitor * list AlertLine :=
  let checked := default now (str_or (checkedAt result) (Some now)) in
  let prices := normalizePrices (default [] (prices result)) in
  let '(cur, low, alerts) :=
    foldl trackCash
      (default ∅ (currentCash monitor), default ∅ (lowestCash monitor), []) prices in
  (setCashTracking monitor checked cur low, alerts).

(** The body of the loop over [results]; the state is [data.monitors],
    [changed] and the effects. *)
Definition cashResultStep (now : string) (st : list Monitor * bool * World)
    (result : CashResult) : list Monitor * bool * World :=
  let '(monitors, changed, w) := st in
  match find (hasId (rs_monitorId result)) monitors with
  | Some monitor =>
      if bool_decide (source monitor = Some cash) then
        let '(monitor', alerts) := applyCashResult now result monitor in
        (updateFirst (hasId (rs_monitorId result)) monitor' monitors, true,
         appendAlerts now monitor' alerts w)
      else st
  | None => st
  end.

Definition processCashResults (now : string) (w : World) : World :=
  match cashResultsFile w with
  | None => w
  | Some results =>
      match results with
      | [] => w
      | _ =>
          let data := readMonitors w in
          let '(data, changed, w) := foldl (cashResultStep now) (data, false, w) results in
          if changed then writeCashResults [] (writeMonitors data w) else w
      end
  end.

(** ** HTTP server *)

Inductive Payload :=
  | MonitorJson (m : Monitor)
  | ErrorJson (error : string)
  | Thrown.

Record Response := { status : nat; payload : Payload }.

Definition MAX_DATE_RANGE_DAYS_SERVER : Q := 5.

Definition num_lt (n : option Q) (b : Q) : bool :=
  match n with Some q => Qlt_bool q b | None => false end.

Definition num_gt (n : option Q) (b : Q) : bool :=
  match n with Some q => Qlt_bool b q | None => false end.

Section Validation.
(** [new Date(s).getTime()], in milliseconds; [None] is [NaN]. *)
Variable getTime : string -> option Z.

Definition validateLegDateRange (leg : option Leg) (label : string) : option string :=
  let from : option string := l ← leg; dateFrom l in
  let to : option string := l ← leg; dateTo l in
  if negb (str_truthy from) || negb (str_truthy to) then None
  else
    let days : option Q :=
      t1 ← to ≫= getTime;
      t0 ← from ≫= getTime;
      Some (inject_Z (t1 - t0) / 86400000)%Q in
    if num_lt days 0 then Some (label +:+ ": end date must be after start date")
    else if num_gt days MAX_DATE_RANGE_DAYS_SERVER
    then Some (label +:+ ": date range cannot exceed 5 days")
    else None.

(** The JSON body of a create or edit request. *)
Record MonitorBody := {
  b_label : string;
  b_cabins : list string;
  b_source : option Source;
  b_availType : option AvailType;
  b_outbound : option Leg;
  b_return : option Leg;
}.

(** [validateLegDateRange(body.outbound, 'Outbound') ?? validateLegDateRange(body.return, 'Return')] *)
Definition rangeErr (body : MonitorBody) : option string :=
  match validateLegDateRange (b_outbound body) "Outbound" with
  | Some e => Some e
  | None => validateLegDateRange (b_return body) "Return"
  end.

(** POST /api/monitors *)
Definition handleCreate (now uuid : string) (body : MonitorBody) (w : World)
    : Response * World :=
  let err := rangeErr body in
  if str_truthy err then
    ({| status := 400; payload := ErrorJson (default "" err) |}, w)
  else
    let monitor := {|
      id := uuid; label := b_label body; cabins := b_cabins body;
      source := Some (default awards (b_source body));
      availType := Some (default rewards (b_availType body));
      outbound := b_outbound body; return_ := b_return body;
      createdAt := now; lastChecked := None;
      currentCombined := None; lowestCombined := None; knownSlots := None;
      lastOutbound := None; lastReturn := None;
      currentCash := None; lowestCash := None;
      cashPending := None; cashRequestedAt := None |} in
    ({| status := 201; payload := MonitorJson monitor |},
     writeMonitors (readMonitors w ++ [monitor]) w).

(** [body.leg.x !== monitor.leg.x]; reading a member of a missing leg throws. *)
Definition legNe (x : Leg -> option string) (bodyLeg monitorLeg : option Leg)
    : option bool :=
  b ← bodyLeg; m ← monitorLeg; Some (bool_decide (x b ≠ x m)).

(** [a || b] where evaluating either side may throw. *)
Definition orElse (a b : option bool) : option bool :=
  x ← a; if x : bool then Some true else b.

(** [Array.prototype.sort()] on strings: ascending code units. *)
Definition sortStrings (l : list string) : list string := sortBy String.leb l.

(** The disjuncts of [coreChanged] that precede the comparison of cabins. *)
Definition routeOrModeChanged (body : MonitorBody) (monitor : Monitor) : option bool :=
  orElse (legNe origin (b_outbound body) (outbound monitor))
 (orElse (legNe destination (b_outbound body) (outbound monitor))
 (orElse (legNe dateFrom (b_outbound body) (outbound monitor))
 (orElse (legNe dateTo (b_outbound body) (outbound monitor))
 (orElse (legNe origin (b_return body) (return_ monitor))
 (orElse (legNe destination (b_return body) (return_ monitor))
 (orElse (legNe dateFrom (b_return body) (return_ monitor))
 (orElse (legNe dateTo (b_return body) (return_ monitor))
         (Some (bool_decide (default rewards (b_availType body)
                             ≠ default rewards (availType monitor))))))))))).

(** [coreChanged], together with [body.cabins] as the evaluation leaves it:
    the last disjunct sorts it in place, and is reached only when the
    earlier ones are all false. *)
Definition coreChanged (body : MonitorBody) (monitor : Monitor)
    : option (bool * list string) :=
  earlier ← routeOrModeChanged body monitor;
  if earlier : bool then Some (true, b_cabins body)
  else
    let sorted := sortStrings (b_cabins body) in
    Some (bool_decide (sorted ≠ sortStrings (cabins monitor)), sorted).

(** The assignments of the edit handler after [coreChanged] is known. *)
Definition applyEdit (body : MonitorBody) (changed : bool) (cabins' : list string)
    (monitor : Monitor) : Monitor :=
  let monitor :=
    setEdited monitor (b_label body) cabins'
      (default awards (b_source body)) (default rewards (b_availType body))
      (b_outbound body) (b_return body) in
  if changed then clearTracking monitor else monitor.

(** PUT /api/monitors/:id *)
Definition handleEdit (i : string) (body : MonitorBody) (w : World)
    : Response * World :=
  let err := rangeErr body in
  if str_truthy err then
    ({| status := 400; payload := ErrorJson (default "" err) |}, w)
  else
    let data := readMonitors w in
    match find (hasId i) data with
    | None => ({| status := 404; payload := ErrorJson "Not found" |}, w)
    | Some monitor =>
        match coreChanged body monitor with
        | None => ({| status := 500; payload := Thrown |}, consoleError HandlerError w)
        | Some (changed, cabins') =>
            let monitor := applyEdit body changed cabins' monitor in
            ({| status := 200; payload := MonitorJson monitor |},
             writeMonitors (updateFirst (hasId i) monitor data) w)
        end
    end.
End Validation.

Section OnDemand.
Variable parseFloatStr : string -> option Q.
Variable toNumberStr : string -> option Q.
Variable numberToString : Q -> string.
Variable localeCompare : string -> string -> Z.
Variable net : string -> Leg -> FetchOutcome.

(** POST /api/monitors/:id/refresh *)
Definition handleRefresh (now : string) (i : string) (w : World) : Response * World :=
  let data := readMonitors w in
  match find (hasId i) data with
  | None => ({| status := 404; payload := ErrorJson "Not found" |}, w)
  | Some monitor =>
      if bool_decide (source monitor = Some cash) then
        let monitor := setCashRequested now monitor in
        ({| status := 200; payload := MonitorJson monitor |},
         writeMonitors (updateFirst (hasId i) monitor data)
           (writeCashRequest monitor w))
      else
        match refreshMonitor parseFloatStr toNumberStr numberToString localeCompare net
                now w monitor with
        | Some (monitor, alerts) =>
            ({| status := 200; payload := MonitorJson monitor |},
             writeMonitors (updateFirst (hasId i) monitor data)
               (appendAlerts now monitor alerts w))
        | None => ({| status := 500; payload := Thrown |}, consoleError HandlerError w)
        end
  end.
End OnDemand.

(** ** The other routes *)

(** DELETE /api/monitors/:id. The answer is 200 [{"ok":true}] whether or not
    a monitor had the id; the status is returned. *)
Definition handleDelete (i : string) (w : World) : nat * World :=
  let data := readMonitors w in
  (200%nat, writeMonitors (filter (fun m => id m ≠ i) data) w).

Section RefreshAllRoute.
Variable parseFloatStr : string -> option Q.
Variable toNumberStr : string -> option Q.
Variable numberToString : Q -> string.
Variable localeCompare : string -> string -> Z.
Variable net : string -> Leg -> FetchOutcome.

(** POST /api/monitors/refresh-all: the monitors answered and the effects. *)
Definition handleRefreshAll (now : string) (w : World) : list Monitor * World :=
  let w := refreshAll parseFloatStr toNumberStr numberToString localeCompare net now w in
  (readMonitors w, w).
End RefreshAllRoute.

(** ** Request bodies *)

Definition MAX_BODY_SIZE : Z := 1 * 1024 * 1024.

(** What the request stream emits, and how the promise of [readBody] ends:
    resolved with the data, rejected, or never settled. A string is its
    sequence of code units. *)
Inductive StreamEvent := OnData (chunk : string) | OnEnd | OnError.

Inductive BodyResult := BodyResolved (data : string) | BodyRejected | BodyPending.

Fixpoint readBodyFrom (data : string) (events : list StreamEvent) : BodyResult :=
  match events with
  | [] => BodyPending
  | OnData chunk :: events =>
      let data := data +:+ chunk in
      if (Z.of_nat (String.length data) >? MAX_BODY_SIZE)%Z then BodyRejected
      else readBodyFrom data events
  | OnEnd :: _ => BodyResolved data
  | OnError :: _ => BodyRejected
  end.

Definition readBody (events : list StreamEvent) : BodyResult := readBodyFrom "" events.

(** ** Scheduled tasks *)

Record ScheduledTask := {
  st_id : string;
  groupFolder : string;
  prompt : string;
  schedule_type : string;
  schedule_value : string;
  st_status : string;
  next_run : option string;
}.

Record TaskMeta := {
  tm_id : string;
  tm_name : string;
  tm_description : string;
  tm_scheduleDisplay : string;
  tm_status : string;
}.

(** [{...t, name, description, scheduleDisplay}] *)
Record MergedTask := {
  mt_task : ScheduledTask;
  mt_name : option string;
  mt_description : option string;
  mt_scheduleDisplay : option string;
}.

(** [Object.fromEntries(meta.map(m => [m.id, m]))], as the members that the
    object owns: a later entry replaces an earlier one of the same id. The
    object is read through [metaField]. *)
Definition metaById (meta : list TaskMeta) : gmap string TaskMeta :=
  foldl (fun o m => <[tm_id m := m]> o) ∅ meta.

(** [s || null] *)
Definition orNull (s : option string) : option string :=
  if str_truthy s then s else None.

(** [metaById[id]?.x || null] for a member [x] of the metadata. When
    [metaById[id]] is an inherited member, [?.x] reads [x] from that member
    ([viaPrototype]): its function name for [name], nothing for the others. *)
Definition metaField (byId : gmap string TaskMeta) (i : string)
    (x : TaskMeta -> string) (viaPrototype : string -> option string)
    : option string :=
  match byId !! i with
  | Some m => orNull (Some (x m))
  | None => if inherited i then orNull (viaPrototype i) else None
  end.

(** GET /api/scheduled-tasks, on the parsed task snapshot and the parsed
    [tasks] member of the metadata file; a missing or unparsable file is
    [None]. *)
Definition mergeTasks (tasksFile : option (list ScheduledTask))
    (metaFile : option (list TaskMeta)) : list MergedTask :=
  let raw := default [] tasksFile in
  let byId := metaById (default [] metaFile) in
  (fun t => {|
     mt_task := t;
     mt_name := metaField byId (st_id t) tm_name inheritedName;
     mt_description := metaField byId (st_id t) tm_description (fun _ => None);
     mt_scheduleDisplay := metaField byId (st_id t) tm_scheduleDisplay (fun _ => None);
   |}) <$> raw.

(** ** The page's script *)

(** The member of name [k] that an object owns, on an object whose entries
    are listed in insertion order. *)
Definition objGet {V} (o : list (string * V)) (k : string) : option V :=
  snd <$> find (fun kv => String.eqb kv.1 k) o.

Section Page.
Variable toNumberStr : string -> option Q.

(** The loop of [renderLegRows] that picks the flight shown for each cabin:
    [if (!best[f.cabin] || f.MileageCost < best[f.cabin].MileageCost) best[f.cabin] = f].
    An inherited [best[f.cabin]] is truthy and has no [MileageCost], so the
    test fails. *)
Definition bestStep (best : list (string * NormalizedFlight)) (f : NormalizedFlight)
    : list (string * NormalizedFlight) :=
  match objGet best (cabin f) with
  | Some b =>
      if costLt toNumberStr (MileageCost f) (MileageCost b)
      then objSet best (cabin f) f else best
  | None => if inherited (cabin f) then best else objSet best (cabin f) f
  end.

Definition bestPerCabin (flights : list NormalizedFlight) (codes : list string)
    : list (string * NormalizedFlight) :=
  foldl bestStep [] (filter (fun f => cabin f ∈ codes) flights).
End Page.

(** [validateDateRange] of the add and edit forms. *)
Definition MAX_DATE_RANGE_DAYS : Q := 5.

Definition validateDateRange (getTime : string -> option Z) (from to : option string)
    (label : string) : option string :=
  if negb (str_truthy from) || negb (str_truthy to) then None
  else
    let days : option Q :=
      t1 ← to ≫= getTime;
      t0 ← from ≫= getTime;
      Some (inject_Z (t1 - t0) / 86400000)%Q in
    if num_lt days 0 then Some (label +:+ ": end date must be after start date.")
    else if num_gt days MAX_DATE_RANGE_DAYS
    then Some (label +:+ ": date range cannot exceed 5 days.")
    else None.

(** A raw record with one more per-cabin field set: a name other than [Date]
    and [TaxesCurrency], which the record holds apart. *)
Definition withField (k : string) (v : JsVal) (f : RawRecord) : RawRecord :=
  {| raw_Date := raw_Date f; raw_TaxesCurrency := raw_TaxesCurrency f;
     raw_fields := <[k := v]> (raw_fields f) |}.

(** ** A concrete platform

    The instances at which the properties below are exercised: decimal
    numerals, collation by code unit, ISO calendar dates ([YYYY-MM-DD]). *)

Definition digitOf (c : ascii) : option Z :=
  let n := Z.of_nat (nat_of_ascii c) in
  if ((48 <=? n) && (n <=? 57))%Z then Some (n - 48) else None.

Fixpoint digitsFrom (acc : Z) (s : string) : option Z :=
  match s with
  | EmptyString => Some acc
  | String c s' => d ← digitOf c; digitsFrom (10 * acc + d) s'
  end.

(** A non-empty string of decimal digits. *)
Definition decimal (s : string) : option Z :=
  match s with EmptyString => None | _ => digitsFrom 0 s end.

Definition decimalNumber (s : string) : option Q := inject_Z <$> decimal s.

(** [String(n)] on an integer. *)
Definition numeral (q : Q) : string := pretty (Qnum q / Zpos (Qden q))%Z.

(** [parseFloat] on a string without sign, fraction or exponent: the value of
    its longest prefix of decimal digits, [NaN] when that is empty. *)
Fixpoint leadingDigits (s : string) : string :=
  match s with
  | EmptyString => EmptyString
  | String c s' =>
      match digitOf c with
      | Some _ => String c (leadingDigits s')
      | None => EmptyString
      end
  end.

Definition parseFloatPrefix (s : string) : option Q := decimalNumber (leadingDigits s).

(** [Number] on a decimal or hexadecimal integer literal. *)
Definition hexDigitOf (c : ascii) : option Z :=
  let n := Z.of_nat (nat_of_ascii c) in
  if ((48 <=? n) && (n <=? 57))%Z then Some (n - 48)
  else if ((97 <=? n) && (n <=? 102))%Z then Some (n - 87)
  else if ((65 <=? n) && (n <=? 70))%Z then Some (n - 55)
  else None.

Fixpoint hexDigitsFrom (acc : Z) (s : string) : option Z :=
  match s with
  | EmptyString => Some acc
  | String c s' => d ← hexDigitOf c; hexDigitsFrom (16 * acc + d) s'
  end.

Definition numberLiteral (s : string) : option Q :=
  match s with
  | String "0" (String "x" (String c s')) => inject_Z <$> hexDigitsFrom 0 (String c s')
  | _ => decimalNumber s
  end.

Definition codeUnitCompare (a b : string) : Z :=
  match String.compare a b with Lt => -1 | Eq => 0 | Gt => 1 end.

(** Days from 1970-01-01 to a date of the proleptic Gregorian calendar. *)
Definition daysFromCivil (y m d : Z) : Z :=
  let y := if (m <=? 2)%Z then y - 1 else y in
  let era := y / 400 in
  let yoe := y - era * 400 in
  let doy := (153 * (if (m >? 2)%Z then m - 3 else m + 9) + 2) / 5 + d - 1 in
  let doe := yoe * 365 + yoe / 4 - yoe / 100 + doy in
  era * 146097 + doe - 719468.

Definition isoTime (s : string) : option Z :=
  if bool_decide (String.length s = 10%nat
                  ∧ String.get 4 s = Some "-"%char ∧ String.get 7 s = Some "-"%char)
  then
    y ← decimal (String.substring 0 4 s);
    m ← decimal (String.substring 5 2 s);
    d ← decimal (String.substring 8 2 s);
    Some (daysFromCivil y m d * 86400000)
  else None.

(** The monitor of the specification's example: SYD to BOS and back, business
    and premium, rewards availability; the API answers with one business
    flight per leg at 293,000 points, direct. *)

Definition demoOutbound : Leg :=
  {| origin := Some "SYD"; destination := Some "BOS";
     dateFrom := Some "2026-06-01"; dateTo := Some "2026-06-05" |}.

Definition demoReturn : Leg :=
  {| origin := Some "BOS"; destination := Some "SYD";
     dateFrom := Some "2026-06-18"; dateTo := Some "2026-06-22" |}.

Definition demoRaw (date cost : string) (direct : Q) : RawRecord :=
  {| raw_Date := date; raw_TaxesCurrency := Some "AUD";
     raw_fields := list_to_map
       [("JAvailable", JBool true); ("JMileageCost", JStr cost);
        ("JDirectMileageCost", JNum direct); ("JRemainingSeats", JNum 2);
        ("JAirlines", JStr "QF"); ("JTotalTaxes", JNum 45000);
        ("WAvailable", JBool false); ("WMileageCost", JStr "0")] |}.

Definition demoNet (key : string) (leg : Leg) : FetchOutcome :=
  if decide (leg = demoOutbound)
  then Responded 200 (Some [demoRaw "2026-06-02" "293000" 293000])
  else if decide (leg = demoReturn)
  then Responded 200 (Some [demoRaw "2026-06-20" "293000" 293000])
  else Responded 404 None.

Definition demoMonitor : Monitor :=
  {| id := "m1"; label := "Boston"; cabins := ["business"; "premium"];
     source := Some awards; availType := Some rewards;
     outbound := Some demoOutbound; return_ := Some demoReturn;
     createdAt := "2026-05-01T00:00:00.000Z"; lastChecked := None;
     currentCombined := None; lowestCombined := None; knownSlots := None;
     lastOutbound := None; lastReturn := None;
     currentCash := None; lowestCash := None;
     cashPending := None; cashRequestedAt := None |}.

Definition demoWorld : World :=
  {| monitorsFile := Some [demoMonitor]; alertsFile := None;
     cashRequestsFile := None; cashResultsFile := None;
     keyFile := Some "key"; console := [] |}.

Definition demoNow : string := "2026-05-02T00:00:00.000Z".

(** The same monitor some refreshes later, and edit requests for it. *)
Definition trackedMonitor : Monitor :=
  setAwardsTracking demoMonitor demoNow [] [] ∅ ∅
    ["2026-06-02|J|out"; "2026-06-20|J|ret"].

Definition trackedWorld : World :=
  {| monitorsFile := Some [trackedMonitor]; alertsFile := None;
     cashRequestsFile := None; cashResultsFile := None;
     keyFile := Some "key"; console := [] |}.

Definition editBody (cabins' : list string) (outbound' : Leg) : MonitorBody :=
  {| b_label := "Boston"; b_cabins := cabins'; b_source := Some awards;
     b_availType := Some rewards; b_outbound := Some outbound';
     b_return := Some demoReturn |}.

Definition laterOutbound : Leg :=
  {| origin := Some "SYD"; destination := Some "BOS";
     dateFrom := Some "2026-06-03"; dateTo := Some "2026-06-07" |}.

(** An answer whose business mileage is the string ["0x10"], which
    [parseFloat] reads as 0 and [Number] as 16. *)
Definition hexNet (key : string) (leg : Leg) : FetchOutcome :=
  if decide (leg = demoOutbound)
  then Responded 200 (Some [demoRaw "2026-06-02" "0x10" 0])
  else Responded 200 (Some [demoRaw "2026-06-20" "0x10" 0]).

(** A network that answers every query with 503. *)
Definition downNet (key : string) (leg : Leg) : FetchOutcome := Responded 503 None.

(** A record whose direct business cost arrives as a string, like its
    mileage. *)
Definition stringDirectRaw : RawRecord :=
  withField "JDirectMileageCost" (JStr "293000") (demoRaw "2026-06-02" "293000" 0).

(** A cash monitor whose request of the previous day is still outstanding,
    a result for it, and a result that names no monitor. *)
Definition pendingCashMonitor : Monitor :=
  {| id := "c1"; label := "Boston cash"; cabins := ["economy"];
     source := Some cash; availType := Some rewards;
     outbound := Some demoOutbound; return_ := Some demoReturn;
     createdAt := "2026-04-30T00:00:00.000Z"; lastChecked := None;
     currentCombined := None; lowestCombined := None; knownSlots := None;
     lastOutbound := None; lastReturn := None;
     currentCash := None; lowestCash := None;
     cashPending := Some true;
     cashRequestedAt := Some "2026-05-01T00:00:00.000Z" |}.

Definition pendingRequest (at_ : string) : CashRequest :=
  {| rq_monitorId := "c1"; rq_label := "Boston cash";
     rq_outbound := Some demoOutbound; rq_return := Some demoReturn;
     rq_cabins := ["economy"]; requestedAt := Some at_ |}.

Definition economyFare : CashRecord :=
  {| aud := 1850; cr_outboundDate := "2026-06-02"; cr_returnDate := "2026-06-20";
     cr_seenAt := "2026-05-01T12:00:00.000Z"; cr_isDirect := Some false |}.

Definition cashResultFor (monitor : string) : CashResult :=
  {| rs_monitorId := monitor; checkedAt := Some "2026-05-01T12:00:00.000Z";
     prices := Some [("economy", economyFare)] |}.

Definition pendingWorld (results : option (list CashResult)) : World :=
  {| monitorsFile := Some [pendingCashMonitor]; alertsFile := None;
     cashRequestsFile := Some [pendingRequest "2026-05-01T00:00:00.000Z"];
     cashResultsFile := results;
     keyFile := Some "key"; console := [] |}.

(** Later the outbound leg offers business at 280,000 points. *)
Definition cheaperNet (key : string) (leg : Leg) : FetchOutcome :=
  if decide (leg = demoOutbound)
  then Responded 200 (Some [demoRaw "2026-06-03" "280000" 280000])
  else demoNet key leg.

(** ** Vocabulary of the statements *)

(** Some flight of the list is in cabin [code]. *)
Definition hasCabin (code : string) (flights : list NormalizedFlight) : Prop :=
  exists f, f ∈ flights /\ cabin f = code.

(** [leastCost tn code flights f]: [f] is a flight of cabin [code] whose
    [MileageCost], as a number, is the least among the flights of the
    cabin. *)
Definition leastCost (toNumberStr : string -> option Q) (code : string)
    (flights : list NormalizedFlight) (f : NormalizedFlight) : Prop :=
  f ∈ flights /\ cabin f = code /\
  exists x, costNumber toNumberStr (MileageCost f) = Some x /\
    forall g, g ∈ flights -> cabin g = code ->
      exists y, costNumber toNumberStr (MileageCost g) = Some y /\ (x <= y)%Q.

(** Every flight of the list has a number for its cost, as the type of
    [MileageCost] declares. *)
Definition numericCosts (flights : list NormalizedFlight) : Prop :=
  forall f, f ∈ flights -> exists x, MileageCost f = CNum x.

(** Flights as the page has them, for the examples. *)
Definition flightAt (date code : string) (cost : Cost) : NormalizedFlight :=
  {| Date := date; cabin := code; MileageCost := cost; RemainingSeats := JNum 2;
     IsDirect := false; Airlines := JStr "QF"; TaxesCurrency := Some "AUD";
     TotalTaxes := Some 0%Q |}.

(** Every flight of the list has a cost that is a positive number once
    converted. *)
Definition positiveCosts (toNumberStr : string -> option Q)
    (flights : list NormalizedFlight) : Prop :=
  forall f, f ∈ flights ->
    exists x, costNumber toNumberStr (MileageCost f) = Some x /\ (0 < x)%Q.

(** The ten tracking fields of a monitor. *)
Definition tracking (m : Monitor) :=
  (currentCombined m, lowestCombined m, knownSlots m, lastOutbound m, lastReturn m,
   lastChecked m, currentCash m, lowestCash m, cashPending m, cashRequestedAt m).

(** An edit changes a leg when some member of the leg in the body differs
    from the stored one. *)
Definition legDiffers (bodyLeg monitorLeg : option Leg) : Prop :=
  exists b m, bodyLeg = Some b /\ monitorLeg = Some m /\
    (origin b ≠ origin m \/ destination b ≠ destination m \/
     dateFrom b ≠ dateFrom m \/ dateTo b ≠ dateTo m).

(** No prior value, or a strictly lower new one. *)
Definition lowerThanStored (v : Q) (was : option Q) : Prop :=
  was = None \/ exists p, was = Some p /\ (v < p)%Q.

(** [below tn a b]: cost [a] is strictly below cost [b]. Two strings are
    ordered as strings, by code units; in every other case both costs must
    convert to numbers, and are ordered as those numbers. *)
Definition below (toNumberStr : string -> option Q) (a b : Cost) : Prop :=
  match a, b with
  | CStr s, CStr t => String.compare s t = Lt
  | _, _ =>
      exists x y, costNumber toNumberStr a = Some x /\
                  costNumber toNumberStr b = Some y /\ (x < y)%Q
  end.

(** No prior points, or new points strictly below them. *)
Definition lowerPoints (toNumberStr : string -> option Q) (v : Cost) (was : option Cost)
    : Prop :=
  was = None \/ exists p, was = Some p /\ below toNumberStr v p.

(** Two scalars of the same type and the same value: what [===] decides. *)
Definition sameScalar (a b : JsVal) : Prop :=
  match a, b with
  | JUndefined, JUndefined | JNull, JNull => True
  | JBool x, JBool y => x = y
  | JNum x, JNum y => (x == y)%Q
  | JStr x, JStr y => x = y
  | _, _ => False
  end.

(** An edit of a core field: a leg, the effective availability mode, or the
    set of cabins. *)
Definition coreEdit (body : MonitorBody) (m : Monitor) : Prop :=
  legDiffers (b_outbound body) (outbound m) \/
  legDiffers (b_return body) (return_ m) \/
  default rewards (b_availType body) ≠ default rewards (availType m) \/
  ~ (forall c, c ∈ b_cabins body <-> c ∈ cabins m).

Definition noTracking : Monitor -> Prop := fun m =>
  currentCombined m = None /\ lowestCombined m = None /\ knownSlots m = None /\
  lastOutbound m = None /\ lastReturn m = None /\ lastChecked m = None /\
  currentCash m = None /\ lowestCash m = None /\
  cashPending m = None /\ cashRequestedAt m = None.

(** A leg fetch fails: the call is rejected (the 30 second abort among the
    causes) or the status is not a success. *)
Definition fetchFails (net : string -> Leg -> FetchOutcome) (key : string) (leg : Leg)
    : Prop :=
  net key leg = Rejected \/
  exists status data, net key leg = Responded status data /\ resp_ok status = false.

(** A leg without both date bounds: missing, or with a bound absent. *)
Definition omitsBound (leg : option Leg) : Prop :=
  leg = None \/ exists l, leg = Some l /\ (dateFrom l = None \/ dateTo l = None).

(** The result names a monitor that [find] returns and that is on the cash
    channel. *)
Definition matchesCashMonitor (monitors : list Monitor) (r : CashResult) : Prop :=
  exists m, find (hasId (rs_monitorId r)) monitors = Some m /\ source m = Some cash.

(** What the loop over the results never changes in a monitor. *)
Definition monitorKey (m : Monitor) : string * option Source := (id m, source m).

(** The four documents of [MONITOR_DIR] are the same in both worlds. *)
Definition sameDocuments (w w' : World) : Prop :=
  monitorsFile w' = monitorsFile w /\ alertsFile w' = alertsFile w /\
  cashRequestsFile w' = cashRequestsFile w /\ cashResultsFile w' = cashResultsFile w.

(** The alert queue of [w'] is the queue of [w] followed by batches that all
    carry at least one line. *)
Definition alertsAppended (w w' : World) : Prop :=
  exists more, default [] (alertsFile w') = default [] (alertsFile w) ++ more /\
               Forall (fun a => messages a ≠ []) more.

(** The members of a monitor that no refresh, poll or delete assigns. *)
Definition identity (m : Monitor) :=
  (id m, label m, cabins m, source m, availType m, outbound m, return_ m, createdAt m).

(** A monitor that a poll has answered: on the cash channel, not pending and
    with a check time. *)
Definition answered (monitors : list Monitor) (i : string) : Prop :=
  exists m, find (hasId i) monitors = Some m /\ source m = Some cash /\
            cashPending m = Some false /\ is_Some (lastChecked m).

(** The first flight of least cost: a later flight replaces the one kept
    only when it is strictly cheaper. *)
Definition firstMinStep (toNumberStr : string -> option Q)
    (b : option NormalizedFlight) (f : NormalizedFlight) : option NormalizedFlight :=
  match b with
  | Some b =>
      if costLt toNumberStr (MileageCost f) (MileageCost b) then Some f else Some b
  | None => Some f
  end.

(** The new-lowest line that a refresh owes for [code], given the lowest
    records [low] stored before it and the flights of the two legs. *)
Definition lowestLine (toNumberStr : string -> option Q) (numberToString : Q -> string)
    (now : string) (out ret : list NormalizedFlight) (low : gmap string LowestRecord)
    (code : string) : option AlertLine :=
  rec ← combinedRecord toNumberStr numberToString now out ret code;
  if improvesPoints toNumberStr (points rec) (points <$> low !! code)
  then Some (NewLowest (codeLabel code) (points rec) (points <$> low !! code)
               (lr_outboundDate rec) (lr_returnDate rec))
  else None.

(** The same for a price of a cash result. *)
Definition cashLine (low : gmap string CashRecord) (entry : string * CashRecord)
    : option AlertLine :=
  if improves (aud entry.2) (aud <$> low !! entry.1)
  then Some (NewLowestCash (cashCabinLabel entry.1) (aud entry.2) (aud <$> low !! entry.1)
               (cr_outboundDate entry.2) (cr_returnDate entry.2))
  else None.

(** Some character of the string is a lower-case ASCII letter. *)
Definition isLower (c : ascii) : bool :=
  let n := nat_of_ascii c in ((97 <=? n) && (n <=? 122))%nat.

Fixpoint hasLower (s : string) : bool :=
  match s with
  | EmptyString => false
  | String c s' => isLower c || hasLower s'
  end.

(** [s] ends with [suf]. *)
Fixpoint endsWith (suf s : string) : bool :=
  String.eqb s suf ||
  match s with
  | EmptyString => false
  | String _ s' => endsWith suf s'
  end.

(** The cost of a flight as a number, 0 standing for [NaN], and the order
    of the flights by that number. *)
Definition numCost (toNumberStr : string -> option Q) (f : NormalizedFlight) : Q :=
  default 0%Q (costNumber toNumberStr (MileageCost f)).

Definition byNumCost (toNumberStr : string -> option Q) (a b : NormalizedFlight) : bool :=
  Qle_bool (numCost toNumberStr a - numCost toNumberStr b) 0.

(** The names under which [normalizeFlights] reads the per-cabin fields,
    between the cabin code and the mode's suffix. *)
Definition CABIN_FIELDS : list string :=
  ["Available"; "MileageCost"; "DirectMileageCost"; "RemainingSeats";
   "Airlines"; "TotalTaxes"].

(** The last character of a string. *)
Fixpoint lastChar (s : string) : option ascii :=
  match s with
  | EmptyString => None
  | String c EmptyString => Some c
  | String _ s' => lastChar s'
  end.

(** * Properties *)

(** ** Numbers *)

Lemma Qlt_bool_iff (a b : Q) : Qlt_bool a b = true <-> (a < b)%Q.
Proof.
  unfold Qlt_bool. rewrite negb_true_iff. split.
  - intros H. apply Qnot_le_lt. intros Hle.
    apply Qle_bool_iff in Hle. congruence.
  - intros H. destruct (Qle_bool b a) eqn:E; [|done].
    apply Qle_bool_iff in E. exfalso. eapply Qlt_not_le; eauto.
Qed.

Lemma Qlt_bool_irrefl (a : Q) : Qlt_bool a a = false.
Proof.
  destruct (Qlt_bool a a) eqn:E; [|done].
  apply Qlt_bool_iff in E. exfalso. eapply Qlt_irrefl; eauto.
Qed.

(** The guard of a replacement holds exactly when there is no prior value or
    the new one is strictly lower. *)
Lemma improves_iff (v : Q) (was : option Q) :
  improves v was = true <-> was = None \/ exists p, was = Some p /\ (v < p)%Q.
Proof.
  destruct was as [p|]; simpl.
  - rewrite Qlt_bool_iff. split; [intros H; right; eauto|].
    intros [H|(p' & [= <-] & H)]; done.
  - split; auto.
Qed.

Section CostOrder.
Context (toNumberStr : string -> option Q).

(** [<] decides [below]. *)
Lemma costLt_iff (a b : Cost) :
  costLt toNumberStr a b = true <-> below toNumberStr a b.
Proof.
  assert (forall a b,
            match costNumber toNumberStr a, costNumber toNumberStr b with
            | Some x, Some y => Qlt_bool x y
            | _, _ => false
            end = true <->
            exists x y, costNumber toNumberStr a = Some x /\
                        costNumber toNumberStr b = Some y /\ (x < y)%Q) as Hnum.
  { intros a' b'.
    destruct (costNumber toNumberStr a') as [x|]; [|split; [done|by intros (? & ? & ? & _)]].
    destruct (costNumber toNumberStr b') as [y|];
      [|split; [done|by intros (? & ? & _ & ? & _)]].
    rewrite Qlt_bool_iff. split; [eauto|]. by intros (? & ? & [= <-] & [= <-] & ?). }
  destruct a as [x|s|], b as [y|t|]; try apply Hnum.
  unfold costLt, below, String.ltb. by destruct (String.compare s t).
Qed.

(** On two numbers the order is the order of the numbers. *)
Lemma below_numbers (x y : Q) : below toNumberStr (CNum x) (CNum y) <-> (x < y)%Q.
Proof.
  simpl. split; [by intros (? & ? & [= <-] & [= <-] & ?)|eauto].
Qed.

Lemma below_irrefl (c : Cost) : ~ below toNumberStr c c.
Proof.
  assert (forall c', ~ exists x y, costNumber toNumberStr c' = Some x /\
                                  costNumber toNumberStr c' = Some y /\ (x < y)%Q) as Hnum.
  { intros c' (x & y & Hx & Hy & Hlt). rewrite Hx in Hy. injection Hy as <-.
    by apply Qlt_irrefl in Hlt. }
  destruct c as [q|s|]; try apply Hnum.
  simpl. pose proof (String.compare_antisym s s) as H.
  by destruct (String.compare s s).
Qed.

Lemma ltb_irrefl (s : string) : String.ltb s s = false.
Proof.
  unfold String.ltb. pose proof (String.compare_antisym s s) as H.
  by destruct (String.compare s s).
Qed.

(** No value is below itself. *)
Lemma costLt_irrefl (c : Cost) : costLt toNumberStr c c = false.
Proof.
  destruct c as [q|s|]; simpl.
  - apply Qlt_bool_irrefl.
  - apply ltb_irrefl.
  - apply Qlt_bool_irrefl.
Qed.

Lemma improvesPoints_iff (v : Cost) (was : option Cost) :
  improvesPoints toNumberStr v was = true <-> lowerPoints toNumberStr v was.
Proof.
  unfold lowerPoints. destruct was as [p|]; cbn [improvesPoints].
  - rewrite costLt_iff. split; [intros H; right; eauto|].
    by intros [H|(p' & [= <-] & H)].
  - split; auto.
Qed.

Lemma lowerPoints_dec (v : Cost) (was : option Cost) :
  (lowerPoints toNumberStr v was -> improvesPoints toNumberStr v was = true) /\
  (~ lowerPoints toNumberStr v was -> improvesPoints toNumberStr v was = false).
Proof.
  split; intros H.
  - by apply improvesPoints_iff.
  - destruct (improvesPoints toNumberStr v was) eqn:E; [|done].
    by apply improvesPoints_iff in E.
Qed.
End CostOrder.

(** ** Inherited names *)

Lemma inherited_cases (k : string) :
  inherited k = true -> k ∈ OBJECT_PROTOTYPE.
Proof. apply bool_decide_eq_true. Qed.

Ltac each_inherited H :=
  apply inherited_cases in H; unfold OBJECT_PROTOTYPE in H;
  repeat (apply elem_of_cons in H as [->|H]); [..|by apply elem_of_nil in H].

Lemma isLower_upper (c : ascii) : isLower (upper_ascii c) = false.
Proof.
  destruct c as [[] [] [] [] [] [] [] []]; reflexivity.
Qed.

Lemma hasLower_toUpperCase (s : string) : hasLower (toUpperCase s) = false.
Proof.
  induction s as [|c s IH]; [done|]. simpl. by rewrite isLower_upper, IH.
Qed.

Lemma inherited_hasLower (k : string) : inherited k = true -> hasLower k = true.
Proof. intros H. each_inherited H; reflexivity. Qed.

Lemma inheritedString_hasLower (k : string) : hasLower (inheritedString k) = true.
Proof.
  unfold inheritedString. by destruct (inheritedName k).
Qed.

Lemma inheritedString_plain (k : string) :
  inherited k = true -> inherited (inheritedString k) = false.
Proof. intros H. each_inherited H; reflexivity. Qed.

Lemma inheritedString_inj (k k' : string) :
  inherited k = true -> inherited k' = true ->
  inheritedString k' = inheritedString k -> k' = k.
Proof.
  intros H H'. each_inherited H; each_inherited H'; (done || (intros E; discriminate E)).
Qed.

Lemma cabin_table_codes (table : gmap string string) (k v : string) :
  table = CABIN_CODES \/ table = CASH_CABIN_CODES ->
  table !! k = Some v -> hasLower v = false /\ inherited v = false /\ inherited k = false.
Proof.
  intros Ht Hk.
  assert ((k, v) ∈ [("business", "J"); ("premium", "W"); ("economy", "Y"); ("first", "F")])
    as Hin.
  { destruct Ht as [-> | ->]; by apply elem_of_list_to_map_2 in Hk. }
  repeat (apply elem_of_cons in Hin as [[= -> ->]|Hin]); [..|by apply elem_of_nil in Hin];
    by split_and!.
Qed.

(** A code is never an inherited name, whatever the cabin is called: reads
    and assignments under a code reach members that the object owns. *)
Lemma tableGet_code_plain (table : gmap string string) (c : string) :
  table = CABIN_CODES \/ table = CASH_CABIN_CODES ->
  inherited (tableGet table c (toUpperCase c)) = false.
Proof.
  intros Ht. unfold tableGet.
  destruct (table !! c) as [v|] eqn:E.
  - by apply (cabin_table_codes table c v Ht).
  - destruct (inherited c) eqn:Ei; [by apply inheritedString_plain|].
    destruct (inherited (toUpperCase c)) eqn:Eu; [|done].
    apply inherited_hasLower in Eu. by rewrite hasLower_toUpperCase in Eu.
Qed.

Lemma cabinCode_plain (c : string) : inherited (cabinCode c) = false.
Proof. apply tableGet_code_plain. by left. Qed.

Lemma cashCabinCode_plain (c : string) : inherited (cashCabinCode c) = false.
Proof. apply tableGet_code_plain. by right. Qed.

(** The string form of an inherited member is the code of no other cabin
    name: codes are equal as strings exactly when they are the same value. *)
Lemma cabinCode_inj_inherited (c c' : string) :
  inherited c = true -> cabinCode c' = cabinCode c -> c' = c.
Proof.
  intros Hc. unfold cabinCode, tableGet. rewrite Hc.
  destruct (CABIN_CODES !! c) as [v|] eqn:E.
  { apply (cabin_table_codes CABIN_CODES c v) in E as (_ & _ & E); [congruence|by left]. }
  destruct (CABIN_CODES !! c') as [v'|] eqn:E'.
  { apply (cabin_table_codes CABIN_CODES c' v') in E' as (E' & _ & _); [|by left].
    intros ->. by rewrite inheritedString_hasLower in E'. }
  destruct (inherited c') eqn:Hc'; [by apply inheritedString_inj|].
  intros H. pose proof (hasLower_toUpperCase c') as Hu.
  by rewrite H, inheritedString_hasLower in Hu.
Qed.

Lemma endsWith_app (a suf : string) : endsWith suf (a +:+ suf) = true.
Proof.
  induction a as [|x a IH].
  - change ("" +:+ suf) with suf. destruct suf; cbn [endsWith]; by rewrite String.eqb_refl.
  - change (String x a +:+ suf) with (String x (a +:+ suf)).
    cbn [endsWith]. rewrite IH. apply orb_true_r.
Qed.

(** No per-cabin field that [normalizeFlights] reads has an inherited name,
    whatever the code. *)
Lemma cabin_field_not_inherited (code name : string) (availType : AvailType) :
  name ∈ CABIN_FIELDS -> inherited (code +:+ name +:+ suffix availType) = false.
Proof.
  intros Hn.
  destruct (inherited (code +:+ name +:+ suffix availType)) eqn:E; [|done].
  pose proof (endsWith_app code (name +:+ suffix availType)) as He.
  revert E He. generalize (code +:+ name +:+ suffix availType). intros k E He.
  unfold CABIN_FIELDS in Hn.
  repeat (apply elem_of_cons in Hn as [->|Hn]); [..|by apply elem_of_nil in Hn];
    destruct availType; each_inherited E; vm_compute in He; discriminate He.
Qed.

Lemma assign_plain {V} (k : string) (v : V) (o : gmap string V) :
  inherited k = false -> assign k v o = <[k := v]> o.
Proof.
  intros H. unfold assign.
  destruct (String.eqb_spec k "__proto__") as [->|_]; [done|done].
Qed.

Lemma readsInherited_plain {V} (o : gmap string V) (k : string) :
  inherited k = false -> readsInherited o k = false.
Proof. intros H. unfold readsInherited. by rewrite H. Qed.

Lemma num_pos_iff (n : option Q) :
  num_pos n = true <-> exists q, n = Some q /\ (0 < q)%Q.
Proof.
  destruct n as [q|]; simpl.
  - change (negb (Qle_bool q 0)) with (Qlt_bool 0 q). rewrite Qlt_bool_iff.
    split; [eauto|]. by intros (q' & [= <-] & H).
  - split; [done|]. by intros (q & ? & _).
Qed.

(** ** Sorting *)

Lemma StronglySorted_weaken {A} (R S : A -> A -> Prop) (l : list A) :
  (forall a b, R a b -> S a b) -> StronglySorted R l -> StronglySorted S l.
Proof.
  intros HRS. induction 1 as [|x l Hl IH Hx]; constructor; [done|].
  eapply Forall_impl; [exact Hx|]. intros y. apply HRS.
Qed.

Section Sorting.
Context {A : Type} (le : A -> A -> bool).

Lemma insertBy_Permutation (x : A) (l : list A) : insertBy le x l ≡ₚ x :: l.
Proof.
  induction l as [|y l IH]; simpl; [done|].
  destruct (le x y); [done|]. rewrite IH. apply Permutation_swap.
Qed.

Lemma sortBy_Permutation (l : list A) : sortBy le l ≡ₚ l.
Proof.
  induction l as [|x l IH]; simpl; [done|].
  fold (sortBy le l). by rewrite insertBy_Permutation, IH.
Qed.

Lemma sortBy_elem_of (x : A) (l : list A) : x ∈ sortBy le l <-> x ∈ l.
Proof. by rewrite sortBy_Permutation. Qed.

Lemma sortBy_nil_inv (l : list A) : sortBy le l = [] -> l = [].
Proof.
  intros H. apply Permutation_nil_r. by rewrite <- H, sortBy_Permutation.
Qed.

(** A comparator is consistent when its sign is antisymmetric and [<= 0] is
    transitive. *)
Hypothesis le_total : forall a b, le a b = false -> le b a = true.
Hypothesis le_trans : forall a b c, le a b = true -> le b c = true -> le a c = true.

Lemma insertBy_StronglySorted (x : A) (l : list A) :
  StronglySorted (fun a b => le a b = true) l ->
  StronglySorted (fun a b => le a b = true) (insertBy le x l).
Proof.
  induction 1 as [|y l Hl IH Hy]; simpl.
  - repeat constructor.
  - destruct (le x y) eqn:E.
    + constructor; [by constructor|].
      constructor; [done|].
      eapply Forall_impl; [exact Hy|]. intros z Hz. by eapply le_trans.
    + constructor; [done|].
      rewrite insertBy_Permutation. constructor; [by apply le_total|done].
Qed.

Lemma sortBy_StronglySorted (l : list A) :
  StronglySorted (fun a b => le a b = true) (sortBy le l).
Proof.
  induction l as [|x l IH]; simpl; [constructor|].
  by apply insertBy_StronglySorted.
Qed.

(** The first element of the sorted array is a least element of the input. *)
Lemma sortBy_head (l : list A) (x : A) :
  head (sortBy le l) = Some x ->
  x ∈ l /\ forall y, y ∈ l -> le x y = true \/ y = x.
Proof.
  intros H. pose proof (sortBy_StronglySorted l) as Hs.
  destruct (sortBy le l) as [|x' l'] eqn:E; simplify_eq/=.
  split.
  - apply sortBy_elem_of. rewrite E. by left.
  - intros y Hy. apply sortBy_elem_of in Hy. rewrite E in Hy.
    apply StronglySorted_inv in Hs as [_ Hall].
    apply elem_of_cons in Hy as [->|Hy]; [by right|left].
    by eapply Forall_forall in Hall.
Qed.
End Sorting.

(** ** Fetched flights *)

Section Fetched.
Context (parseFloatStr toNumberStr : string -> option Q)
        (localeCompare : string -> string -> Z)
        (net : string -> Leg -> FetchOutcome).

Lemma normalizeFlights_elem_of raw cabins availType e :
  e ∈ normalizeFlights parseFloatStr toNumberStr localeCompare raw cabins availType <->
  exists f code, f ∈ raw /\ code ∈ cabinCode <$> cabins /\
                 normalizeEntry parseFloatStr toNumberStr (suffix availType) f code = Some e.
Proof.
  unfold normalizeFlights. rewrite sortBy_elem_of, list_elem_of_bind. split.
  - intros (f & He & Hf). apply list_elem_of_omap in He as (code & Hc & He). eauto.
  - intros (f & code & Hf & Hc & He). exists f. split; [|done].
    apply list_elem_of_omap. eauto.
Qed.

Lemma normalizeEntry_positive sfx f code e :
  normalizeEntry parseFloatStr toNumberStr sfx f code = Some e ->
  exists x, costNumber toNumberStr (MileageCost e) = Some x /\ (0 < x)%Q.
Proof.
  unfold normalizeEntry. intros H.
  destruct (truthy _); [|done]. simpl in H.
  destruct (num_pos _) eqn:Hpos; [|done].
  apply num_pos_iff in Hpos. by injection H as <-.
Qed.

(** Every flight that a leg fetch returns has a cost that converts to a
    positive number, and is in a cabin of the monitor. *)
Lemma fetchLeg_flights w leg cabins availType flights :
  fetchLeg parseFloatStr toNumberStr localeCompare net w leg cabins availType
    = Some flights ->
  positiveCosts toNumberStr flights /\
  forall f, f ∈ flights -> cabin f ∈ cabinCode <$> cabins.
Proof.
  unfold fetchLeg. intros H.
  destruct (readKey w) as [key|]; [|done]. destruct leg as [leg|]; [|done].
  simpl in H. destruct (net key leg) as [|status data]; [done|].
  destruct (resp_ok status); [|done]. injection H as <-.
  split; intros e (f & code & _ & Hc & He)%normalizeFlights_elem_of.
  - by eapply normalizeEntry_positive.
  - unfold normalizeEntry in He.
    destruct (_ && _); [|done]. by injection He as <-.
Qed.
End Fetched.

(** ** Cheapest flight of a cabin *)

Lemma insertBy_ext {A} (le le' : A -> A -> bool) (x : A) (l : list A) :
  (forall y, y ∈ l -> le x y = le' x y) -> insertBy le x l = insertBy le' x l.
Proof.
  induction l as [|y l IH]; intros H; simpl; [done|].
  rewrite (H y) by (by left). rewrite IH; [done|].
  intros z Hz. apply H. by right.
Qed.

(** Sorting depends on the comparator through the elements only. *)
Lemma sortBy_ext {A} (le le' : A -> A -> bool) (l : list A) :
  (forall a b, a ∈ l -> b ∈ l -> le a b = le' a b) -> sortBy le l = sortBy le' l.
Proof.
  induction l as [|x l IH]; intros H; simpl; [done|].
  fold (sortBy le l). fold (sortBy le' l).
  rewrite IH by (intros a b Ha Hb; apply H; by right).
  apply insertBy_ext. intros y Hy. apply sortBy_elem_of in Hy.
  apply H; [by left|by right].
Qed.

Section Tracking.
Context (toNumberStr : string -> option Q) (numberToString : Q -> string).

Abbreviation least := (leastCost toNumberStr).
Abbreviation positive := (positiveCosts toNumberStr).
Abbreviation best := (cheapest toNumberStr).
Abbreviation combined := (combinedRecord toNumberStr numberToString).
Abbreviation track := (trackCabin toNumberStr numberToString).
Abbreviation line := (lowestLine toNumberStr numberToString).
Abbreviation lower := (improvesPoints toNumberStr).

Lemma byNumCost_iff (a b : NormalizedFlight) :
  byNumCost toNumberStr a b = true <-> (numCost toNumberStr a <= numCost toNumberStr b)%Q.
Proof. unfold byNumCost. rewrite Qle_bool_iff. split; intros H; lra. Qed.

Lemma byNumCost_total (a b : NormalizedFlight) :
  byNumCost toNumberStr a b = false -> byNumCost toNumberStr b a = true.
Proof.
  intros H. apply byNumCost_iff.
  destruct (Qlt_le_dec (numCost toNumberStr b) (numCost toNumberStr a)) as [Hlt|Hle];
    [lra|].
  apply byNumCost_iff in Hle. congruence.
Qed.

Lemma byNumCost_trans (a b c : NormalizedFlight) :
  byNumCost toNumberStr a b = true -> byNumCost toNumberStr b c = true ->
  byNumCost toNumberStr a c = true.
Proof. rewrite !byNumCost_iff. lra. Qed.

(** On flights whose costs are numbers the comparator of the sort is the
    order of those numbers. *)
Lemma byMileage_numbers (a b : NormalizedFlight) :
  is_Some (costNumber toNumberStr (MileageCost a)) ->
  is_Some (costNumber toNumberStr (MileageCost b)) ->
  byMileage toNumberStr a b = byNumCost toNumberStr a b.
Proof.
  unfold byMileage, byNumCost, numCost. by intros [x ->] [y ->].
Qed.

Lemma cheapest_None (code : string) (flights : list NormalizedFlight) :
  best code flights = None <-> ~ hasCabin code flights.
Proof.
  unfold cheapest, hasCabin. split.
  - intros H (f & Hf & Hc).
    destruct (sortBy _ _) as [|x l] eqn:E; [|done].
    apply sortBy_nil_inv in E.
    assert (f ∈ filter (fun f => cabin f = code) flights) as Hin
      by (apply list_elem_of_filter; done).
    rewrite E in Hin. by apply elem_of_nil in Hin.
  - intros H. destruct (sortBy _ _) as [|x l] eqn:E; [done|].
    exfalso. apply H. exists x.
    assert (x ∈ filter (fun f => cabin f = code) flights) as Hin
      by (apply (sortBy_elem_of (byMileage toNumberStr)); rewrite E; by left).
    apply list_elem_of_filter in Hin as [? ?]. done.
Qed.

Lemma cheapest_hasCabin (code : string) (flights : list NormalizedFlight)
    (f : NormalizedFlight) :
  best code flights = Some f -> hasCabin code flights.
Proof.
  unfold cheapest. intros H. exists f.
  assert (f ∈ sortBy (byMileage toNumberStr) (filter (fun f => cabin f = code) flights))
    as Hin.
  { destruct (sortBy _ _) as [|x l]; simplify_eq/=. by left. }
  apply sortBy_elem_of, list_elem_of_filter in Hin as [? ?]. done.
Qed.

Lemma cheapest_Some (code : string) (flights : list NormalizedFlight)
    (f : NormalizedFlight) :
  positive flights -> best code flights = Some f -> least code flights f.
Proof.
  unfold cheapest. intros Hpos H.
  rewrite (sortBy_ext _ (byNumCost toNumberStr)) in H.
  2:{ intros a b [_ Ha]%list_elem_of_filter [_ Hb]%list_elem_of_filter.
      destruct (Hpos a Ha) as (x & Hx & _), (Hpos b Hb) as (y & Hy & _).
      apply byMileage_numbers; by eexists. }
  apply sortBy_head in H as [Hin Hmin];
    [|apply byNumCost_total|apply byNumCost_trans].
  apply list_elem_of_filter in Hin as [Hc Hin].
  destruct (Hpos f Hin) as (x & Hx & _).
  split_and!; [done..|]. exists x. split; [done|].
  intros g Hg Hgc. destruct (Hpos g Hg) as (y & Hy & _). exists y. split; [done|].
  destruct (Hmin g) as [Hle| ->]; [by apply list_elem_of_filter| |].
  - apply byNumCost_iff in Hle. unfold numCost in Hle. by rewrite Hx, Hy in Hle.
  - rewrite Hx in Hy. injection Hy as <-. lra.
Qed.

Lemma cheapest_is_Some (code : string) (flights : list NormalizedFlight) :
  hasCabin code flights -> is_Some (best code flights).
Proof.
  intros H. destruct (best code flights) eqn:E; [by eexists|].
  by apply cheapest_None in E.
Qed.

Lemma combinedRecord_is_Some now out ret code :
  is_Some (combined now out ret code) <-> hasCabin code out /\ hasCabin code ret.
Proof.
  unfold combinedRecord. split.
  - intros [r Hr].
    destruct (best code out) eqn:Eo; [|done].
    destruct (best code ret) eqn:Er; [|done].
    split; by eapply cheapest_hasCabin.
  - intros [[bo Eo]%cheapest_is_Some [br Er]%cheapest_is_Some].
    rewrite Eo, Er. by eexists.
Qed.

(** The points of a combined record are the [+] of the costs of a cheapest
    flight of each leg: their sum when both are numbers. *)
Lemma combinedRecord_points now out ret code rec :
  positive out -> positive ret ->
  combined now out ret code = Some rec ->
  exists bo br,
    least code out bo /\ least code ret br /\
    points rec = costAdd numberToString (MileageCost bo) (MileageCost br) /\
    lr_outboundDate rec = Date bo /\ lr_returnDate rec = Date br /\
    forall x y, MileageCost bo = CNum x -> MileageCost br = CNum y ->
                points rec = CNum (x + y).
Proof.
  unfold combinedRecord. intros Ho Hr H.
  destruct (best code out) as [bo|] eqn:Eo; [|done].
  destruct (best code ret) as [br|] eqn:Er; [|done].
  simplify_eq/=.
  apply cheapest_Some in Eo, Er; [|done..].
  exists bo, br. split_and!; [done..|].
  by intros x y -> ->.
Qed.

(** ** The loop over the tracked cabins *)

(** One iteration under a code that is not an inherited name. *)
Lemma trackCabin_plain now out ret cur low alerts code :
  inherited code = false ->
  track now out ret (cur, low, alerts) code =
    match combined now out ret code with
    | Some rec =>
        if lower (points rec) (points <$> low !! code)
        then (<[code := rec]> cur, <[code := rec]> low,
              alerts ++ [NewLowest (codeLabel code) (points rec) (points <$> low !! code)
                           (lr_outboundDate rec) (lr_returnDate rec)])
        else (<[code := rec]> cur, low, alerts)
    | None => (cur, low, alerts)
    end.
Proof.
  intros Hp. unfold trackCabin.
  destruct (combined now out ret code) as [rec|]; [|done].
  by rewrite readsInherited_plain, assign_plain.
Qed.

(** What one iteration leaves under each key. *)
Lemma trackCabin_lookup now out ret cur low alerts code cur' low' alerts' :
  inherited code = false ->
  track now out ret (cur, low, alerts) code = (cur', low', alerts') ->
  forall c,
    cur' !! c =
      (if decide (c = code)
       then from_option Some (cur !! c) (combined now out ret c)
       else cur !! c) /\
    low' !! c =
      (if decide (c = code)
       then match combined now out ret c with
            | Some r => if lower (points r) (points <$> low !! c)
                        then Some r else low !! c
            | None => low !! c
            end
       else low !! c).
Proof.
  intros Hp. rewrite trackCabin_plain by done. intros H c.
  destruct (decide (c = code)) as [->|Hne].
  - destruct (combined now out ret code) as [r|]; simpl.
    + destruct (lower _ _); simplify_eq; by rewrite ?lookup_insert_eq.
    + by simplify_eq.
  - destruct (combined now out ret code) as [r|]; [|by simplify_eq].
    destruct (lower _ _); simplify_eq; by rewrite ?lookup_insert_ne.
Qed.

(** What the whole loop leaves under each key: a cabin listed twice is
    tracked once, because the second visit finds the record of the first. *)
Lemma trackCabin_fold now out ret codes cur0 low0 alerts0 cur low alerts :
  Forall (fun code => inherited code = false) codes ->
  foldl (track now out ret) (cur0, low0, alerts0) codes = (cur, low, alerts) ->
  forall c,
    cur !! c =
      (if decide (c ∈ codes)
       then from_option Some (cur0 !! c) (combined now out ret c)
       else cur0 !! c) /\
    low !! c =
      (if decide (c ∈ codes)
       then match combined now out ret c with
            | Some r => if lower (points r) (points <$> low0 !! c)
                        then Some r else low0 !! c
            | None => low0 !! c
            end
       else low0 !! c).
Proof.
  revert cur low alerts.
  induction codes as [|code codes IH] using rev_ind; intros cur low alerts Hp H c.
  - by simplify_eq/=.
  - apply Forall_app in Hp as [Hp Hcode]. apply Forall_inv in Hcode.
    rewrite foldl_app in H. simpl in H.
    destruct (foldl _ _ codes) as [[cur1 low1] alerts1].
    destruct (IH _ _ _ Hp eq_refl c) as [IHc IHl].
    destruct (trackCabin_lookup _ _ _ _ _ _ _ _ _ _ Hcode H c) as [Hc Hl].
    rewrite Hc, Hl, IHc, IHl. clear.
    assert (c ∈ codes ++ [code] <-> c ∈ codes \/ c = code) as Hin
      by (rewrite elem_of_app, list_elem_of_singleton; tauto).
    destruct (combined now out ret c) as [r|]; simpl;
      repeat case_decide; try done; try (exfalso; tauto); subst.
    all: split; try done.
    all: destruct (lower (points r) (points <$> low0 !! code)) eqn:E; simpl;
      rewrite ?E; try done.
    all: by rewrite costLt_irrefl.
Qed.

(** After a visit of [code], a second visit owes no line, and the lines of
    the other codes are what they were. *)
Lemma lowestLine_after now out ret cur low alerts code cur' low' alerts'
    (l : list string) :
  inherited code = false ->
  track now out ret (cur, low, alerts) code = (cur', low', alerts') ->
  omap (line now out ret low') l
    = omap (line now out ret low) (filter (fun y => y ≠ code) l).
Proof.
  intros Hp H.
  pose proof (trackCabin_lookup _ _ _ _ _ _ _ _ _ _ Hp H) as Hl.
  induction l as [|y l IH]; [done|].
  rewrite filter_cons. cbn [omap list_omap]. rewrite IH.
  destruct (Hl y) as [_ Hy]. unfold lowestLine at 1.
  destruct (decide (y = code)) as [->|Hne].
  - rewrite decide_False by (intros Hn; by apply Hn).
    destruct (combined now out ret code) as [r|]; [|done]. simpl.
    rewrite Hy. destruct (lower (points r) (points <$> low !! code)) eqn:E.
    + simpl. by rewrite costLt_irrefl.
    + by rewrite E.
  - rewrite decide_True by done. cbn [omap list_omap].
    unfold lowestLine at 2. by rewrite Hy.
Qed.

(** The lines that the whole loop appends: one for each distinct code, in
    the order of first appearance, that improves on the record stored before
    the loop. *)
Lemma trackCabin_fold_alerts now out ret codes cur0 low0 alerts0 cur low alerts :
  Forall (fun code => inherited code = false) codes ->
  foldl (track now out ret) (cur0, low0, alerts0) codes = (cur, low, alerts) ->
  alerts = alerts0 ++ omap (line now out ret low0) (setOf codes).
Proof.
  revert cur0 low0 alerts0.
  induction codes as [|code codes IH]; intros cur0 low0 alerts0 Hp H.
  - simplify_eq/=. by rewrite app_nil_r.
  - apply Forall_cons in Hp as [Hcode Hp]. cbn [foldl] in H.
    destruct (track now out ret (cur0, low0, alerts0) code)
      as [[cur1 low1] alerts1] eqn:Es.
    rewrite (IH _ _ _ Hp H).
    rewrite (lowestLine_after _ _ _ _ _ _ _ _ _ _ (setOf codes) Hcode Es).
    cbn [setOf omap list_omap].
    rewrite trackCabin_plain in Es by done.
    assert (alerts1 = alerts0 ++ from_option (fun y => [y]) []
                                   (line now out ret low0 code)) as ->.
    { unfold lowestLine.
      destruct (combined now out ret code) as [r|]; simpl;
        [destruct (lower _ _)|]; simplify_eq; by rewrite ?app_nil_r. }
    destruct (line now out ret low0 code); simpl;
      by rewrite <- ?app_assoc, ?app_nil_r.
Qed.
End Tracking.

(** ** Known slots *)

Lemma setOf_elem_of (k : string) (l : list string) : k ∈ setOf l <-> k ∈ l.
Proof.
  induction l as [|x l IH]; simpl; [done|].
  rewrite !elem_of_cons, list_elem_of_filter, IH.
  destruct (decide (k = x)); tauto.
Qed.

Lemma detectSlots_elem_of known d flights (k : string) :
  k ∈ (detectSlots known d flights).*1 <->
  (k ∉ known) /\ exists f, f ∈ flights /\ k = slotKey d f.
Proof.
  unfold detectSlots. rewrite list_elem_of_fmap. split.
  - intros ([k' a] & -> & Hin). apply list_elem_of_bind in Hin as (f & Hin & Hf).
    case_bool_decide; [by apply elem_of_nil in Hin|].
    apply list_elem_of_singleton in Hin. simplify_eq/=. eauto.
  - intros (Hk & f & Hf & ->).
    exists (slotKey d f, NewSlot d (codeLabel (cabin f)) (Date f) (MileageCost f)).
    split; [done|]. apply list_elem_of_bind. exists f. split; [|done].
    rewrite bool_decide_eq_false_2 by done. by apply list_elem_of_singleton.
Qed.

(** ** A successful refresh, taken apart *)

Section Refresh.
Context (parseFloatStr toNumberStr : string -> option Q)
        (numberToString : Q -> string)
        (localeCompare : string -> string -> Z)
        (net : string -> Leg -> FetchOutcome).

Abbreviation fetch := (fetchLeg parseFloatStr toNumberStr localeCompare net).
Abbreviation refresh :=
  (refreshMonitor parseFloatStr toNumberStr numberToString localeCompare net).

Lemma refreshMonitor_Some now w m m' alerts :
  refresh now w m = Some (m', alerts) ->
  exists outb ret cur low,
    fetch w (outbound m) (cabins m) (default rewards (availType m)) = Some outb /\
    fetch w (return_ m) (cabins m) (default rewards (availType m)) = Some ret /\
    foldl (trackCabin toNumberStr numberToString now outb ret)
      (∅, default ∅ (lowestCombined m),
       (detectSlots (setOf (default [] (knownSlots m))) Out outb ++
        detectSlots (setOf (default [] (knownSlots m))) Ret ret).*2)
      (cabinCode <$> cabins m) = (cur, low, alerts) /\
    m' = setAwardsTracking m now outb ret cur low
           (setOf (default [] (knownSlots m)) ++
            (detectSlots (setOf (default [] (knownSlots m))) Out outb ++
             detectSlots (setOf (default [] (knownSlots m))) Ret ret).*1).
Proof.
  unfold refreshMonitor. intros H.
  destruct (fetch w (outbound m) _ _) as [outb|] eqn:Eo; [|done].
  destruct (fetch w (return_ m) _ _) as [ret|] eqn:Er; [|done].
  simpl in H.
  destruct (foldl _ _ _) as [[cur low] al] eqn:Ef. simplify_eq.
  by exists outb, ret, cur, low.
Qed.

Lemma refreshMonitor_None now w m :
  fetch w (outbound m) (cabins m) (default rewards (availType m)) = None \/
  fetch w (return_ m) (cabins m) (default rewards (availType m)) = None ->
  refresh now w m = None.
Proof.
  unfold refreshMonitor. intros [H|H]; rewrite H; [done|].
  by destruct (fetch w (outbound m) _ _).
Qed.

Lemma codes_plain (cabins : list string) :
  Forall (fun code => inherited code = false) (cabinCode <$> cabins).
Proof. apply Forall_fmap, Forall_forall. intros c _. apply cabinCode_plain. Qed.


(** C7, the refresh half: the stored slots after a successful refresh are the
    previous ones together with every key of the flights that the two leg
    fetches returned. *)
Lemma refresh_knownSlots now w m m' alerts :
  refresh now w m = Some (m', alerts) ->
  exists outb ret,
    fetch w (outbound m) (cabins m) (default rewards (availType m)) = Some outb /\
    fetch w (return_ m) (cabins m) (default rewards (availType m)) = Some ret /\
    forall k, k ∈ default [] (knownSlots m') <->
      k ∈ default [] (knownSlots m) \/
      (exists f, f ∈ outb /\ k = slotKey Out f) \/
      (exists f, f ∈ ret /\ k = slotKey Ret f).
Proof.
  intros (outb & ret & cur & low & Ho & Hr & _ & ->)%refreshMonitor_Some.
  exists outb, ret. split_and!; [done..|]. intros k. simpl.
  rewrite fmap_app, !elem_of_app, !detectSlots_elem_of, !setOf_elem_of.
  destruct (decide (k ∈ default [] (knownSlots m))); tauto.
Qed.
End Refresh.



(** ** Sorting strings *)

Lemma leb_false_flip (a b : string) : String.leb a b = false -> String.leb b a = true.
Proof. intros H. destruct (String.leb_total a b); congruence. Qed.

Lemma leb_trans (a b c : string) :
  String.leb a b = true -> String.leb b c = true -> String.leb a c = true.
Proof.
  unfold String.leb.
  change String.compare with String_as_OT.compare.
  destruct (String_as_OT.compare_spec a b) as [->|Hab|Hab]; [done| |done].
  destruct (String_as_OT.compare_spec b c) as [->|Hbc|Hbc]; [|  |done]; intros _ _.
  - by rewrite Hab.
  - assert (String_as_OT.lt a c) as Hac by (etrans; eauto).
    by rewrite Hac.
Qed.

Lemma sortStrings_Permutation (l : list string) : sortStrings l ≡ₚ l.
Proof. apply sortBy_Permutation. Qed.

(** Sorting forgets the order of the input and nothing else. *)
Lemma sortStrings_eq_iff (l1 l2 : list string) :
  sortStrings l1 = sortStrings l2 <-> l1 ≡ₚ l2.
Proof.
  split.
  - intros H. by rewrite <- (sortStrings_Permutation l1), H, sortStrings_Permutation.
  - intros H.
    apply (StronglySorted_unique_strong (fun a b => String.leb a b = true)).
    + intros a b _ _ Hab Hba. by apply String.leb_antisym.
    + apply sortBy_StronglySorted; [apply leb_false_flip|apply leb_trans].
    + apply sortBy_StronglySorted; [apply leb_false_flip|apply leb_trans].
    + by rewrite !sortStrings_Permutation.
Qed.

(** ** The edit handler *)

Lemma find_updateFirst {A} (p : A -> bool) (x x' : A) (l : list A) :
  find p l = Some x -> p x' = true -> find p (updateFirst p x' l) = Some x'.
Proof.
  intros H Hp. induction l as [|y l IH]; simpl in *; [done|].
  destruct (p y) eqn:E; simpl; [by rewrite Hp|]. rewrite E. by apply IH.
Qed.

Lemma legNe_false x a b :
  legNe x a b = Some false <-> exists la lb, a = Some la /\ b = Some lb /\ x la = x lb.
Proof.
  unfold legNe. destruct a as [la|], b as [lb|]; simpl;
    try (split; [done|by intros (? & ? & ? & ? & ?)]).
  case_bool_decide.
  - split; [done|]. by intros (? & ? & [= <-] & [= <-] & ?).
  - split; [|done]. intros _. exists la, lb. split_and!; [done..|].
    by destruct (decide (x la = x lb)).
Qed.

Lemma orElse_false a b : orElse a b = Some false <-> a = Some false /\ b = Some false.
Proof. unfold orElse. destruct a as [[]|]; simpl; intuition congruence. Qed.

Lemma Leg_eq (a b : Leg) :
  origin a = origin b -> destination a = destination b ->
  dateFrom a = dateFrom b -> dateTo a = dateTo b -> a = b.
Proof. destruct a, b; simpl; congruence. Qed.

(** Every disjunct before the cabins is false exactly when both legs are
    present on both sides and equal, and the effective mode is the same. *)
Lemma routeOrModeChanged_false body m :
  routeOrModeChanged body m = Some false <->
  (is_Some (outbound m) /\ b_outbound body = outbound m) /\
  (is_Some (return_ m) /\ b_return body = return_ m) /\
  default rewards (b_availType body) = default rewards (availType m).
Proof.
  unfold routeOrModeChanged. rewrite !orElse_false, !legNe_false. split.
  - intros ((bo & mo & Hbo & Hmo & ?) & (? & ? & ? & ? & ?) & (? & ? & ? & ? & ?) &
            (? & ? & ? & ? & ?) & (br & mr & Hbr & Hmr & ?) & (? & ? & ? & ? & ?) &
            (? & ? & ? & ? & ?) & (? & ? & ? & ? & ?) & Hmode).
    simplify_eq. rewrite Hbo, Hmo, Hbr, Hmr.
    assert (bo = mo) as -> by (by apply Leg_eq).
    assert (br = mr) as -> by (by apply Leg_eq).
    split_and!; eauto.
    case_bool_decide as Hd; [done|]. by destruct (decide (default rewards (b_availType body) = default rewards (availType m))).
  - intros (([mo Hmo] & Hbo) & ([mr Hmr] & Hbr) & Hmode).
    rewrite Hbo, Hbr, Hmo, Hmr, Hmode.
    split_and!; try (eexists _, _; split_and!; done).
    by rewrite bool_decide_eq_false_2 by (intros H; by apply H).
Qed.

Lemma coreChanged_false body m cabins' :
  coreChanged body m = Some (false, cabins') <->
  routeOrModeChanged body m = Some false /\
  b_cabins body ≡ₚ cabins m /\ cabins' = sortStrings (b_cabins body).
Proof.
  unfold coreChanged. destruct (routeOrModeChanged body m) as [[]|]; simpl.
  - split; [done|by intros [? _]].
  - rewrite <- sortStrings_eq_iff. split.
    + intros [= Hd <-]. apply bool_decide_eq_false in Hd.
      split_and!; [done| |done].
      by destruct (decide (sortStrings (b_cabins body) = sortStrings (cabins m))).
    + intros (_ & Hs & ->). by rewrite bool_decide_eq_false_2 by (intros H; by apply H).
  - split; [done|by intros [? _]].
Qed.

(** What the handler answers once validation passed, the monitor was found
    and [coreChanged] was evaluated without throwing. *)
Lemma handleEdit_200 getTime i body w resp w' m :
  handleEdit getTime i body w = (resp, w') ->
  status resp = 200%nat ->
  find (hasId i) (readMonitors w) = Some m ->
  exists changed cabins',
    coreChanged body m = Some (changed, cabins') /\
    payload resp = MonitorJson (applyEdit body changed cabins' m) /\
    find (hasId i) (readMonitors w') = Some (applyEdit body changed cabins' m).
Proof.
  unfold handleEdit. intros H Hst Hfind.
  destruct (str_truthy _); [by simplify_eq|].
  rewrite Hfind in H.
  destruct (coreChanged body m) as [[changed cabins']|]; [|by simplify_eq].
  simplify_eq. exists changed, cabins'. split_and!; [done..|]. simpl.
  apply (find_updateFirst _ m); [done|].
  assert (hasId i m = true) as Hid by (by apply find_some in Hfind as [_ ?]).
  unfold hasId in *. by destruct changed.
Qed.

(** A core edit makes [coreChanged] true whenever it evaluates. *)
Lemma coreEdit_changed body m changed cabins' :
  coreChanged body m = Some (changed, cabins') -> coreEdit body m -> changed = true.
Proof.
  intros Hc Hedit. destruct changed; [done|]. exfalso.
  apply coreChanged_false in Hc as (Hr & Hperm & _).
  apply routeOrModeChanged_false in Hr as ((_ & Ho) & (_ & Hr) & Hmode).
  destruct Hedit as [Hd|[Hd|[Hd|Hd]]].
  - destruct Hd as (b & m0 & Hb & Hm & Hd). rewrite Ho, Hm in Hb.
    injection Hb as ->. tauto.
  - destruct Hd as (b & m0 & Hb & Hm & Hd). rewrite Hr, Hm in Hb.
    injection Hb as ->. tauto.
  - done.
  - apply Hd. intros c. by rewrite Hperm.
Qed.

(** C5. An edit that changes a member of either leg, the availability mode or
    the set of cabins clears the ten tracking fields of the stored monitor. *)
Theorem edit_core_change_clears_tracking getTime i body w resp w' m :
  handleEdit getTime i body w = (resp, w') ->
  status resp = 200%nat ->
  find (hasId i) (readMonitors w) = Some m ->
  coreEdit body m ->
  exists m', payload resp = MonitorJson m' /\
             find (hasId i) (readMonitors w') = Some m' /\
             noTracking m'.
Proof.
  intros H Hst Hfind Hedit.
  destruct (handleEdit_200 _ _ _ _ _ _ _ H Hst Hfind)
    as (changed & cabins' & Hc & Hp & Hf).
  rewrite (coreEdit_changed _ _ _ _ Hc Hedit) in *.
  eexists. split_and!; [done..|]. by repeat split.
Qed.

Lemma edit_core_change_clears_tracking_witness :
  status (handleEdit isoTime "m1"
            (editBody ["business"; "premium"] laterOutbound) trackedWorld).1 = 200%nat /\
  find (hasId "m1") (readMonitors trackedWorld) = Some trackedMonitor /\
  coreEdit (editBody ["business"; "premium"] laterOutbound) trackedMonitor /\
  knownSlots trackedMonitor = Some ["2026-06-02|J|out"; "2026-06-20|J|ret"] /\
  exists m', payload (handleEdit isoTime "m1"
                        (editBody ["business"; "premium"] laterOutbound) trackedWorld).1
               = MonitorJson m' /\
             find (hasId "m1")
               (readMonitors (handleEdit isoTime "m1"
                  (editBody ["business"; "premium"] laterOutbound) trackedWorld).2)
               = Some m' /\
             noTracking m'.
Proof.
  assert (coreEdit (editBody ["business"; "premium"] laterOutbound) trackedMonitor)
    as Hedit.
  { left. exists laterOutbound, demoOutbound. split_and!; [reflexivity..|].
    right. right. left. discriminate. }
  split_and!; [vm_compute; reflexivity..|exact Hedit|reflexivity|].
  apply (edit_core_change_clears_tracking isoTime "m1"
           (editBody ["business"; "premium"] laterOutbound) trackedWorld _ _
           trackedMonitor);
    [apply surjective_pairing|vm_compute; reflexivity..|exact Hedit].
Defined.

(** C9, as the code has it: an edit that keeps both legs and the effective
    mode and lists the same cabins in any order (the same cabins, each as many
    times) leaves the ten tracking fields of the stored monitor as they
    were. *)
Theorem edit_same_core_keeps_tracking getTime i body w resp w' m :
  handleEdit getTime i body w = (resp, w') ->
  status resp = 200%nat ->
  find (hasId i) (readMonitors w) = Some m ->
  b_outbound body = outbound m ->
  b_return body = return_ m ->
  default rewards (b_availType body) = default rewards (availType m) ->
  b_cabins body ≡ₚ cabins m ->
  exists m', payload resp = MonitorJson m' /\
             find (hasId i) (readMonitors w') = Some m' /\
             tracking m' = tracking m.
Proof.
  intros H Hst Hfind Ho Hr Hmode Hperm.
  destruct (handleEdit_200 _ _ _ _ _ _ _ H Hst Hfind)
    as (changed & cabins' & Hc & Hp & Hf).
  assert (changed = false) as ->.
  { unfold coreChanged in Hc.
    destruct (routeOrModeChanged body m) as [earlier|] eqn:Er; [|done].
    assert (earlier = false) as ->.
    { destruct earlier; [|done]. exfalso.
      assert (is_Some (outbound m) /\ is_Some (return_ m)) as [Hso Hsr].
      { unfold routeOrModeChanged in Er. rewrite Ho, Hr in Er.
        destruct (outbound m) as [lo|]; [|done].
        split; [done|]. simpl in Er. unfold legNe in Er. simpl in Er.
        rewrite !bool_decide_eq_false_2 in Er by (intros ?; done). simpl in Er.
        by destruct (return_ m). }
      assert (routeOrModeChanged body m = Some false) as Er'
        by (by apply routeOrModeChanged_false).
      congruence. }
    simpl in Hc. simplify_eq.
    apply bool_decide_eq_false_2. intros Hne. by apply Hne, sortStrings_eq_iff. }
  eexists. split_and!; done.
Qed.

Lemma edit_same_core_keeps_tracking_witness :
  status (handleEdit isoTime "m1"
            (editBody ["premium"; "business"] demoOutbound) trackedWorld).1 = 200%nat /\
  find (hasId "m1") (readMonitors trackedWorld) = Some trackedMonitor /\
  b_cabins (editBody ["premium"; "business"] demoOutbound) ≡ₚ cabins trackedMonitor /\
  exists m', payload (handleEdit isoTime "m1"
                        (editBody ["premium"; "business"] demoOutbound) trackedWorld).1
               = MonitorJson m' /\
             find (hasId "m1")
               (readMonitors (handleEdit isoTime "m1"
                  (editBody ["premium"; "business"] demoOutbound) trackedWorld).2)
               = Some m' /\
             tracking m' = tracking trackedMonitor.
Proof.
  split_and!; [vm_compute; reflexivity..|apply Permutation_swap|].
  apply (edit_same_core_keeps_tracking isoTime "m1"
           (editBody ["premium"; "business"] demoOutbound) trackedWorld _ _
           trackedMonitor);
    [apply surjective_pairing|vm_compute; reflexivity..|reflexivity|reflexivity
    |reflexivity|apply Permutation_swap].
Defined.

(** C9 as stated fails: listing a cabin twice keeps the set of cabins, both
    legs and the mode, and still clears the tracking fields. *)
Lemma edit_duplicate_cabin_clears_tracking :
  b_outbound (editBody ["business"; "premium"; "business"] demoOutbound)
    = outbound trackedMonitor /\
  b_return (editBody ["business"; "premium"; "business"] demoOutbound)
    = return_ trackedMonitor /\
  b_availType (editBody ["business"; "premium"; "business"] demoOutbound)
    = availType trackedMonitor /\
  (forall c, c ∈ b_cabins (editBody ["business"; "premium"; "business"] demoOutbound)
             <-> c ∈ cabins trackedMonitor) /\
  knownSlots trackedMonitor = Some ["2026-06-02|J|out"; "2026-06-20|J|ret"] /\
  lastChecked trackedMonitor = Some demoNow /\
  exists m',
    (handleEdit isoTime "m1"
       (editBody ["business"; "premium"; "business"] demoOutbound) trackedWorld).1
      = {| status := 200; payload := MonitorJson m' |} /\
    find (hasId "m1")
      (readMonitors (handleEdit isoTime "m1"
         (editBody ["business"; "premium"; "business"] demoOutbound) trackedWorld).2)
      = Some m' /\
    knownSlots m' = None /\ lastChecked m' = None.
Proof.
  split_and!; try reflexivity.
  - intros c. simpl. rewrite !elem_of_cons. tauto.
  - eexists. split_and!; vm_compute; reflexivity.
Qed.

(** ** Objects as lists of entries *)

Lemma objGet_objSet {V} (o : list (string * V)) k v k' :
  objGet (objSet o k v) k' = if decide (k = k') then Some v else objGet o k'.
Proof.
  unfold objGet. induction o as [|[k0 v0] o IH]; simpl.
  - destruct (String.eqb_spec k k'); by case_decide.
  - destruct (String.eqb_spec k0 k) as [->|Hne]; simpl.
    + destruct (String.eqb_spec k k'); by case_decide.
    + destruct (String.eqb_spec k0 k'); [|done].
      case_decide; [congruence|done].
Qed.

Lemma objSet_keys {V} (o : list (string * V)) k v :
  (objSet o k v).*1 = if decide (k ∈ o.*1) then o.*1 else o.*1 ++ [k].
Proof.
  induction o as [|[k0 v0] o IH]; [done|]. cbn [objSet fmap list_fmap fst].
  destruct (String.eqb_spec k0 k) as [->|Hne]; cbn [fmap list_fmap fst].
  - by rewrite decide_True by (by left).
  - rewrite IH. destruct (decide (k ∈ o.*1)) as [Hin|Hin].
    + by rewrite decide_True by (by right).
    + rewrite decide_False; [done|].
      intros [?|?]%elem_of_cons; [congruence|done].
Qed.

Lemma objSet_NoDup {V} (o : list (string * V)) k v :
  NoDup o.*1 -> NoDup (objSet o k v).*1.
Proof.
  intros H. rewrite objSet_keys. case_decide as Hin; [done|].
  apply NoDup_app. split_and!; [done| |apply NoDup_singleton].
  intros x Hx ->%list_elem_of_singleton. done.
Qed.

Lemma normalizePrices_snoc raw k v :
  normalizePrices (raw ++ [(k, v)]) = objSet (normalizePrices raw) (cashCabinCode k) v.
Proof. unfold normalizePrices. by rewrite foldl_app. Qed.

Lemma objSet_elem_of {V} (o : list (string * V)) k v e :
  e ∈ objSet o k v -> e = (k, v) \/ e ∈ o.
Proof.
  induction o as [|[k0 v0] o IH]; simpl.
  - intros ->%list_elem_of_singleton. by left.
  - destruct (String.eqb k0 k).
    + intros [->|?]%elem_of_cons; [by left|right; by right].
    + intros [->|[->|?]%IH]%elem_of_cons; [right; by left|by left|right; by right].
Qed.

(** The normalized prices have no code twice, and no inherited name for a
    code. *)
Lemma normalizePrices_keys raw :
  NoDup (normalizePrices raw).*1 /\
  Forall (fun e => inherited e.1 = false) (normalizePrices raw).
Proof.
  induction raw as [|[k v] raw [IH1 IH2]] using rev_ind.
  - split; [apply NoDup_nil_2|constructor].
  - rewrite normalizePrices_snoc. split; [by apply objSet_NoDup|].
    apply Forall_forall. intros e [->|He]%objSet_elem_of.
    + apply cashCabinCode_plain.
    + by eapply Forall_forall in IH2.
Qed.

Lemma omap_ext_in {A B} (f g : A -> option B) (l : list A) :
  (forall x, x ∈ l -> f x = g x) -> omap f l = omap g l.
Proof.
  induction l as [|x l IH]; intros H; [done|]. cbn [omap list_omap].
  rewrite (H x) by (by left). rewrite IH; [done|]. intros y Hy. apply H. by right.
Qed.

(** ** Lowest records *)

Lemma lowerThanStored_dec (v : Q) (was : option Q) :
  (lowerThanStored v was -> improves v was = true) /\
  (~ lowerThanStored v was -> improves v was = false).
Proof.
  unfold lowerThanStored. split; intros H.
  - by apply improves_iff.
  - destruct (improves v was) eqn:E; [|done]. by apply improves_iff in E.
Qed.

(** An equal value is not lower than the stored one. *)
Lemma equal_not_lower (v p : Q) : (v == p)%Q -> ~ lowerThanStored v (Some p).
Proof. intros Heq [?|(p' & [= <-] & Hlt)]; [done|]. lra. Qed.

Lemma equal_points_not_lower tn (v p : Cost) :
  v = p \/ (exists x y, v = CNum x /\ p = CNum y /\ (x == y)%Q) ->
  ~ lowerPoints tn v (Some p).
Proof.
  intros Heq [?|(p' & [= <-] & Hlt)]; [done|].
  destruct Heq as [->|(x & y & -> & -> & Hxy)].
  - by apply below_irrefl in Hlt.
  - apply below_numbers in Hlt. lra.
Qed.

(** One iteration of the loop over the prices, under a code that is not an
    inherited name. *)
Lemma trackCash_plain cur low alerts code price :
  inherited code = false ->
  trackCash (cur, low, alerts) (code, price) =
    (<[code := price]> cur,
     if improves (aud price) (aud <$> low !! code) then <[code := price]> low else low,
     alerts ++ from_option (fun y => [y]) [] (cashLine low (code, price))).
Proof.
  intros Hp. unfold trackCash, cashLine.
  rewrite readsInherited_plain, assign_plain by done. simpl.
  destruct (improves _ _); simpl; by rewrite ?app_nil_r.
Qed.

(** The whole loop over prices that have no code twice. *)
Lemma trackCash_fold prices cur0 low0 alerts0 cur low alerts :
  NoDup prices.*1 ->
  Forall (fun e => inherited e.1 = false) prices ->
  foldl trackCash (cur0, low0, alerts0) prices = (cur, low, alerts) ->
  (forall code price, (code, price) ∈ prices ->
     cur !! code = Some price /\
     low !! code = if improves (aud price) (aud <$> low0 !! code)
                   then Some price else low0 !! code) /\
  (forall code, code ∉ prices.*1 ->
     cur !! code = cur0 !! code /\ low !! code = low0 !! code) /\
  alerts = alerts0 ++ omap (cashLine low0) prices.
Proof.
  revert cur0 low0 alerts0.
  induction prices as [|[c0 p0] prices IH]; intros cur0 low0 alerts0 Hnd Hp H.
  - simplify_eq/=. split_and!; [by intros ? ? ?%elem_of_nil|done|by rewrite app_nil_r].
  - rewrite fmap_cons in Hnd. apply NoDup_cons in Hnd as [Hc0 Hnd].
    apply Forall_cons in Hp as [Hp0 Hp]. simpl in Hp0.
    cbn [foldl] in H. rewrite trackCash_plain in H by done.
    set (low1 := if improves (aud p0) (aud <$> low0 !! c0)
                 then <[c0 := p0]> low0 else low0) in *.
    destruct (IH _ _ _ Hnd Hp H) as (A & B & C).
    assert (forall c, c ≠ c0 -> low1 !! c = low0 !! c) as Hother.
    { intros c Hne. unfold low1. destruct (improves _ _); [|done].
      by rewrite lookup_insert_ne. }
    assert (low1 !! c0 = if improves (aud p0) (aud <$> low0 !! c0)
                         then Some p0 else low0 !! c0) as Hsame.
    { unfold low1. destruct (improves _ _); [|done]. by rewrite lookup_insert_eq. }
    split_and!.
    + intros code price [[= -> ->]|Hin]%elem_of_cons.
      * destruct (B c0 Hc0) as [-> ->]. by rewrite lookup_insert_eq.
      * assert (code ≠ c0) as Hne.
        { intros ->. apply Hc0, list_elem_of_fmap. by exists (c0, price). }
        destruct (A code price Hin) as [-> ->]. by rewrite Hother.
    + intros code Hno. rewrite fmap_cons, not_elem_of_cons in Hno.
      destruct Hno as [Hne Hno]. simpl in Hne.
      destruct (B code Hno) as [-> ->]. by rewrite lookup_insert_ne, Hother.
    + rewrite C. cbn [omap list_omap]. rewrite <- app_assoc. f_equal.
      assert (omap (cashLine low1) prices = omap (cashLine low0) prices) as ->.
      { apply omap_ext_in. intros [c p] Hin. unfold cashLine. simpl.
        rewrite Hother; [done|].
        intros ->. apply Hc0, list_elem_of_fmap. by exists (c0, p). }
      by destruct (cashLine low0 (c0, p0)).
Qed.

Lemma applyCashResult_fold now result m :
  exists cur low,
    foldl trackCash (default ∅ (currentCash m), default ∅ (lowestCash m), [])
      (normalizePrices (default [] (prices result)))
      = (cur, low, (applyCashResult now result m).2) /\
    currentCash (applyCashResult now result m).1 = Some cur /\
    lowestCash (applyCashResult now result m).1 = Some low.
Proof.
  unfold applyCashResult.
  destruct (foldl trackCash _ _) as [[cur low] al]. by exists cur, low.
Qed.

(** What a cash result leaves under each code, and the lines it owes. *)
Lemma applyCashResult_lowest now result m :
  (forall code price,
     (code, price) ∈ normalizePrices (default [] (prices result)) ->
     default ∅ (currentCash (applyCashResult now result m).1) !! code = Some price /\
     default ∅ (lowestCash (applyCashResult now result m).1) !! code
       = if improves (aud price) (aud <$> default ∅ (lowestCash m) !! code)
         then Some price else default ∅ (lowestCash m) !! code) /\
  (forall code, code ∉ (normalizePrices (default [] (prices result))).*1 ->
     default ∅ (lowestCash (applyCashResult now result m).1) !! code
       = default ∅ (lowestCash m) !! code) /\
  (applyCashResult now result m).2
    = omap (cashLine (default ∅ (lowestCash m)))
        (normalizePrices (default [] (prices result))).
Proof.
  destruct (applyCashResult_fold now result m) as (cur & low & Hf & -> & ->).
  destruct (normalizePrices_keys (default [] (prices result))) as [Hnd Hp].
  destruct (trackCash_fold _ _ _ _ _ _ _ Hnd Hp Hf) as (A & B & C).
  split_and!; [done| |done]. intros code Hno. by destruct (B code Hno).
Qed.

Section LowestRecords.
Context (parseFloatStr toNumberStr : string -> option Q)
        (numberToString : Q -> string)
        (localeCompare : string -> string -> Z)
        (net : string -> Leg -> FetchOutcome).

Abbreviation fetch := (fetchLeg parseFloatStr toNumberStr localeCompare net).
Abbreviation refresh :=
  (refreshMonitor parseFloatStr toNumberStr numberToString localeCompare net).
Abbreviation combined := (combinedRecord toNumberStr numberToString).
Abbreviation line := (lowestLine toNumberStr numberToString).

(** What a successful refresh leaves as the lowest record of each code, and
    the lines it appends. *)
Lemma refresh_lowest now w m m' alerts :
  refresh now w m = Some (m', alerts) ->
  exists outb ret,
    fetch w (outbound m) (cabins m) (default rewards (availType m)) = Some outb /\
    fetch w (return_ m) (cabins m) (default rewards (availType m)) = Some ret /\
    (forall code,
       default ∅ (lowestCombined m') !! code =
         if decide (code ∈ cabinCode <$> cabins m)
         then match combined now outb ret code with
              | Some r =>
                  if improvesPoints toNumberStr (points r)
                       (points <$> default ∅ (lowestCombined m) !! code)
                  then Some r else default ∅ (lowestCombined m) !! code
              | None => default ∅ (lowestCombined m) !! code
              end
         else default ∅ (lowestCombined m) !! code) /\
    alerts =
      (detectSlots (setOf (default [] (knownSlots m))) Out outb ++
       detectSlots (setOf (default [] (knownSlots m))) Ret ret).*2 ++
      omap (line now outb ret (default ∅ (lowestCombined m)))
        (setOf (cabinCode <$> cabins m)).
Proof.
  intros (outb & ret & cur & low & Ho & Hr & Hf & ->)%refreshMonitor_Some.
  exists outb, ret. split_and!; [done..| |].
  - intros code.
    destruct (trackCabin_fold _ _ _ _ _ _ _ _ _ _ _ _ (codes_plain _) Hf code)
      as [_ Hl].
    simpl. exact Hl.
  - by apply (trackCabin_fold_alerts _ _ _ _ _ _ _ _ _ _ _ _ (codes_plain _) Hf).
Qed.

Lemma lowestLine_cases now outb ret low code rec :
  combined now outb ret code = Some rec ->
  (lowerPoints toNumberStr (points rec) (points <$> low !! code) ->
     line now outb ret low code
       = Some (NewLowest (codeLabel code) (points rec) (points <$> low !! code)
                 (lr_outboundDate rec) (lr_returnDate rec))) /\
  (~ lowerPoints toNumberStr (points rec) (points <$> low !! code) ->
     line now outb ret low code = None).
Proof.
  intros Hrec. unfold lowestLine. rewrite Hrec. simpl.
  split; intros H; apply lowerPoints_dec in H; by rewrite H.
Qed.
End LowestRecords.

Lemma cashLine_cases low code price :
  (lowerThanStored (aud price) (aud <$> low !! code) ->
     cashLine low (code, price)
       = Some (NewLowestCash (cashCabinLabel code) (aud price) (aud <$> low !! code)
                 (cr_outboundDate price) (cr_returnDate price))) /\
  (~ lowerThanStored (aud price) (aud <$> low !! code) -> cashLine low (code, price) = None).
Proof.
  unfold cashLine. simpl. split; intros H; apply lowerThanStored_dec in H; by rewrite H.
Qed.



(** ** The full cycle *)

Section Cycle.
Context (parseFloatStr toNumberStr : string -> option Q)
        (numberToString : Q -> string)
        (localeCompare : string -> string -> Z)
        (net : string -> Leg -> FetchOutcome).

Abbreviation fetch := (fetchLeg parseFloatStr toNumberStr localeCompare net).
Abbreviation refresh := (refreshMonitor parseFloatStr toNumberStr numberToString localeCompare net).
Abbreviation step := (refreshStep parseFloatStr toNumberStr numberToString localeCompare net).
Abbreviation loop := (refreshLoop parseFloatStr toNumberStr numberToString localeCompare net).

Lemma fetchLeg_fails w key leg cabins availType :
  keyFile w = Some key -> fetchFails net key leg ->
  fetch w (Some leg) cabins availType = None.
Proof.
  unfold fetchLeg, readKey. intros -> [H|(status & data & H & Hok)]; simpl; rewrite H;
    [done|by rewrite Hok].
Qed.

Lemma appendAlerts_keyFile now m alerts w : keyFile (appendAlerts now m alerts w) = keyFile w.
Proof. by destruct alerts. Qed.

Lemma refreshStep_keyFile now m w : keyFile (step now m w).2 = keyFile w.
Proof.
  unfold refreshStep. case_bool_decide.
  - by destruct (default false (cashPending m)).
  - destruct (refresh now w m) as [[m' alerts]|]; simpl; [|done].
    apply appendAlerts_keyFile.
Qed.

Lemma refreshLoop_keyFile now monitors w : keyFile (loop now monitors w).2 = keyFile w.
Proof.
  revert w. induction monitors as [|m rest IH]; intros w; simpl; [done|].
  pose proof (refreshStep_keyFile now m w) as Hs.
  destruct (step now m w) as [[m' c] w1]. specialize (IH w1).
  destruct (loop now rest w1) as [[rest' c'] w2]. simpl in *. congruence.
Qed.

(** The loop over [before ++ after] is the loop over [before] followed by the
    loop over [after] in the world the first one leaves. *)
Lemma refreshLoop_app now before after w :
  loop now (before ++ after) w =
  (let '(before', c1, w1) := loop now before w in
   let '(after', c2, w2) := loop now after w1 in
   (before' ++ after', c1 || c2, w2)).
Proof.
  revert w. induction before as [|m before IH]; intros w; simpl.
  - by destruct (loop now after w) as [[after' c2] w2].
  - destruct (step now m w) as [[m' c] w1]. rewrite IH.
    destruct (loop now before w1) as [[before' c1] w2].
    destruct (loop now after w2) as [[after' c2] w3].
    by rewrite orb_assoc.
Qed.

(** C8. When a leg fetch of an awards monitor fails, its refresh is rejected
    before anything is assigned; the cycle keeps the monitor as it was, sets
    no [changed], appends no alert, logs the failure and goes on with the
    remaining monitors, wherever the monitor stands in the list. *)
Theorem failed_fetch_abandons_refresh now w m key lo lr :
  source m ≠ Some cash ->
  keyFile w = Some key ->
  outbound m = Some lo ->
  return_ m = Some lr ->
  fetchFails net key lo \/ fetchFails net key lr ->
  refresh now w m = None /\
  step now m w = (m, false, consoleError (RefreshFailed (label m)) w) /\
  alertsFile (step now m w).2 = alertsFile w /\
  monitorsFile (step now m w).2 = monitorsFile w /\
  forall before after,
    loop now (before ++ m :: after) w =
    (let '(before', c1, w1) := loop now before w in
     let '(after', c2, w2) :=
       loop now after (consoleError (RefreshFailed (label m)) w1) in
     (before' ++ m :: after', c1 || c2, w2)).
Proof.
  intros Hsrc Hkey Ho Hr Hfail.
  assert (forall w1, keyFile w1 = Some key -> refresh now w1 m = None) as Hnone.
  { intros w1 Hk. apply refreshMonitor_None. rewrite Ho, Hr.
    destruct Hfail; [left|right]; by apply fetchLeg_fails with key. }
  assert (forall w1, keyFile w1 = Some key ->
            step now m w1 = (m, false, consoleError (RefreshFailed (label m)) w1))
    as Hstep.
  { intros w1 Hk. unfold refreshStep.
    rewrite bool_decide_eq_false_2 by done. by rewrite Hnone. }
  split_and!; [by apply Hnone|by apply Hstep|by rewrite Hstep..|].
  intros before after. rewrite refreshLoop_app.
  pose proof (refreshLoop_keyFile now before w) as Hk.
  destruct (loop now before w) as [[before' c1] w1]. simpl in Hk.
  simpl. rewrite Hstep by congruence.
  by destruct (loop now after _) as [[after' c2] w2].
Qed.
End Cycle.

Lemma failed_fetch_abandons_refresh_witness :
  source demoMonitor ≠ Some cash /\
  keyFile demoWorld = Some "key" /\
  fetchFails downNet "key" demoOutbound /\
  refreshMonitor decimalNumber decimalNumber numeral codeUnitCompare downNet
    demoNow demoWorld demoMonitor = None /\
  refreshStep decimalNumber decimalNumber numeral codeUnitCompare downNet
    demoNow demoMonitor demoWorld
    = (demoMonitor, false, consoleError (RefreshFailed "Boston") demoWorld) /\
  refreshAll decimalNumber decimalNumber numeral codeUnitCompare downNet demoNow demoWorld
    = consoleError (RefreshFailed "Boston") demoWorld.
Proof.
  assert (fetchFails downNet "key" demoOutbound) as Hfail
    by (right; by exists 503%nat, None).
  destruct (failed_fetch_abandons_refresh decimalNumber decimalNumber numeral codeUnitCompare
              downNet demoNow demoWorld demoMonitor "key" demoOutbound demoReturn)
    as (H1 & H2 & _ & _ & H3); [done|reflexivity..|by left|].
  split_and!; [done|reflexivity|exact Hfail|exact H1|exact H2|].
  unfold refreshAll. change (readMonitors demoWorld) with ([] ++ demoMonitor :: []).
  rewrite H3. reflexivity.
Defined.

(** ** Date-range validation *)

Lemma str_truthy_Some (s : option string) :
  str_truthy s = true -> exists v, s = Some v /\ v ≠ "".
Proof.
  destruct s as [v|]; simpl; [|done]. intros H. exists v. split; [done|].
  intros ->. done.
Qed.

Lemma validate_omitsBound getTime leg label :
  omitsBound leg -> validateLegDateRange getTime leg label = None.
Proof.
  unfold validateLegDateRange.
  intros [->|(l & -> & [H|H])]; simpl; rewrite ?H; simpl; [done..|].
  by rewrite orb_true_r.
Qed.

Lemma validate_Some getTime leg label e :
  validateLegDateRange getTime leg label = Some e ->
  exists l from to,
    leg = Some l /\ dateFrom l = Some from /\ dateTo l = Some to /\
    from ≠ "" /\ to ≠ "".
Proof.
  unfold validateLegDateRange. intros H.
  destruct (str_truthy (leg ≫= dateFrom)) eqn:Ef; [|done].
  destruct (str_truthy (leg ≫= dateTo)) eqn:Et; [|done].
  apply str_truthy_Some in Ef as (from & Ef & ?), Et as (to & Et & ?).
  destruct leg as [l|]; [|done]. by exists l, from, to.
Qed.

Lemma rangeErr_None getTime body :
  validateLegDateRange getTime (b_outbound body) "Outbound" = None ->
  validateLegDateRange getTime (b_return body) "Return" = None ->
  rangeErr getTime body = None.
Proof. unfold rangeErr. by intros -> ->. Qed.

(** C10. Validation reports an error only for a leg with both date bounds; a
    missing leg or a leg without a bound validates, and a request whose legs
    validate is accepted: created, or stored by the edit of a known monitor. *)
Theorem date_range_checked_only_with_both_bounds getTime :
  (forall leg label e,
     validateLegDateRange getTime leg label = Some e ->
     exists l from to,
       leg = Some l /\ dateFrom l = Some from /\ dateTo l = Some to /\
       from ≠ "" /\ to ≠ "") /\
  (forall leg label, omitsBound leg -> validateLegDateRange getTime leg label = None) /\
  (forall now uuid body w,
     omitsBound (b_outbound body) \/
       validateLegDateRange getTime (b_outbound body) "Outbound" = None ->
     omitsBound (b_return body) \/
       validateLegDateRange getTime (b_return body) "Return" = None ->
     exists m,
       handleCreate getTime now uuid body w =
         ({| status := 201; payload := MonitorJson m |},
          writeMonitors (readMonitors w ++ [m]) w) /\
       outbound m = b_outbound body /\ return_ m = b_return body) /\
  (forall i body w m lo lr,
     find (hasId i) (readMonitors w) = Some m ->
     outbound m = Some lo -> return_ m = Some lr ->
     is_Some (b_outbound body) -> is_Some (b_return body) ->
     omitsBound (b_outbound body) \/
       validateLegDateRange getTime (b_outbound body) "Outbound" = None ->
     omitsBound (b_return body) \/
       validateLegDateRange getTime (b_return body) "Return" = None ->
     exists m',
       handleEdit getTime i body w =
         ({| status := 200; payload := MonitorJson m' |},
          writeMonitors (updateFirst (hasId i) m' (readMonitors w)) w) /\
       outbound m' = b_outbound body /\ return_ m' = b_return body).
Proof.
  assert (forall body,
    omitsBound (b_outbound body) \/
      validateLegDateRange getTime (b_outbound body) "Outbound" = None ->
    omitsBound (b_return body) \/
      validateLegDateRange getTime (b_return body) "Return" = None ->
    rangeErr getTime body = None) as Hok.
  { intros body Ho Hr. apply rangeErr_None.
    - destruct Ho; [by apply validate_omitsBound|done].
    - destruct Hr; [by apply validate_omitsBound|done]. }
  split_and!.
  - apply validate_Some.
  - intros leg label. apply validate_omitsBound.
  - intros now uuid body w Ho Hr. unfold handleCreate.
    rewrite (Hok body Ho Hr). simpl. by eexists.
  - intros i body w m lo lr Hfind Hmo Hmr [bo Hbo] [br Hbr] Ho Hr.
    unfold handleEdit. rewrite (Hok body Ho Hr), Hfind. simpl.
    assert (is_Some (coreChanged body m)) as [[changed cabins'] Hc].
    { unfold coreChanged, routeOrModeChanged, legNe.
      rewrite Hbo, Hbr, Hmo, Hmr. simpl.
      repeat (destruct (bool_decide _); simpl; try by eexists). }
    rewrite Hc. eexists. split; [done|]. by destruct changed.
Qed.

(** ** Cash requests *)

Section CashRequests.
Context (parseFloatStr toNumberStr : string -> option Q)
        (numberToString : Q -> string)
        (localeCompare : string -> string -> Z)
        (net : string -> Leg -> FetchOutcome).

(** In the full cycle a pending cash monitor is skipped: nothing is written. *)
Lemma refreshStep_pending_cash now m w :
  source m = Some cash -> cashPending m = Some true ->
  refreshStep parseFloatStr toNumberStr numberToString localeCompare net now m w = (m, false, w).
Proof.
  intros Hs Hp. unfold refreshStep.
  by rewrite bool_decide_eq_true_2, Hp by done.
Qed.

(** On demand the request is written whatever [cashPending] holds. *)
Lemma handleRefresh_cash now i w m :
  find (hasId i) (readMonitors w) = Some m -> source m = Some cash ->
  handleRefresh parseFloatStr toNumberStr numberToString localeCompare net now i w =
    ({| status := 200; payload := MonitorJson (setCashRequested now m) |},
     writeMonitors (updateFirst (hasId i) (setCashRequested now m) (readMonitors w))
       (writeCashRequest (setCashRequested now m) w)).
Proof.
  intros Hf Hs. unfold handleRefresh.
  by rewrite Hf, bool_decide_eq_true_2 by done.
Qed.

(** C1 at its failing input: the cash monitor [c1] is pending with a request
    of 2026-05-01. The full cycle leaves every document as it is; the
    on-demand refresh rewrites the request and [cashRequestedAt]. *)
Theorem on_demand_refresh_requeues_pending_cash :
  cashPending pendingCashMonitor = Some true /\
  refreshAll parseFloatStr toNumberStr numberToString localeCompare net demoNow (pendingWorld None)
    = pendingWorld None /\
  handleRefresh parseFloatStr toNumberStr numberToString localeCompare net demoNow "c1"
    (pendingWorld None)
    = ({| status := 200;
          payload := MonitorJson (setCashRequested demoNow pendingCashMonitor) |},
       {| monitorsFile := Some [setCashRequested demoNow pendingCashMonitor];
          alertsFile := None;
          cashRequestsFile := Some [pendingRequest demoNow];
          cashResultsFile := None; keyFile := Some "key"; console := [] |}) /\
  cashRequestedAt pendingCashMonitor = Some "2026-05-01T00:00:00.000Z" /\
  cashRequestedAt (setCashRequested demoNow pendingCashMonitor)
    = Some "2026-05-02T00:00:00.000Z".
Proof.
  split_and!; reflexivity.
Qed.
End CashRequests.

(** ** Cash results *)

Lemma matches_same_keys d d' r :
  monitorKey <$> d = monitorKey <$> d' ->
  matchesCashMonitor d r -> matchesCashMonitor d' r.
Proof.
  unfold matchesCashMonitor. revert d'.
  induction d as [|m d IH]; intros [|m' d'] Hk; try (by inversion Hk).
  rewrite !fmap_cons in Hk. unfold monitorKey at 1 3 in Hk.
  injection Hk as Hid Hsrc Hrest. simpl. unfold hasId at 1 3.
  destruct (String.eqb (id m) (rs_monitorId r)) eqn:E; rewrite Hid in E; rewrite E.
  - intros (? & [= <-] & Hs). exists m'. split; [done|congruence].
  - by apply IH.
Qed.

Lemma updateFirst_keys i m m' (d : list Monitor) :
  find (hasId i) d = Some m -> monitorKey m' = monitorKey m ->
  monitorKey <$> updateFirst (hasId i) m' d = monitorKey <$> d.
Proof.
  intros Hf Hk. induction d as [|x d IH]; simpl in *; [done|].
  destruct (hasId i x).
  - injection Hf as ->. rewrite !fmap_cons. by rewrite Hk.
  - rewrite !fmap_cons. by rewrite IH.
Qed.

Lemma applyCashResult_key now r m : monitorKey (applyCashResult now r m).1 = monitorKey m.
Proof.
  unfold applyCashResult. by destruct (foldl trackCash _ _) as [[cur low] al].
Qed.

Lemma cashResultStep_spec now d ch w r d' ch' w' :
  cashResultStep now (d, ch, w) r = (d', ch', w') ->
  monitorKey <$> d' = monitorKey <$> d /\
  (ch = true -> ch' = true) /\
  (matchesCashMonitor d r -> ch' = true) /\
  (~ matchesCashMonitor d r -> (d', ch', w') = (d, ch, w)).
Proof.
  unfold cashResultStep, matchesCashMonitor. intros H.
  destruct (find (hasId (rs_monitorId r)) d) as [m|] eqn:Ef.
  - case_bool_decide as Hs.
    + pose proof (applyCashResult_key now r m) as Hk.
      destruct (applyCashResult now r m) as [m' alerts]. simplify_eq/=.
      split_and!;
        [eapply updateFirst_keys; [done|unfold monitorKey; congruence]|done..|].
      intros Hno. exfalso. apply Hno. eauto.
    + simplify_eq. split_and!; [done..| |done].
      intros (? & [= <-] & ?). done.
  - simplify_eq. split_and!; [done..| |done]. by intros (? & ? & _).
Qed.

Lemma cashResults_fold now results d ch w d' ch' w' :
  foldl (cashResultStep now) (d, ch, w) results = (d', ch', w') ->
  monitorKey <$> d' = monitorKey <$> d /\
  (ch = true -> ch' = true) /\
  ((exists r, r ∈ results /\ matchesCashMonitor d r) -> ch' = true) /\
  (~ (exists r, r ∈ results /\ matchesCashMonitor d r) -> (d', ch', w') = (d, ch, w)).
Proof.
  revert d ch w. induction results as [|r results IH]; intros d ch w H.
  - simplify_eq/=. split_and!; [done..| |done].
    intros (r & Hr & _). by apply elem_of_nil in Hr.
  - cbn [foldl] in H.
    destruct (cashResultStep now (d, ch, w) r) as [[d1 ch1] w1] eqn:Es.
    apply cashResultStep_spec in Es as (Hk1 & Hc1 & Hm1 & Hn1).
    apply IH in H as (Hk & Hc & Hm & Hn).
    split_and!.
    + congruence.
    + auto.
    + intros (r' & [->|Hin]%elem_of_cons & Hr'); [auto|].
      apply Hm. exists r'. split; [done|]. by apply (matches_same_keys d).
    + intros Hno.
      assert (~ matchesCashMonitor d r) as Hnr
        by (intros ?; apply Hno; exists r; split; [left|done]).
      specialize (Hn1 Hnr). simplify_eq. apply Hn.
      intros (r' & Hin & Hr'). apply Hno. exists r'. split; [by right|done].
Qed.

(** C2, as the code has it: on a poll of a non-empty result array the
    document is reset to the empty array when some entry names a cash monitor
    of the store, and otherwise the poll changes nothing at all. *)
Theorem cash_results_reset_when_matched now w results :
  cashResultsFile w = Some results ->
  results ≠ [] ->
  ((exists r, r ∈ results /\ matchesCashMonitor (readMonitors w) r) ->
     cashResultsFile (processCashResults now w) = Some []) /\
  (~ (exists r, r ∈ results /\ matchesCashMonitor (readMonitors w) r) ->
     processCashResults now w = w).
Proof.
  intros Hfile Hne. unfold processCashResults. rewrite Hfile.
  destruct results as [|r0 results0] eqn:Er; [done|]. rewrite <- Er in *.
  destruct (foldl _ _ results) as [[d' ch'] w'] eqn:Ef.
  apply cashResults_fold in Ef as (_ & _ & Hm & Hn).
  split; intros H.
  - by rewrite (Hm H).
  - specialize (Hn H). by simplify_eq.
Qed.

Lemma cash_results_reset_when_matched_witness :
  cashResultsFile (pendingWorld (Some [cashResultFor "c1"])) = Some [cashResultFor "c1"] /\
  matchesCashMonitor (readMonitors (pendingWorld (Some [cashResultFor "c1"])))
    (cashResultFor "c1") /\
  cashResultsFile (processCashResults demoNow (pendingWorld (Some [cashResultFor "c1"])))
    = Some [].
Proof.
  assert (matchesCashMonitor (readMonitors (pendingWorld (Some [cashResultFor "c1"])))
            (cashResultFor "c1")) as Hm
    by (by exists pendingCashMonitor).
  split_and!; [reflexivity|exact Hm|].
  apply (cash_results_reset_when_matched demoNow
           (pendingWorld (Some [cashResultFor "c1"])) [cashResultFor "c1"]);
    [reflexivity|discriminate|].
  exists (cashResultFor "c1"). split; [by left|exact Hm].
Defined.

(** C2 as stated fails: a result that names no monitor of the store is not
    cleared, and the next poll reads it again. *)
Lemma unmatched_cash_result_is_kept :
  cashResultsFile (pendingWorld (Some [cashResultFor "gone"]))
    = Some [cashResultFor "gone"] /\
  processCashResults demoNow (pendingWorld (Some [cashResultFor "gone"]))
    = pendingWorld (Some [cashResultFor "gone"]) /\
  cashResultsFile
    (processCashResults demoNow
       (processCashResults demoNow (pendingWorld (Some [cashResultFor "gone"]))))
    = Some [cashResultFor "gone"].
Proof. split_and!; reflexivity. Qed.

(** ** The flight normalizer *)

Lemma codeUnitCompare_le (a b : string) :
  codeUnitCompare a b <= 0 <-> String.leb a b = true.
Proof.
  unfold codeUnitCompare, String.leb. destruct (String.compare a b); split; (done || lia).
Qed.

Lemma codeUnitCompare_anti (a b : string) :
  0 < codeUnitCompare a b -> codeUnitCompare b a <= 0.
Proof.
  intros H. apply codeUnitCompare_le, leb_false_flip.
  destruct (String.leb a b) eqn:E; [|done]. apply codeUnitCompare_le in E. lia.
Qed.

Lemma codeUnitCompare_trans (a b c : string) :
  codeUnitCompare a b <= 0 -> codeUnitCompare b c <= 0 -> codeUnitCompare a c <= 0.
Proof. rewrite !codeUnitCompare_le. apply leb_trans. Qed.

Section NormalizerFacts.
Context (parseFloatStr toNumberStr : string -> option Q)
        (localeCompare : string -> string -> Z).

Abbreviation entry := (normalizeEntry parseFloatStr toNumberStr).
Abbreviation mileage := (mileageOf parseFloatStr).
Abbreviation number := (toNumber toNumberStr).
Abbreviation costNum := (costNumber toNumberStr).

(** A cost that is a JSON number, or a string that parses to a number other
    than zero, is stored as a number. *)
Lemma mileageOf_number (v : JsVal) :
  (exists q, v = JNum q) \/
  (exists s q, v = JStr s /\ parseFloatStr s = Some q /\ ~ (q == 0)%Q) ->
  exists m, mileage v = CNum m.
Proof.
  unfold mileageOf. intros [[q ->]|(s & q & -> & Hq & Hne)]; simpl.
  - destruct (Qeq_bool q 0); by eexists.
  - rewrite Hq. destruct (Qeq_bool q 0) eqn:E; [|by eexists].
    by apply Qeq_bool_iff in E.
Qed.

Lemma strictEq_iff (a b : JsVal) : strictEq a b = true <-> sameScalar a b.
Proof.
  destruct a, b; simpl; try done.
  - split; [apply Bool.eqb_prop|intros ->; apply Bool.eqb_reflx].
  - apply Qeq_bool_iff.
  - apply String.eqb_eq.
Qed.

Lemma sameScalar_number (a b : JsVal) :
  sameScalar a b ->
  forall x, number a = Some x -> exists y, number b = Some y /\ (x == y)%Q.
Proof.
  destruct a, b; simpl; try done; intros H x Hx; simplify_eq; by eexists.
Qed.

Lemma entry_is_Some sfx f code :
  is_Some (entry sfx f code) <->
  truthy (field (raw_fields f) (code +:+ "Available" +:+ sfx)) = true /\
  exists m, costNum (mileage (field (raw_fields f) (code +:+ "MileageCost" +:+ sfx)))
              = Some m /\ (0 < m)%Q.
Proof.
  unfold normalizeEntry. rewrite <- num_pos_iff.
  destruct (truthy _), (num_pos _); simpl; split; try done;
    try (by intros [? ?]); by intros [? ?].
Qed.

Lemma entry_fields sfx f code e :
  entry sfx f code = Some e ->
  Date e = raw_Date f /\ cabin e = code /\
  MileageCost e = mileage (field (raw_fields f) (code +:+ "MileageCost" +:+ sfx)) /\
  (exists m, costNum (MileageCost e) = Some m /\ (0 < m)%Q) /\
  (IsDirect e = true <->
     truthy (field (raw_fields f) (code +:+ "DirectMileageCost" +:+ sfx)) = true /\
     (exists d,
        number (field (raw_fields f) (code +:+ "DirectMileageCost" +:+ sfx)) = Some d /\
        (0 < d)%Q) /\
     sameScalar (field (raw_fields f) (code +:+ "DirectMileageCost" +:+ sfx))
       (costVal (MileageCost e))) /\
  (IsDirect e = true ->
     exists d m,
       number (field (raw_fields f) (code +:+ "DirectMileageCost" +:+ sfx)) = Some d /\
       costNum (MileageCost e) = Some m /\ (0 < d)%Q /\ (d == m)%Q) /\
  (forall d m,
     field (raw_fields f) (code +:+ "DirectMileageCost" +:+ sfx) = JNum d ->
     MileageCost e = CNum m ->
     (IsDirect e = true <-> (0 < d)%Q /\ (d == m)%Q)) /\
  TotalTaxes e =
    (fun q => (q / 100)%Q) <$>
      number (js_or (field (raw_fields f) (code +:+ "TotalTaxes" +:+ sfx)) (JNum 0)) /\
  (forall t,
     field (raw_fields f) (code +:+ "TotalTaxes" +:+ sfx) = JNum t ->
     exists q, TotalTaxes e = Some q /\ (q == t / 100)%Q) /\
  (field (raw_fields f) (code +:+ "TotalTaxes" +:+ sfx) = JUndefined ->
     TotalTaxes e = Some (0 / 100)%Q).
Proof.
  unfold normalizeEntry. intros H.
  destruct (truthy _); [|done]. simpl in H.
  destruct (num_pos _) eqn:Hpos; [|done].
  apply num_pos_iff in Hpos as (m & Hm & Hm0).
  injection H as <-. simpl.
  set (direct := field (raw_fields f) (code +:+ "DirectMileageCost" +:+ sfx)).
  set (cost := mileage (field (raw_fields f) (code +:+ "MileageCost" +:+ sfx))) in *.
  assert (num_pos (number (js_or direct (JNum 0)))
          && strictEq (js_or direct (JNum 0)) (costVal cost) = true
          <-> truthy direct = true /\ (exists d, number direct = Some d /\ (0 < d)%Q) /\
              sameScalar direct (costVal cost)) as Hdirect.
  { rewrite andb_true_iff, num_pos_iff, strictEq_iff. unfold js_or.
    destruct (truthy direct); [tauto|]. simpl. split.
    - intros [(d & [= <-] & Hd) _]. lra.
    - by intros [? _]. }
  split_and!; try done.
  - by exists m.
  - intros (_ & (d & Hd & Hd0) & Hs)%Hdirect.
    destruct (sameScalar_number _ _ Hs d Hd) as (y & Hy & Hdy).
    exists d, y. by split_and!.
  - intros d m0 Hfd Hmil. rewrite Hdirect, Hfd, Hmil. simpl.
    destruct (Qeq_bool d 0) eqn:Ez; simpl.
    + apply Qeq_bool_iff in Ez. split; [by intros [? _]|]. intros [? _]. lra.
    + split.
      * by intros (_ & (d' & [= <-] & ?) & ?).
      * intros [? ?]. split_and!; [done|by exists d|done].
  - intros t Ht. rewrite Ht. unfold js_or. simpl.
    destruct (Qeq_bool t 0) eqn:Ez; simpl; eexists; split; try done.
    apply Qeq_bool_iff in Ez. by rewrite Ez.
  - by intros ->.
Qed.

Hypothesis compare_anti : forall a b, 0 < localeCompare a b -> localeCompare b a <= 0.
Hypothesis compare_trans :
  forall a b c, localeCompare a b <= 0 -> localeCompare b c <= 0 -> localeCompare a c <= 0.

End NormalizerFacts.



(** A cabin called like an inherited member reads the fields under the
    string form of that member, not under the name in upper case. *)
Example inherited_cabin_name :
  cabinCode "constructor" = "function Object() { [native code] }" /\
  normalizeFlights decimalNumber decimalNumber codeUnitCompare
    [withField "CONSTRUCTORAvailable" (JBool true)
       (withField "CONSTRUCTORMileageCost" (JNum 5) (demoRaw "2026-06-02" "293000" 0))]
    ["constructor"] rewards = [].
Proof. split; vm_compute; reflexivity. Qed.

(** ** The examples of the specification *)

(** Three refreshes of the example monitor: a first lowest of 586,000 points,
    a new lowest of 573,000 that recalls 586,000, and no line at all when
    the same fares are found again. *)
Example three_refreshes :
  exists m1 m2 m3,
    refreshMonitor decimalNumber decimalNumber numeral codeUnitCompare demoNet
      demoNow demoWorld demoMonitor
    = Some (m1, [NewSlot Out "Business" "2026-06-02" (CNum 293000);
                 NewSlot Ret "Business" "2026-06-20" (CNum 293000);
                 NewLowest "Business" (CNum 586000) None "2026-06-02" "2026-06-20"]) /\
    refreshMonitor decimalNumber decimalNumber numeral codeUnitCompare cheaperNet
      demoNow demoWorld m1
    = Some (m2, [NewSlot Out "Business" "2026-06-03" (CNum 280000);
                 NewLowest "Business" (CNum 573000) (Some (CNum 586000))
                   "2026-06-03" "2026-06-20"]) /\
    refreshMonitor decimalNumber decimalNumber numeral codeUnitCompare cheaperNet
      demoNow demoWorld m2
    = Some (m3, []).
Proof. eexists _, _, _. split_and!; vm_compute; reflexivity. Qed.

(** A cash monitor that never receives a result stays pending across full
    cycles, and no further request is queued. *)
Example pending_across_cycles :
  refreshAll decimalNumber decimalNumber numeral codeUnitCompare demoNet demoNow
    (refreshAll decimalNumber decimalNumber numeral codeUnitCompare demoNet demoNow
       (pendingWorld None))
  = pendingWorld None.
Proof. reflexivity. Qed.

(** A result for the pending monitor clears the flag, records the fare as
    the lowest and queues one alert. *)
Example cash_result_consumed :
  processCashResults demoNow (pendingWorld (Some [cashResultFor "c1"]))
  = {| monitorsFile := Some
         [setCashTracking pendingCashMonitor "2026-05-01T12:00:00.000Z"
            {["Y" := economyFare]} {["Y" := economyFare]}];
       alertsFile := Some
         [{| monitorId := "c1"; monitorLabel := "Boston cash";
             messages := [NewLowestCash "Economy" 1850 None "2026-06-02" "2026-06-20"];
             pa_createdAt := demoNow |}];
       cashRequestsFile := Some [pendingRequest "2026-05-01T00:00:00.000Z"];
       cashResultsFile := Some [];
       keyFile := Some "key"; console := [] |}.
Proof. vm_compute. reflexivity. Qed.

(** * Further properties *)

(** ** Refreshing twice *)

Lemma detectSlots_nil known d flights :
  (forall f, f ∈ flights -> slotKey d f ∈ known) -> detectSlots known d flights = [].
Proof.
  unfold detectSlots. induction flights as [|f flights IH]; intros H; [done|].
  cbn [mbind list_bind]. rewrite bool_decide_eq_true_2 by (apply H; by left).
  simpl. apply IH. intros g Hg. apply H. by right.
Qed.

Section RefreshTwice.
Context (parseFloatStr toNumberStr : string -> option Q)
        (numberToString : Q -> string)
        (localeCompare : string -> string -> Z)
        (net : string -> Leg -> FetchOutcome).

Abbreviation refresh1 :=
  (refreshMonitor parseFloatStr toNumberStr numberToString localeCompare net).
Abbreviation combined1 := (combinedRecord toNumberStr numberToString).
Abbreviation track1 := (trackCabin toNumberStr numberToString).

Lemma combinedRecord_points_now now now' out ret code :
  points <$> combined1 now' out ret code = points <$> combined1 now out ret code.
Proof.
  unfold combinedRecord.
  by destruct (cheapest toNumberStr code out), (cheapest toNumberStr code ret).
Qed.

(** When no tracked cabin improves on [low], the loop leaves [low] and the
    alert lines alone. *)
Lemma trackCabin_fold_quiet now out ret codes cur low alerts :
  Forall (fun code => inherited code = false) codes ->
  (forall code r, code ∈ codes -> combined1 now out ret code = Some r ->
     improvesPoints toNumberStr (points r) (points <$> low !! code) = false) ->
  exists cur', foldl (track1 now out ret) (cur, low, alerts) codes = (cur', low, alerts).
Proof.
  revert cur. induction codes as [|code codes IH]; intros cur Hp H; [by eexists|].
  apply Forall_cons in Hp as [Hcode Hp].
  cbn [foldl]. rewrite trackCabin_plain by done.
  destruct (combined1 now out ret code) as [r|] eqn:Er.
  - rewrite (H code r) by (done || by left).
    apply IH; [done|]. intros c r' Hc. apply H. by right.
  - apply IH; [done|]. intros c r' Hc. apply H. by right.
Qed.

(** After a successful refresh every cabin that has a current record has a
    lowest record that is not above it: the current points are not below the
    lowest ones under [<], and as numbers are at least the lowest ones. Only
    tracked cabins have a current record. *)
Theorem lowest_not_above_current now w m m' alerts :
  refresh1 now w m = Some (m', alerts) ->
  forall code rec,
    default ∅ (currentCombined m') !! code = Some rec ->
    code ∈ cabinCode <$> cabins m /\
    exists low, default ∅ (lowestCombined m') !! code = Some low /\
                ~ below toNumberStr (points rec) (points low) /\
                forall x y, points rec = CNum x -> points low = CNum y -> (y <= x)%Q.
Proof.
  intros (outb & ret & cur & low & _ & _ & Hf & ->)%refreshMonitor_Some code rec.
  destruct (trackCabin_fold _ _ _ _ _ _ _ _ _ _ _ _ (codes_plain _) Hf code) as [Hc Hl].
  simpl. rewrite Hc, Hl, lookup_empty.
  case_decide; [|done].
  destruct (combinedRecord _ _ now outb ret code) as [r|]; simpl; [|done].
  intros [= ->]. split; [done|].
  assert (forall p, ~ below toNumberStr (points rec) (points p) ->
            forall x y, points rec = CNum x -> points p = CNum y -> (y <= x)%Q) as Hnum.
  { intros p E x y Hx Hy. rewrite Hx, Hy, below_numbers in E.
    by apply Qnot_lt_le. }
  destruct (improvesPoints _ (points rec) _) eqn:E.
  - exists rec. pose proof (below_irrefl toNumberStr (points rec)). eauto.
  - destruct (default ∅ (lowestCombined m) !! code) as [p|]; [|done].
    exists p. simpl in E.
    assert (~ below toNumberStr (points rec) (points p)) as Hb.
    { intros Hb. apply costLt_iff in Hb. congruence. }
    eauto.
Qed.

(** A refresh that finds what the previous one found appends no alert line,
    keeps every lowest record and adds no slot. *)
Theorem second_refresh_is_quiet now now' w m m1 alerts :
  refreshMonitor parseFloatStr toNumberStr numberToString localeCompare net now w m
    = Some (m1, alerts) ->
  exists m2,
    refreshMonitor parseFloatStr toNumberStr numberToString localeCompare net now' w m1
      = Some (m2, []) /\
    lowestCombined m2 = lowestCombined m1 /\
    lastOutbound m2 = lastOutbound m1 /\ lastReturn m2 = lastReturn m1 /\
    forall k, k ∈ default [] (knownSlots m2) <-> k ∈ default [] (knownSlots m1).
Proof.
  intros (outb & ret & cur & low & Ho & Hr & Hf & ->)%refreshMonitor_Some.
  set (known := setOf (default [] (knownSlots m))) in *.
  set (new := (detectSlots known Out outb ++ detectSlots known Ret ret).*1) in *.
  assert (forall d flights f,
            (d = Out /\ flights = outb) \/ (d = Ret /\ flights = ret) ->
            f ∈ flights -> slotKey d f ∈ setOf (known ++ new)) as Hknown.
  { intros d flights f Hd Hin. apply setOf_elem_of, elem_of_app.
    destruct (decide (slotKey d f ∈ known)) as [|Hn]; [by left|right].
    unfold new. rewrite fmap_app, elem_of_app.
    destruct Hd as [[-> ->]|[-> ->]]; [left|right];
      apply detectSlots_elem_of; eauto. }
  unfold refreshMonitor. simpl. rewrite Ho, Hr. simpl.
  rewrite (detectSlots_nil _ Out outb) by (intros f; apply Hknown; by left).
  rewrite (detectSlots_nil _ Ret ret) by (intros f; apply Hknown; by right).
  simpl.
  destruct (trackCabin_fold_quiet now' outb ret (cabinCode <$> cabins m) ∅ low [])
    as [cur' Hq]; [apply codes_plain| |].
  { intros code r Hin Hr'.
    destruct (trackCabin_fold _ _ _ _ _ _ _ _ _ _ _ _ (codes_plain _) Hf code) as [_ Hl].
    rewrite decide_True in Hl by done.
    pose proof (combinedRecord_points_now now now' outb ret code) as Hp.
    rewrite Hr' in Hp. simpl in Hp.
    destruct (combinedRecord _ _ now outb ret code) as [r0|]; [|done].
    simpl in Hp. injection Hp as Hp. rewrite Hl, Hp.
    destruct (improvesPoints _ (points r0) _) eqn:E; [|done].
    simpl. apply costLt_irrefl. }
  rewrite Hq. eexists. split_and!; [done..|].
  intros k. simpl. rewrite app_nil_r. apply setOf_elem_of.
Qed.
End RefreshTwice.

Lemma lowest_not_above_current_witness :
  exists m' alerts,
    refreshMonitor decimalNumber decimalNumber numeral codeUnitCompare demoNet
      demoNow demoWorld demoMonitor = Some (m', alerts) /\
    forall code rec,
      default ∅ (currentCombined m') !! code = Some rec ->
      code ∈ cabinCode <$> cabins demoMonitor /\
      exists low, default ∅ (lowestCombined m') !! code = Some low /\
                  ~ below decimalNumber (points rec) (points low) /\
                  forall x y, points rec = CNum x -> points low = CNum y -> (y <= x)%Q.
Proof.
  eexists _, _. split; [vm_compute; reflexivity|].
  eapply (lowest_not_above_current decimalNumber decimalNumber numeral codeUnitCompare
            demoNet demoNow demoWorld demoMonitor).
  vm_compute. reflexivity.
Defined.

Lemma second_refresh_is_quiet_witness :
  exists m1 alerts m2,
    refreshMonitor decimalNumber decimalNumber numeral codeUnitCompare demoNet
      demoNow demoWorld demoMonitor = Some (m1, alerts) /\
    alerts ≠ [] /\
    refreshMonitor decimalNumber decimalNumber numeral codeUnitCompare demoNet
      "2026-05-02T01:00:00.000Z" demoWorld m1 = Some (m2, []) /\
    lowestCombined m2 = lowestCombined m1.
Proof.
  eexists _, _. 
  destruct (second_refresh_is_quiet decimalNumber decimalNumber numeral codeUnitCompare
              demoNet demoNow "2026-05-02T01:00:00.000Z" demoWorld demoMonitor _ _
              ltac:(vm_compute; reflexivity)) as (m2 & H2 & Hl & _).
  exists m2. split_and!; [vm_compute; reflexivity|discriminate|exact H2|exact Hl].
Defined.

(** ** The alert queue *)

Lemma alertsAppended_refl w : alertsAppended w w.
Proof. exists []. by rewrite app_nil_r. Qed.

Lemma alertsAppended_trans w1 w2 w3 :
  alertsAppended w1 w2 -> alertsAppended w2 w3 -> alertsAppended w1 w3.
Proof.
  intros (a & Ha & Fa) (b & Hb & Fb). exists (a ++ b).
  rewrite Hb, Ha, app_assoc. split; [done|]. by apply Forall_app.
Qed.

Lemma alertsAppended_same w w' : alertsFile w' = alertsFile w -> alertsAppended w w'.
Proof. intros H. exists []. by rewrite H, app_nil_r. Qed.

Lemma appendAlerts_appended now m alerts w :
  alertsAppended w (appendAlerts now m alerts w).
Proof.
  destruct alerts as [|a alerts]; [apply alertsAppended_refl|].
  eexists [_]. split; [done|]. by repeat constructor.
Qed.

(** ** The full cycle, monitor by monitor *)

Section CycleFacts.
Context (parseFloatStr toNumberStr : string -> option Q)
        (numberToString : Q -> string)
        (localeCompare : string -> string -> Z)
        (net : string -> Leg -> FetchOutcome).

Abbreviation refresh2 :=
  (refreshMonitor parseFloatStr toNumberStr numberToString localeCompare net).
Abbreviation step2 := (refreshStep parseFloatStr toNumberStr numberToString localeCompare net).
Abbreviation loop2 := (refreshLoop parseFloatStr toNumberStr numberToString localeCompare net).
Abbreviation cycle := (refreshAll parseFloatStr toNumberStr numberToString localeCompare net).

Lemma refreshMonitor_keyFile now w w' m :
  keyFile w = keyFile w' -> refresh2 now w m = refresh2 now w' m.
Proof. intros H. unfold refreshMonitor, fetchLeg, readKey. by rewrite H. Qed.

Lemma refreshStep_keyFile_fst now w w' m :
  keyFile w = keyFile w' -> (step2 now m w).1 = (step2 now m w').1.
Proof.
  intros H. unfold refreshStep. rewrite (refreshMonitor_keyFile now w w' m H).
  case_bool_decide; [by destruct (default false (cashPending m))|].
  by destruct (refresh2 now w' m) as [[m' alerts]|].
Qed.

Lemma refreshStep_unchanged now m w :
  (step2 now m w).1.2 = false -> (step2 now m w).1.1 = m.
Proof.
  unfold refreshStep. case_bool_decide.
  - by destruct (default false (cashPending m)).
  - by destruct (refresh2 now w m) as [[m' alerts]|].
Qed.

Lemma refreshStep_monitorsFile now m w : monitorsFile (step2 now m w).2 = monitorsFile w.
Proof.
  unfold refreshStep. case_bool_decide.
  - by destruct (default false (cashPending m)).
  - destruct (refresh2 now w m) as [[m' [|a alerts]]|]; done.
Qed.

Lemma refreshStep_alerts now m w : alertsAppended w (step2 now m w).2.
Proof.
  unfold refreshStep. case_bool_decide.
  - destruct (default false (cashPending m)); simpl; by apply alertsAppended_same.
  - destruct (refresh2 now w m) as [[m' alerts]|]; simpl;
      [apply appendAlerts_appended|by apply alertsAppended_same].
Qed.

Lemma refreshStep_identity now m w : identity (step2 now m w).1.1 = identity m.
Proof.
  unfold refreshStep. case_bool_decide.
  - by destruct (default false (cashPending m)).
  - destruct (refresh2 now w m) as [[m' alerts]|] eqn:E; [|done].
    by apply refreshMonitor_Some in E as (? & ? & ? & ? & _ & _ & _ & ->).
Qed.

Lemma refreshLoop_facts now monitors w :
  (loop2 now monitors w).1.1 = (fun m => (step2 now m w).1.1) <$> monitors /\
  ((loop2 now monitors w).1.2 = false -> (loop2 now monitors w).1.1 = monitors) /\
  monitorsFile (loop2 now monitors w).2 = monitorsFile w /\
  alertsAppended w (loop2 now monitors w).2.
Proof.
  revert w. induction monitors as [|m rest IH]; intros w.
  - simpl. split_and!; [done..|apply alertsAppended_refl].
  - cbn [refreshLoop]. rewrite fmap_cons.
    pose proof (refreshStep_keyFile parseFloatStr toNumberStr numberToString
                  localeCompare net now m w) as Hk.
    pose proof (refreshStep_unchanged now m w) as Hu.
    pose proof (refreshStep_monitorsFile now m w) as Hm.
    pose proof (refreshStep_alerts now m w) as Ha.
    destruct (step2 now m w) as [[m' c] w1]. simpl in *.
    destruct (IH w1) as (IH1 & IH2 & IH3 & IH4).
    destruct (loop2 now rest w1) as [[rest' c'] w2]. simpl in *.
    split_and!.
    + rewrite IH1. f_equal. apply list_fmap_ext. intros _ x _.
      by rewrite (refreshStep_keyFile_fst now w1 w x).
    + intros [-> ->]%orb_false_iff. by rewrite Hu, IH2.
    + congruence.
    + by eapply alertsAppended_trans.
Qed.

Lemma refreshAll_stored now w :
  readMonitors (cycle now w) = (fun m => (step2 now m w).1.1) <$> readMonitors w.
Proof.
  unfold refreshAll.
  destruct (refreshLoop_facts now (readMonitors w) w) as (H1 & H2 & H3 & _).
  destruct (loop2 now (readMonitors w) w) as [[data c] w1]. simpl in *.
  destruct c; [by rewrite <- H1|].
  rewrite <- H1, (H2 eq_refl). unfold readMonitors. by rewrite H3.
Qed.

(** After a full cycle every cash monitor of the store is pending. *)
Theorem refreshAll_cash_pending now w m :
  m ∈ readMonitors (cycle now w) -> source m = Some cash -> cashPending m = Some true.
Proof.
  rewrite refreshAll_stored. intros (m0 & -> & _)%list_elem_of_fmap.
  unfold refreshStep. case_bool_decide as Hs.
  - destruct (cashPending m0) as [[]|] eqn:E; simpl; by rewrite ?E.
  - destruct (refresh2 now w m0) as [[m' alerts]|] eqn:E; simpl.
    + apply refreshMonitor_Some in E as (? & ? & ? & ? & _ & _ & _ & ->). done.
    + done.
Qed.

Lemma refreshAll_identity now w :
  identity <$> readMonitors (cycle now w) = identity <$> readMonitors w.
Proof.
  rewrite refreshAll_stored, <- list_fmap_compose.
  apply list_fmap_ext. intros _ m _. apply refreshStep_identity.
Qed.

(** After a full cycle the stored monitors are, position by position, what
    the per-monitor step makes of the ones stored before: each monitor is
    handled independently of the others, none is added, dropped or moved, no
    result is lost when the file is not rewritten, and none of id, label,
    cabins, source, availability mode, legs and creation time is assigned. *)
Theorem refreshAll_pointwise now w :
  readMonitors (cycle now w) = (fun m => (step2 now m w).1.1) <$> readMonitors w /\
  identity <$> readMonitors (cycle now w) = identity <$> readMonitors w.
Proof. split; [apply refreshAll_stored|apply refreshAll_identity]. Qed.
End CycleFacts.

Lemma refreshAll_cash_pending_witness :
  setCashRequested demoNow
    (setCashTracking pendingCashMonitor demoNow ∅ ∅)
    ∈ readMonitors
        (refreshAll decimalNumber decimalNumber numeral codeUnitCompare demoNet demoNow
           (writeMonitors [setCashTracking pendingCashMonitor demoNow ∅ ∅]
              (pendingWorld None))) /\
  cashPending (setCashTracking pendingCashMonitor demoNow ∅ ∅) = Some false /\
  cashPending (setCashRequested demoNow (setCashTracking pendingCashMonitor demoNow ∅ ∅))
    = Some true.
Proof.
  assert (setCashRequested demoNow (setCashTracking pendingCashMonitor demoNow ∅ ∅)
          ∈ readMonitors
              (refreshAll decimalNumber decimalNumber numeral codeUnitCompare demoNet demoNow
                 (writeMonitors [setCashTracking pendingCashMonitor demoNow ∅ ∅]
                    (pendingWorld None)))) as Hin
    by (vm_compute; by left).
  split_and!; [exact Hin|reflexivity|].
  exact (refreshAll_cash_pending decimalNumber decimalNumber numeral codeUnitCompare demoNet
           demoNow _ _ Hin eq_refl).
Defined.

(** ** Cash results, monitor by monitor *)

Lemma find_updateFirst_ne i j (m' : Monitor) (l : list Monitor) :
  i ≠ j -> id m' = i -> find (hasId j) (updateFirst (hasId i) m' l) = find (hasId j) l.
Proof.
  intros Hne Hid. induction l as [|x l IH]; simpl; [done|].
  destruct (hasId i x) eqn:Ei; simpl.
  - unfold hasId in *. apply String.eqb_eq in Ei.
    rewrite Hid, Ei. by destruct (String.eqb_spec i j).
  - by rewrite IH.
Qed.

Lemma find_hasId_id i (m : Monitor) (l : list Monitor) :
  find (hasId i) l = Some m -> id m = i.
Proof. intros [_ H]%find_some. by apply String.eqb_eq. Qed.

Lemma updateFirst_identity i m m' (l : list Monitor) :
  find (hasId i) l = Some m -> identity m' = identity m ->
  identity <$> updateFirst (hasId i) m' l = identity <$> l.
Proof.
  intros Hf Hk. induction l as [|x l IH]; simpl in *; [done|].
  destruct (hasId i x).
  - injection Hf as ->. rewrite !fmap_cons. by rewrite Hk.
  - rewrite !fmap_cons. by rewrite IH.
Qed.

Lemma identity_monitorKey (d d' : list Monitor) :
  identity <$> d' = identity <$> d -> monitorKey <$> d' = monitorKey <$> d.
Proof.
  revert d'. induction d as [|x d IH]; intros [|y d'] H; try (by inversion H).
  rewrite !fmap_cons in *. injection H as H1 H2.
  unfold identity in H1. unfold monitorKey at 1 3.
  f_equal; [congruence|by apply IH].
Qed.

Lemma applyCashResult_fields now r m :
  identity (applyCashResult now r m).1 = identity m /\
  cashPending (applyCashResult now r m).1 = Some false /\
  lastChecked (applyCashResult now r m).1
    = Some (default now (str_or (checkedAt r) (Some now))).
Proof.
  unfold applyCashResult. by destruct (foldl trackCash _ _) as [[cur low] al].
Qed.

Lemma cashResultStep_facts now d ch w r d' ch' w' :
  cashResultStep now (d, ch, w) r = (d', ch', w') ->
  identity <$> d' = identity <$> d /\
  (ch' = false -> d' = d /\ w' = w) /\
  (forall j, rs_monitorId r ≠ j -> find (hasId j) d' = find (hasId j) d) /\
  (forall j m, find (hasId j) d = Some m -> source m ≠ Some cash ->
     find (hasId j) d' = Some m) /\
  (matchesCashMonitor d r -> answered d' (rs_monitorId r)) /\
  (forall j, answered d j -> answered d' j) /\
  alertsAppended w w' /\
  cashRequestsFile w' = cashRequestsFile w /\ cashResultsFile w' = cashResultsFile w /\
  monitorsFile w' = monitorsFile w.
Proof.
  unfold cashResultStep. intros H.
  destruct (find (hasId (rs_monitorId r)) d) as [m|] eqn:Ef;
    [case_bool_decide as Hs|].
  - destruct (applyCashResult_fields now r m) as (Hid & Hp & Hl).
    pose proof (find_hasId_id _ _ _ Ef) as Hi.
    assert (id (applyCashResult now r m).1 = rs_monitorId r) as Hi'
      by (unfold identity in Hid; congruence).
    assert (source (applyCashResult now r m).1 = Some cash) as Hs'
      by (unfold identity in Hid; congruence).
    assert (hasId (rs_monitorId r) (applyCashResult now r m).1 = true) as Hh
      by (by apply String.eqb_eq).
    destruct (applyCashResult now r m) as [m' alerts]. simpl in *.
    injection H as <- <- <-.
    assert (answered (updateFirst (hasId (rs_monitorId r)) m' d) (rs_monitorId r)) as Ha.
    { exists m'. split_and!; [by eapply find_updateFirst|done|done|].
      rewrite Hl. by eexists. }
    split_and!; try done.
    + by eapply updateFirst_identity.
    + intros j Hj. by apply find_updateFirst_ne.
    + intros j m0 Hf0 Hs0.
      destruct (decide (rs_monitorId r = j)) as [<-|Hne]; [congruence|].
      by rewrite find_updateFirst_ne.
    + intros j (m0 & Hf0 & Hrest).
      destruct (decide (rs_monitorId r = j)) as [<-|Hne]; [done|].
      exists m0. by rewrite find_updateFirst_ne.
    + apply appendAlerts_appended.
    + by destruct alerts.
    + by destruct alerts.
    + by destruct alerts.
  - simplify_eq. split_and!; try done; [|apply alertsAppended_refl].
    intros (m0 & ? & ?). simplify_eq.
  - simplify_eq. split_and!; try done; [|apply alertsAppended_refl].
    intros (m0 & ? & ?). simplify_eq.
Qed.

Lemma cashResults_fold_facts now results d ch w d' ch' w' :
  foldl (cashResultStep now) (d, ch, w) results = (d', ch', w') ->
  identity <$> d' = identity <$> d /\
  (ch = false -> ch' = false -> d' = d /\ w' = w) /\
  (forall j, (forall r, r ∈ results -> rs_monitorId r ≠ j) ->
     find (hasId j) d' = find (hasId j) d) /\
  (forall j m, find (hasId j) d = Some m -> source m ≠ Some cash ->
     find (hasId j) d' = Some m) /\
  (forall r, r ∈ results -> matchesCashMonitor d r -> answered d' (rs_monitorId r)) /\
  (forall j, answered d j -> answered d' j) /\
  alertsAppended w w' /\
  cashRequestsFile w' = cashRequestsFile w /\ cashResultsFile w' = cashResultsFile w /\
  monitorsFile w' = monitorsFile w.
Proof.
  revert d ch w. induction results as [|r results IH]; intros d ch w H.
  - simplify_eq/=. split_and!; try done; [|apply alertsAppended_refl].
    intros r Hr. by apply elem_of_nil in Hr.
  - cbn [foldl] in H.
    destruct (cashResultStep now (d, ch, w) r) as [[d1 ch1] w1] eqn:Es.
    pose proof Es as Es'.
    apply cashResultStep_spec in Es' as (_ & Hc1 & _ & Hn1).
    apply cashResultStep_facts in Es
      as (S1 & S2 & S3 & S4 & S5 & S6 & S7 & S8 & S9 & S10).
    pose proof H as H'.
    apply cashResults_fold in H' as (_ & Hc & _ & _).
    apply IH in H as (F1 & F2 & F3 & F4 & F5 & F6 & F7 & F8 & F9 & F10).
    split_and!.
    + congruence.
    + intros Hch Hf. destruct ch1.
      * specialize (Hc eq_refl). congruence.
      * destruct (F2 eq_refl Hf) as [-> ->]. by apply S2.
    + intros j Hj. rewrite F3 by (intros r' Hr'; apply Hj; by right).
      apply S3, Hj. by left.
    + intros j m Hf Hs. apply F4; [|done]. by apply S4.
    + intros r' [->|Hin]%elem_of_cons Hm.
      * by apply F6, S5.
      * apply F5; [done|]. apply (matches_same_keys d); [|done].
        symmetry. by apply identity_monitorKey.
    + intros j Hj. by apply F6, S6.
    + by eapply alertsAppended_trans.
    + congruence.
    + congruence.
    + congruence.
Qed.

(** What a poll stores is what its loop over the results has built. *)
Lemma processCashResults_stored now w results :
  cashResultsFile w = Some results ->
  exists d' ch' w',
    foldl (cashResultStep now) (readMonitors w, false, w) results = (d', ch', w') /\
    readMonitors (processCashResults now w) = d' /\
    cashRequestsFile (processCashResults now w) = cashRequestsFile w' /\
    alertsFile (processCashResults now w) = alertsFile w'.
Proof.
  intros Hfile. unfold processCashResults. rewrite Hfile.
  destruct results as [|r0 results0] eqn:Er; [by eexists _, _, _|].
  rewrite <- Er in *. clear Er.
  destruct (foldl _ _ results) as [[d' ch'] w'] eqn:Ef.
  exists d', ch', w'. split; [done|].
  destruct ch'; [done|].
  apply cashResults_fold_facts in Ef as (_ & H2 & _).
  by destruct (H2 eq_refl eq_refl) as [-> ->].
Qed.

(** A poll of the result document answers every cash monitor that a result
    names: it is left not pending, with a check time. Monitors that no result
    names and monitors of the awards channel are left as they were, no
    monitor changes identity or place, and the request document is not
    written. *)
Theorem cash_poll_answers_named_monitors now w results :
  cashResultsFile w = Some results ->
  (forall r, r ∈ results -> matchesCashMonitor (readMonitors w) r ->
     answered (readMonitors (processCashResults now w)) (rs_monitorId r)) /\
  (forall j, (forall r, r ∈ results -> rs_monitorId r ≠ j) ->
     find (hasId j) (readMonitors (processCashResults now w))
       = find (hasId j) (readMonitors w)) /\
  (forall j m, find (hasId j) (readMonitors w) = Some m -> source m ≠ Some cash ->
     find (hasId j) (readMonitors (processCashResults now w)) = Some m) /\
  identity <$> readMonitors (processCashResults now w) = identity <$> readMonitors w /\
  cashRequestsFile (processCashResults now w) = cashRequestsFile w.
Proof.
  intros Hfile.
  destruct (processCashResults_stored now w results Hfile)
    as (d' & ch' & w' & Hf & -> & -> & _).
  apply cashResults_fold_facts in Hf
    as (F1 & _ & F3 & F4 & F5 & _ & _ & F8 & _).
  by split_and!.
Qed.

Lemma cash_poll_answers_named_monitors_witness :
  cashResultsFile (pendingWorld (Some [cashResultFor "c1"])) = Some [cashResultFor "c1"] /\
  cashPending pendingCashMonitor = Some true /\
  answered
    (readMonitors (processCashResults demoNow (pendingWorld (Some [cashResultFor "c1"]))))
    "c1".
Proof.
  split_and!; [reflexivity..|].
  destruct (cash_poll_answers_named_monitors demoNow
              (pendingWorld (Some [cashResultFor "c1"])) [cashResultFor "c1"] eq_refl)
    as (H & _).
  apply (H (cashResultFor "c1")); [by left|]. by exists pendingCashMonitor.
Defined.

(** ** Deleting a monitor *)

Lemma find_filter_other i j (l : list Monitor) :
  j ≠ i -> find (hasId j) (filter (fun m => id m ≠ i) l) = find (hasId j) l.
Proof.
  intros Hne. induction l as [|x l IH]; [done|].
  rewrite filter_cons. case_decide as Hx; simpl.
  - by rewrite IH.
  - rewrite IH. unfold hasId. destruct (String.eqb_spec (id x) j); [|done].
    exfalso. apply Hne. congruence.
Qed.

Lemma find_filter_same i (l : list Monitor) :
  find (hasId i) (filter (fun m => id m ≠ i) l) = None.
Proof.
  induction l as [|x l IH]; [done|].
  rewrite filter_cons. case_decide as Hx; simpl; [|done].
  unfold hasId at 1. by destruct (String.eqb_spec (id x) i).
Qed.

Lemma filter_twice i (l : list Monitor) :
  filter (fun m => id m ≠ i) (filter (fun m => id m ≠ i) l) = filter (fun m => id m ≠ i) l.
Proof.
  induction l as [|x l IH]; [done|].
  rewrite filter_cons. case_decide as Hx; [|done].
  rewrite filter_cons, decide_True by done. by rewrite IH.
Qed.

(** DELETE answers 200 whatever the id. Afterwards no monitor has the id, the
    other monitors are stored as before and in the same order, a second
    delete changes nothing, and the alert, request and result documents are
    not written: a request or result of the deleted monitor stays. *)
Theorem delete_removes_only_that_id i w :
  (handleDelete i w).1 = 200%nat /\
  find (hasId i) (readMonitors (handleDelete i w).2) = None /\
  (forall j, j ≠ i ->
     find (hasId j) (readMonitors (handleDelete i w).2) = find (hasId j) (readMonitors w)) /\
  readMonitors (handleDelete i w).2 = filter (fun m => id m ≠ i) (readMonitors w) /\
  handleDelete i (handleDelete i w).2 = handleDelete i w /\
  alertsFile (handleDelete i w).2 = alertsFile w /\
  cashRequestsFile (handleDelete i w).2 = cashRequestsFile w /\
  cashResultsFile (handleDelete i w).2 = cashResultsFile w.
Proof.
  unfold handleDelete. simpl. split_and!; try done.
  - apply find_filter_same.
  - intros j Hj. by apply find_filter_other.
  - unfold readMonitors, writeMonitors. simpl. by rewrite filter_twice.
Qed.

(** Results that name a deleted monitor are never consumed: each poll after
    the delete leaves every document as it is. *)
Theorem results_for_deleted_monitor_stay now i w results :
  cashResultsFile w = Some results ->
  (forall r, r ∈ results -> rs_monitorId r = i) ->
  processCashResults now (handleDelete i w).2 = (handleDelete i w).2.
Proof.
  intros Hfile Hall. unfold processCashResults.
  change (cashResultsFile (handleDelete i w).2) with (cashResultsFile w).
  rewrite Hfile. destruct results as [|r0 results0] eqn:Er; [done|].
  rewrite <- Er in *. clear Er.
  destruct (foldl _ _ results) as [[d' ch'] w'] eqn:Ef.
  apply cashResults_fold in Ef as (_ & _ & _ & Hn).
  assert ((d', ch', w') = (readMonitors (handleDelete i w).2, false, (handleDelete i w).2))
    as Heq.
  { apply Hn. intros (r & Hr & m & Hfind & _).
    rewrite (Hall r Hr) in Hfind. simpl in Hfind.
    unfold readMonitors at 1 in Hfind. simpl in Hfind.
    by rewrite find_filter_same in Hfind. }
  by injection Heq as -> -> ->.
Qed.

Lemma results_for_deleted_monitor_stay_witness :
  cashResultsFile (pendingWorld (Some [cashResultFor "c1"])) = Some [cashResultFor "c1"] /\
  processCashResults demoNow
    (handleDelete "c1" (pendingWorld (Some [cashResultFor "c1"]))).2
  = (handleDelete "c1" (pendingWorld (Some [cashResultFor "c1"]))).2 /\
  cashResultsFile (handleDelete "c1" (pendingWorld (Some [cashResultFor "c1"]))).2
  = Some [cashResultFor "c1"].
Proof.
  split_and!; [reflexivity| |reflexivity].
  apply (results_for_deleted_monitor_stay demoNow "c1"
           (pendingWorld (Some [cashResultFor "c1"])) [cashResultFor "c1"] eq_refl).
  intros r Hr. apply list_elem_of_singleton in Hr. by subst.
Defined.

(** ** Handlers: what they leave alone *)

Section HandlerFacts.
Context (parseFloatStr toNumberStr : string -> option Q)
        (numberToString : Q -> string)
        (localeCompare : string -> string -> Z)
        (net : string -> Leg -> FetchOutcome)
        (getTime : string -> option Z).

Abbreviation refresh3 :=
  (refreshMonitor parseFloatStr toNumberStr numberToString localeCompare net).
Abbreviation step3 := (refreshStep parseFloatStr toNumberStr numberToString localeCompare net).
Abbreviation cycle3 := (refreshAll parseFloatStr toNumberStr numberToString localeCompare net).
Abbreviation onDemand :=
  (handleRefresh parseFloatStr toNumberStr numberToString localeCompare net).

Lemma refreshAll_alerts now w : alertsAppended w (cycle3 now w).
Proof.
  unfold refreshAll.
  destruct (refreshLoop_facts parseFloatStr toNumberStr numberToString localeCompare net
              now (readMonitors w) w) as (_ & _ & _ & H).
  destruct (refreshLoop _ _ _ _ _ now (readMonitors w) w) as [[data c] w1].
  simpl in H. by destruct c.
Qed.

Lemma processCashResults_alerts now w : alertsAppended w (processCashResults now w).
Proof.
  destruct (cashResultsFile w) as [results|] eqn:Hfile.
  - destruct (processCashResults_stored now w results Hfile)
      as (d' & ch' & w' & Hf & _ & _ & Ha).
    apply cashResults_fold_facts in Hf as (_ & _ & _ & _ & _ & _ & F7 & _).
    destruct F7 as (more & Hm & Hall). exists more. by rewrite Ha.
  - unfold processCashResults. rewrite Hfile. apply alertsAppended_refl.
Qed.

Lemma handleRefresh_alerts now i w : alertsAppended w (onDemand now i w).2.
Proof.
  unfold handleRefresh. destruct (find (hasId i) (readMonitors w)) as [m|];
    [|apply alertsAppended_refl].
  case_bool_decide; [by apply alertsAppended_same|].
  destruct (refresh3 now w m) as [[m' alerts]|]; simpl;
    [|by apply alertsAppended_same].
  eapply alertsAppended_trans; [apply appendAlerts_appended|].
  by apply alertsAppended_same.
Qed.

(** No operation of the engine removes or rewrites a queued alert batch: the
    queue after a full cycle, a poll or an on-demand refresh is the queue
    before, followed by batches of at least one line; create, edit and delete
    do not write the queue. *)
Theorem alert_queue_only_grows :
  (forall now w, alertsAppended w (cycle3 now w)) /\
  (forall now w, alertsAppended w (processCashResults now w)) /\
  (forall now i w, alertsAppended w (onDemand now i w).2) /\
  (forall now uuid body w,
     alertsFile (handleCreate getTime now uuid body w).2 = alertsFile w) /\
  (forall i body w, alertsFile (handleEdit getTime i body w).2 = alertsFile w) /\
  (forall i w, alertsFile (handleDelete i w).2 = alertsFile w).
Proof.
  split_and!.
  - apply refreshAll_alerts.
  - apply processCashResults_alerts.
  - apply handleRefresh_alerts.
  - intros now uuid body w. unfold handleCreate. by destruct (str_truthy _).
  - intros i body w. unfold handleEdit. destruct (str_truthy _); [done|].
    destruct (find _ _); [|done]. by destruct (coreChanged _ _) as [[? ?]|].
  - done.
Qed.

(** An answer other than 201 to a create, or other than 200 to an edit or an
    on-demand refresh, comes with the four documents unwritten. *)
Theorem rejected_requests_write_nothing :
  (forall now uuid body w,
     status (handleCreate getTime now uuid body w).1 ≠ 201%nat ->
     sameDocuments w (handleCreate getTime now uuid body w).2) /\
  (forall i body w,
     status (handleEdit getTime i body w).1 ≠ 200%nat ->
     sameDocuments w (handleEdit getTime i body w).2) /\
  (forall now i w,
     status (onDemand now i w).1 ≠ 200%nat ->
     sameDocuments w (onDemand now i w).2).
Proof.
  unfold sameDocuments. split_and!.
  - intros now uuid body w. unfold handleCreate. by destruct (str_truthy _).
  - intros i body w. unfold handleEdit. destruct (str_truthy _); [done|].
    destruct (find _ _); [|done]. by destruct (coreChanged _ _) as [[? ?]|].
  - intros now i w. unfold handleRefresh. destruct (find _ _) as [m|]; [|done].
    case_bool_decide; [done|]. by destruct (refresh3 now w m) as [[? ?]|].
Qed.

Lemma applyEdit_id body changed cabins' m :
  id (applyEdit body changed cabins' m) = id m /\
  createdAt (applyEdit body changed cabins' m) = createdAt m.
Proof. unfold applyEdit. by destruct changed. Qed.

Lemma updateFirst_fmap {B} (g : Monitor -> B) i m m' (l : list Monitor) :
  find (hasId i) l = Some m -> g m' = g m ->
  g <$> updateFirst (hasId i) m' l = g <$> l.
Proof.
  intros Hf Hk. induction l as [|x l IH]; simpl in *; [done|].
  destruct (hasId i x).
  - injection Hf as ->. rewrite !fmap_cons. by rewrite Hk.
  - rewrite !fmap_cons. by rewrite IH.
Qed.

(** An edit touches one monitor: whatever it answers, the monitors of every
    other id are stored as before, the ids and creation times are the same in
    the same order, and the alert, request and result documents are not
    written, so a cash request queued before the edit stays queued. *)
Theorem edit_touches_one_monitor i body w :
  (forall j, j ≠ i ->
     find (hasId j) (readMonitors (handleEdit getTime i body w).2)
       = find (hasId j) (readMonitors w)) /\
  (fun m => (id m, createdAt m)) <$> readMonitors (handleEdit getTime i body w).2
    = (fun m => (id m, createdAt m)) <$> readMonitors w /\
  alertsFile (handleEdit getTime i body w).2 = alertsFile w /\
  cashRequestsFile (handleEdit getTime i body w).2 = cashRequestsFile w /\
  cashResultsFile (handleEdit getTime i body w).2 = cashResultsFile w.
Proof.
  unfold handleEdit. destruct (str_truthy _); [done|].
  destruct (find (hasId i) (readMonitors w)) as [m|] eqn:Ef; [|done].
  destruct (coreChanged body m) as [[changed cabins']|]; [|done].
  destruct (applyEdit_id body changed cabins' m) as [Hid Hc].
  pose proof (find_hasId_id _ _ _ Ef) as Hi.
  simpl. split_and!; try done.
  - intros j Hj. apply find_updateFirst_ne; [done|congruence].
  - unfold readMonitors at 1. simpl.
    eapply updateFirst_fmap; [done|]. by rewrite Hid, Hc.
Qed.

(** For an awards monitor, and for a cash monitor that is not pending, the
    on-demand refresh stores the monitor that the step of the full cycle
    produces and leaves the alert and request documents as that step does. *)
Theorem on_demand_matches_cycle_step now i w m :
  find (hasId i) (readMonitors w) = Some m ->
  source m ≠ Some cash \/ default false (cashPending m) = false ->
  (step3 now m w).1.2 = true ->
  onDemand now i w =
    ({| status := 200; payload := MonitorJson (step3 now m w).1.1 |},
     writeMonitors (updateFirst (hasId i) (step3 now m w).1.1 (readMonitors w))
       (step3 now m w).2).
Proof.
  intros Hf Hcase. unfold handleRefresh, refreshStep. rewrite Hf.
  case_bool_decide as Hs.
  - destruct Hcase as [?|Hp]; [done|]. by rewrite Hp.
  - by destruct (refresh3 now w m) as [[m' alerts]|].
Qed.
End HandlerFacts.

Lemma on_demand_matches_cycle_step_witness :
  find (hasId "m1") (readMonitors demoWorld) = Some demoMonitor /\
  handleRefresh decimalNumber decimalNumber numeral codeUnitCompare demoNet demoNow "m1" demoWorld =
    ({| status := 200;
        payload := MonitorJson
          (refreshStep decimalNumber decimalNumber numeral codeUnitCompare demoNet
             demoNow demoMonitor demoWorld).1.1 |},
     writeMonitors
       (updateFirst (hasId "m1")
          (refreshStep decimalNumber decimalNumber numeral codeUnitCompare demoNet
             demoNow demoMonitor demoWorld).1.1 (readMonitors demoWorld))
       (refreshStep decimalNumber decimalNumber numeral codeUnitCompare demoNet
          demoNow demoMonitor demoWorld).2).
Proof.
  split; [reflexivity|].
  apply (on_demand_matches_cycle_step decimalNumber decimalNumber numeral codeUnitCompare
           demoNet demoNow "m1" demoWorld demoMonitor);
    [reflexivity|by left|vm_compute; reflexivity].
Defined.

(** ** The request document *)

Lemma filter_filter_neg {A} (P : A -> Prop) `{!forall x, Decision (P x)} (l : list A) :
  filter P (filter (fun x => ~ P x) l) = [].
Proof.
  induction l as [|x l IH]; [done|].
  rewrite filter_cons. case_decide as Hx; [|done].
  rewrite filter_cons, decide_False by done. done.
Qed.

Lemma filter_filter_same {A} (P : A -> Prop) `{!forall x, Decision (P x)} (l : list A) :
  filter P (filter P l) = filter P l.
Proof.
  induction l as [|x l IH]; [done|].
  rewrite filter_cons. case_decide as Hx; [|done].
  rewrite filter_cons, decide_True by done. by rewrite IH.
Qed.

(** Writing the request of a monitor leaves exactly one request of its id,
    the new one, placed last; the requests of the other ids stay, in order;
    and a document without two requests of one id stays so. *)
Theorem writeCashRequest_one_per_monitor m w :
  filter (fun r => rq_monitorId r = id m)
         (default [] (cashRequestsFile (writeCashRequest m w)))
    = [{| rq_monitorId := id m; rq_label := label m; rq_outbound := outbound m;
          rq_return := return_ m; rq_cabins := cabins m;
          requestedAt := cashRequestedAt m |}] /\
  last (default [] (cashRequestsFile (writeCashRequest m w)))
    = Some {| rq_monitorId := id m; rq_label := label m; rq_outbound := outbound m;
              rq_return := return_ m; rq_cabins := cabins m;
              requestedAt := cashRequestedAt m |} /\
  filter (fun r => rq_monitorId r ≠ id m)
         (default [] (cashRequestsFile (writeCashRequest m w)))
    = filter (fun r => rq_monitorId r ≠ id m) (default [] (cashRequestsFile w)) /\
  (NoDup (rq_monitorId <$> default [] (cashRequestsFile w)) ->
   NoDup (rq_monitorId <$> default [] (cashRequestsFile (writeCashRequest m w)))).
Proof.
  unfold writeCashRequest. simpl.
  set (old := default [] (cashRequestsFile w)).
  split_and!.
  - rewrite filter_app, filter_cons, decide_True, filter_nil by done.
    by rewrite (filter_filter_neg (fun r => rq_monitorId r = id m)).
  - by rewrite last_snoc.
  - rewrite filter_app, filter_cons, decide_False, filter_nil, app_nil_r
      by (intros H; by apply H).
    apply (filter_filter_same (fun r => rq_monitorId r ≠ id m)).
  - intros Hnd. rewrite fmap_app. apply NoDup_app. split_and!.
    + clear -Hnd. induction old as [|x old IH]; [constructor|].
      rewrite fmap_cons in Hnd. apply NoDup_cons in Hnd as [Hx Hnd].
      rewrite filter_cons. case_decide; [|by apply IH].
      rewrite fmap_cons. apply NoDup_cons. split; [|by apply IH].
      intros (y & Hy & Hin)%list_elem_of_fmap. apply Hx.
      apply list_elem_of_filter in Hin as [_ Hin].
      apply list_elem_of_fmap. eauto.
    + intros i (r & -> & Hin)%list_elem_of_fmap Hi.
      apply list_elem_of_filter in Hin as [Hne _].
      apply list_elem_of_singleton in Hi. done.
    + apply NoDup_singleton.
Qed.

(** ** Prices of a cash result *)

Lemma normalizePrices_lookup raw code :
  objGet (normalizePrices raw) code
    = last (snd <$> filter (fun kv => cashCabinCode kv.1 = code) raw).
Proof.
  induction raw as [|[k v] raw IH] using rev_ind; [done|].
  rewrite normalizePrices_snoc.
  rewrite objGet_objSet, filter_app, fmap_app, filter_cons. simpl.
  case_decide as Hc; rewrite filter_nil; cbn [fmap list_fmap snd].
  - by rewrite last_snoc.
  - by rewrite app_nil_r.
Qed.

(** The prices of a result are tracked once per cabin code, under the codes
    the awards channel uses: the normalized object has no code twice, no
    code is an inherited name, and when several raw keys give one code
    (business and J, say) the entry that comes last in the result is the one
    tracked. *)
Theorem normalizePrices_one_per_code raw :
  NoDup (normalizePrices raw).*1 /\
  (forall code,
     objGet (normalizePrices raw) code
       = last (snd <$> filter (fun kv => cashCabinCode kv.1 = code) raw)) /\
  (forall code, code ∈ (normalizePrices raw).*1 -> inherited code = false) /\
  (forall k, cashCabinCode k = cabinCode k).
Proof.
  destruct (normalizePrices_keys raw) as [Hnd Hp].
  split_and!; [done|apply normalizePrices_lookup| |done].
  intros code ([c v] & -> & Hin)%list_elem_of_fmap.
  by eapply Forall_forall in Hp.
Qed.

(** Keys that differ only by case give one code, except where one of them
    is an inherited name: [constructor] is tracked under the string form of
    the member it reads, [CONSTRUCTOR] under itself. *)
Example prices_under_inherited_name :
  (normalizePrices [("j", economyFare); ("J", economyFare)]).*1 = ["J"] /\
  (normalizePrices [("constructor", economyFare); ("CONSTRUCTOR", economyFare)]).*1
    = ["function Object() { [native code] }"; "CONSTRUCTOR"].
Proof. split; vm_compute; reflexivity. Qed.

(** ** The date window *)

Lemma days_negative (z : Z) :
  num_lt (Some (inject_Z z / 86400000)%Q) 0 = (z <? 0)%Z.
Proof.
  simpl. apply eq_true_iff_eq. rewrite Qlt_bool_iff, Z.ltb_lt.
  unfold Qlt, Qdiv, Qmult, Qinv, inject_Z. simpl. lia.
Qed.

Lemma days_above_max (z : Z) :
  num_gt (Some (inject_Z z / 86400000)%Q) MAX_DATE_RANGE_DAYS_SERVER = (432000000 <? z)%Z.
Proof.
  simpl. apply eq_true_iff_eq. rewrite Qlt_bool_iff, Z.ltb_lt.
  unfold Qlt, Qdiv, Qmult, Qinv, inject_Z, MAX_DATE_RANGE_DAYS_SERVER. simpl. lia.
Qed.

(** With both bounds present and parsed, a leg validates exactly when its end
    is from 0 to 5 days (432,000,000 ms) after its start, both ends included;
    an earlier end and a longer span get their own message. Bounds that do
    not parse as dates are accepted. *)
Theorem date_range_window getTime :
  (forall l from to t0 t1 label,
     dateFrom l = Some from -> from ≠ "" -> dateTo l = Some to -> to ≠ "" ->
     getTime from = Some t0 -> getTime to = Some t1 ->
     validateLegDateRange getTime (Some l) label =
       if (t1 - t0 <? 0)%Z then Some (label +:+ ": end date must be after start date")
       else if (432000000 <? t1 - t0)%Z
            then Some (label +:+ ": date range cannot exceed 5 days")
            else None) /\
  (forall l from to label,
     dateFrom l = Some from -> dateTo l = Some to ->
     getTime from = None \/ getTime to = None ->
     validateLegDateRange getTime (Some l) label = None).
Proof.
  split.
  - intros l from to t0 t1 label Hf Hf0 Ht Ht0 Hg0 Hg1.
    unfold validateLegDateRange. simpl. rewrite Hf, Ht. simpl.
    destruct (String.eqb_spec from ""); [done|].
    destruct (String.eqb_spec to ""); [done|]. simpl.
    rewrite Hg0, Hg1. cbn [mbind option_bind].
    by rewrite days_negative, days_above_max.
  - intros l from to label Hf Ht Hg.
    unfold validateLegDateRange. simpl. rewrite Hf, Ht. simpl.
    destruct (negb _ || negb _); [done|].
    by destruct Hg as [-> | ->]; destruct (getTime _).
Qed.

Lemma append_assoc (a b c : string) : (a +:+ b) +:+ c = a +:+ (b +:+ c).
Proof.
  induction a as [|x a IH]; [done|].
  change (String x ((a +:+ b) +:+ c) = String x (a +:+ (b +:+ c))). by f_equal.
Qed.

(** The check of the forms and the check of the server accept and reject the
    same legs; the messages of the form end with a full stop. *)
Theorem form_and_server_checks_agree getTime l label :
  validateDateRange getTime (dateFrom l) (dateTo l) label
    = (fun e => e +:+ ".") <$> validateLegDateRange getTime (Some l) label.
Proof.
  unfold validateDateRange, validateLegDateRange. simpl.
  destruct (negb _ || negb _); [done|].
  destruct (num_lt _ 0); simpl; [by rewrite append_assoc|].
  unfold MAX_DATE_RANGE_DAYS, MAX_DATE_RANGE_DAYS_SERVER.
  destruct (num_gt _ 5); simpl; [by rewrite append_assoc|done].
Qed.

(** ** Request bodies *)

Lemma length_append (a b : string) :
  String.length (a +:+ b) = (String.length a + String.length b)%nat.
Proof.
  induction a as [|x a IH]; [done|].
  change (S (String.length (a +:+ b)) = S (String.length a + String.length b)).
  by f_equal.
Qed.

Lemma append_nil_r (a : string) : a +:+ "" = a.
Proof.
  induction a as [|x a IH]; [done|].
  change (String x (a +:+ "") = String x a). by f_equal.
Qed.

Lemma concat_cons (c : string) (chunks : list string) :
  String.concat "" (c :: chunks) = c +:+ String.concat "" chunks.
Proof. destruct chunks; simpl; [by rewrite append_nil_r|done]. Qed.

Lemma readBodyFrom_chunks data chunks :
  (Z.of_nat (String.length data) <= MAX_BODY_SIZE)%Z ->
  readBodyFrom data ((OnData <$> chunks) ++ [OnEnd]) =
    if (Z.of_nat (String.length (data +:+ String.concat "" chunks)) >? MAX_BODY_SIZE)%Z
    then BodyRejected
    else BodyResolved (data +:+ String.concat "" chunks).
Proof.
  revert data. induction chunks as [|c chunks IH]; intros data Hd.
  - cbn [fmap list_fmap app readBodyFrom String.concat]. rewrite append_nil_r.
    destruct (Z.gtb_spec (Z.of_nat (String.length data)) MAX_BODY_SIZE); [lia|done].
  - cbn [fmap list_fmap app readBodyFrom].
    rewrite concat_cons, <- append_assoc.
    destruct (Z.gtb_spec (Z.of_nat (String.length (data +:+ c))) MAX_BODY_SIZE) as [Hgt|Hle].
    + rewrite length_append.
      destruct (Z.gtb_spec (Z.of_nat (String.length (data +:+ c)
                                     + String.length (String.concat "" chunks)))
                  MAX_BODY_SIZE); [done|lia].
    + by apply IH.
Qed.

Lemma readBodyFrom_bounded data events s :
  (Z.of_nat (String.length data) <= MAX_BODY_SIZE)%Z ->
  readBodyFrom data events = BodyResolved s ->
  (Z.of_nat (String.length s) <= MAX_BODY_SIZE)%Z.
Proof.
  revert data. induction events as [|[c| |] events IH]; intros data Hd H; simpl in H.
  - done.
  - destruct (Z.of_nat _ >? MAX_BODY_SIZE)%Z eqn:E; [done|].
    apply (IH (data +:+ c)); [|done].
    rewrite Z.gtb_ltb, Z.ltb_ge in E. done.
  - by injection H as <-.
  - done.
Qed.

(** A body that arrives in chunks and then ends is read as their
    concatenation when it has at most 1,048,576 code units, that length
    included, and is rejected when it has more; and however the stream
    behaves, a body that is read never exceeds the limit. *)
Theorem readBody_limit :
  (forall chunks,
     readBody ((OnData <$> chunks) ++ [OnEnd]) =
       if (Z.of_nat (String.length (String.concat "" chunks)) >? 1048576)%Z
       then BodyRejected
       else BodyResolved (String.concat "" chunks)) /\
  (forall events s,
     readBody events = BodyResolved s -> (Z.of_nat (String.length s) <= 1048576)%Z).
Proof.
  split.
  - intros chunks. unfold readBody. by rewrite readBodyFrom_chunks.
  - intros events s. apply (readBodyFrom_bounded "" events s). done.
Qed.

(** ** Scheduled tasks *)

Lemma metaById_lookup meta i :
  metaById meta !! i = last (filter (fun m => tm_id m = i) meta).
Proof.
  unfold metaById. induction meta as [|m meta IH] using rev_ind; [done|].
  rewrite foldl_app, filter_app, filter_cons, filter_nil. cbn [foldl].
  case_decide as Hm.
  - by rewrite Hm, lookup_insert_eq, last_snoc.
  - by rewrite lookup_insert_ne, app_nil_r.
Qed.

Lemma filter_none {A} (P : A -> Prop) `{!forall x, Decision (P x)} (l : list A) :
  (forall x, x ∈ l -> ~ P x) -> filter P l = [].
Proof.
  induction l as [|x l IH]; intros Hno; [done|].
  rewrite filter_cons, decide_False by (apply Hno; by left).
  apply IH. intros y Hy. apply Hno. by right.
Qed.

(** The task list answered is the task snapshot, task by task and in its
    order: metadata names and describes tasks but adds, drops and moves
    none. A task gets the metadata that comes last under its id, an empty
    text counting as none. A task whose id no metadata has, or whose
    metadata file is missing, gets none, unless its id is an inherited name:
    then its name is the name of the inherited function, and it has no
    description and no schedule text. *)
Theorem mergeTasks_keeps_snapshot tasksFile metaFile :
  mt_task <$> mergeTasks tasksFile metaFile = default [] tasksFile /\
  (forall t m,
     t ∈ mergeTasks tasksFile metaFile ->
     last (filter (fun m => tm_id m = st_id (mt_task t)) (default [] metaFile)) = Some m ->
     mt_name t = orNull (Some (tm_name m)) /\
     mt_description t = orNull (Some (tm_description m)) /\
     mt_scheduleDisplay t = orNull (Some (tm_scheduleDisplay m))) /\
  (forall t, t ∈ mergeTasks tasksFile metaFile ->
     (forall m, m ∈ default [] metaFile -> tm_id m ≠ st_id (mt_task t)) ->
     mt_name t = (if inherited (st_id (mt_task t))
                  then inheritedName (st_id (mt_task t)) else None) /\
     mt_description t = None /\ mt_scheduleDisplay t = None).
Proof.
  unfold mergeTasks. split_and!.
  - rewrite <- list_fmap_compose. simpl. apply list_fmap_id.
  - intros t m (t0 & -> & _)%list_elem_of_fmap Hm. simpl in *.
    unfold metaField. by rewrite metaById_lookup, Hm.
  - intros t (t0 & -> & _)%list_elem_of_fmap Hno. simpl in *.
    unfold metaField. rewrite metaById_lookup, filter_none by done. simpl.
    destruct (inherited (st_id t0)) eqn:E; [|done]. split_and!; [|done..].
    each_inherited E; reflexivity.
Qed.

(** A task called [constructor] without metadata is answered under the
    name [Object]. *)
Example task_under_inherited_name :
  mergeTasks
    (Some [{| st_id := "constructor"; groupFolder := "main"; prompt := "p";
              schedule_type := "cron"; schedule_value := "0 * * * *";
              st_status := "active"; next_run := None |}])
    None
  = [{| mt_task :=
          {| st_id := "constructor"; groupFolder := "main"; prompt := "p";
             schedule_type := "cron"; schedule_value := "0 * * * *";
             st_status := "active"; next_run := None |};
        mt_name := Some "Object"; mt_description := None;
        mt_scheduleDisplay := None |}].
Proof. vm_compute. reflexivity. Qed.

(** ** The row shown for a cabin *)

Lemma head_insertBy {A} (le : A -> A -> bool) (x : A) (l : list A) :
  head (insertBy le x l)
    = Some (match head l with Some h => if le x h then x else h | None => x end).
Proof. destruct l as [|h l]; simpl; [done|]. by destruct (le x h). Qed.

Section Row.
Context (toNumberStr : string -> option Q).

Abbreviation lt := (costLt toNumberStr).
Abbreviation byCost := (byMileage toNumberStr).
Abbreviation keep := (firstMinStep toNumberStr).

Lemma byMileage_not_lt (a b : NormalizedFlight) :
  numericCosts [a; b] ->
  byCost a b = negb (lt (MileageCost b) (MileageCost a)).
Proof.
  intros H. destruct (H a) as [x Hx]; [by left|].
  destruct (H b) as [y Hy]; [right; by left|].
  unfold byMileage. rewrite Hx, Hy. simpl.
  unfold Qlt_bool. rewrite negb_involutive. apply eq_true_iff_eq.
  rewrite !Qle_bool_iff. split; intros ?; lra.
Qed.

Lemma head_sortBy_elem_of {A} (le : A -> A -> bool) (l : list A) (h : A) :
  head (sortBy le l) = Some h -> h ∈ l.
Proof.
  intros H. apply (sortBy_elem_of le).
  destruct (sortBy le l); simplify_eq/=. by left.
Qed.

Lemma firstMin_sorted_head (b : NormalizedFlight) (l : list NormalizedFlight) :
  numericCosts (b :: l) ->
  foldl keep (Some b) l
    = Some (match head (sortBy byCost l) with
            | Some h => if lt (MileageCost h) (MileageCost b) then h else b
            | None => b
            end).
Proof.
  revert b. induction l as [|x l IH]; intros b Hnum; [done|].
  cbn [foldl firstMinStep sortBy foldr]. fold (sortBy byCost l).
  rewrite head_insertBy.
  assert (numericCosts (b :: l)) as Hbl.
  { intros f [->|Hf]%elem_of_cons; apply Hnum; [by left|right; by right]. }
  assert (numericCosts (x :: l)) as Hxl.
  { intros f Hf. apply Hnum. by right. }
  destruct (Hnum b) as [qb Hb]; [by left|].
  destruct (Hnum x) as [qx Hx]; [right; by left|].
  destruct (lt (MileageCost x) (MileageCost b)) eqn:Exb; rewrite IH by done;
    destruct (head (sortBy byCost l)) as [h|] eqn:Eh; rewrite ?Exb; try done.
  all: destruct (Hnum h) as [qh Hh];
    [right; right; by eapply head_sortBy_elem_of|].
  all: rewrite byMileage_not_lt
    by (intros f [->|[->|[]%elem_of_nil]%elem_of_cons]%elem_of_cons; eauto).
  all: rewrite ?Hb, ?Hx, ?Hh in *; simpl in *.
  all: destruct (Qlt_bool qh qx) eqn:Ehx; simpl; rewrite ?Hb, ?Hx, ?Hh; simpl;
    rewrite ?Exb; try done;
    destruct (Qlt_bool qh qb) eqn:Ehb; try done;
    exfalso;
    repeat match goal with
      | H : Qlt_bool _ _ = true |- _ => apply Qlt_bool_iff in H
      | H : Qlt_bool _ _ = false |- _ =>
          unfold Qlt_bool in H; apply negb_false_iff, Qle_bool_iff in H
      end; lra.
Qed.

Lemma firstMin_cheapest (code : string) (flights : list NormalizedFlight) :
  numericCosts flights ->
  foldl keep None (filter (fun f => cabin f = code) flights)
    = cheapest toNumberStr code flights.
Proof.
  intros Hnum. unfold cheapest.
  assert (numericCosts (filter (fun f => cabin f = code) flights)) as Hf.
  { intros f [_ Hin]%list_elem_of_filter. by apply Hnum. }
  destruct (filter _ flights) as [|x l]; [done|].
  cbn [foldl firstMinStep sortBy foldr]. fold (sortBy byCost l).
  rewrite firstMin_sorted_head, head_insertBy by done.
  destruct (head (sortBy byCost l)) as [h|] eqn:Eh; [|done].
  rewrite byMileage_not_lt; [by destruct (lt _ _)|].
  intros f [->|[->|[]%elem_of_nil]%elem_of_cons]%elem_of_cons; apply Hf;
    [by left|right; by eapply head_sortBy_elem_of].
Qed.

Lemma bestStep_lookup best f code :
  objGet (bestStep toNumberStr best f) code
    = if decide (cabin f = code)
      then match objGet best code with
           | Some b => keep (Some b) f
           | None => if inherited code then None else Some f
           end
      else objGet best code.
Proof.
  unfold bestStep. case_decide as Hc.
  - subst. destruct (objGet best (cabin f)) as [b|] eqn:Eb; simpl.
    + destruct (lt _ _); [|done]. by rewrite objGet_objSet, decide_True.
    + destruct (inherited (cabin f)); [done|]. by rewrite objGet_objSet, decide_True.
  - destruct (objGet best (cabin f)) as [b|];
      [destruct (lt _ _)|destruct (inherited (cabin f))];
      by rewrite ?objGet_objSet, ?decide_False.
Qed.

Lemma bestStep_fold best flights code :
  inherited code = false ->
  objGet (foldl (bestStep toNumberStr) best flights) code
    = foldl keep (objGet best code) (filter (fun f => cabin f = code) flights).
Proof.
  intros Hp. revert best. induction flights as [|f flights IH]; intros best; [done|].
  cbn [foldl]. rewrite IH, bestStep_lookup, filter_cons, Hp.
  case_decide; [|done]. cbn [foldl]. by destruct (objGet best code).
Qed.

(** No row is ever kept under an inherited name. *)
Lemma bestStep_fold_inherited best flights code :
  inherited code = true -> objGet best code = None ->
  objGet (foldl (bestStep toNumberStr) best flights) code = None.
Proof.
  intros Hi. revert best. induction flights as [|f flights IH]; intros best Hb; [done|].
  cbn [foldl]. apply IH. rewrite bestStep_lookup, Hb, Hi. by case_decide.
Qed.

Lemma filter_cabin_tracked (flights : list NormalizedFlight) (codes : list string) code :
  filter (fun f => cabin f = code) (filter (fun f => cabin f ∈ codes) flights)
    = if decide (code ∈ codes) then filter (fun f => cabin f = code) flights else [].
Proof.
  induction flights as [|f flights IH]; [by case_decide|].
  rewrite (filter_cons (fun f => cabin f ∈ codes)).
  rewrite (filter_cons (fun f => cabin f = code) f flights).
  destruct (decide (cabin f ∈ codes)) as [Hin|Hnin].
  - rewrite filter_cons, IH.
    destruct (decide (cabin f = code)) as [<-|Hne]; [|done].
    by rewrite !decide_True.
  - rewrite IH. destruct (decide (cabin f = code)) as [<-|Hne]; [|done].
    by rewrite !decide_False.
Qed.

(** When the costs of the flights are numbers, the flight the page shows for
    a cabin of a leg is the flight the server took as the cheapest of that
    cabin when it computed the combined cost: the first flight of least
    mileage cost. Cabins the monitor does not track get no row, and neither
    does a cabin whose code is an inherited name. *)
Theorem displayed_flight_is_cheapest flights codes code :
  numericCosts flights ->
  objGet (bestPerCabin toNumberStr flights codes) code
    = if decide (code ∈ codes /\ inherited code = false)
      then cheapest toNumberStr code flights else None.
Proof.
  intros Hnum. unfold bestPerCabin.
  destruct (inherited code) eqn:Ei.
  - rewrite decide_False by (by intros [_ ?]).
    by apply bestStep_fold_inherited.
  - rewrite bestStep_fold, filter_cabin_tracked by done.
    destruct (decide (code ∈ codes)) as [Hin|Hno].
    + rewrite decide_True by done. by apply firstMin_cheapest.
    + by rewrite decide_False by (by intros [? _]).
Qed.
End Row.

Lemma displayed_flight_is_cheapest_witness :
  numericCosts [flightAt "2026-06-02" "J" (CNum 293000);
                flightAt "2026-06-03" "J" (CNum 280000);
                flightAt "2026-06-04" "J" (CNum 280000)] /\
  objGet (bestPerCabin decimalNumber
            [flightAt "2026-06-02" "J" (CNum 293000);
             flightAt "2026-06-03" "J" (CNum 280000);
             flightAt "2026-06-04" "J" (CNum 280000)] ["J"; "W"]) "J"
    = (if decide ("J" ∈ ["J"; "W"] /\ inherited "J" = false)
       then cheapest decimalNumber "J"
              [flightAt "2026-06-02" "J" (CNum 293000);
               flightAt "2026-06-03" "J" (CNum 280000);
               flightAt "2026-06-04" "J" (CNum 280000)]
       else None) /\
  cheapest decimalNumber "J"
    [flightAt "2026-06-02" "J" (CNum 293000);
     flightAt "2026-06-03" "J" (CNum 280000);
     flightAt "2026-06-04" "J" (CNum 280000)]
    = Some (flightAt "2026-06-03" "J" (CNum 280000)).
Proof.
  assert (numericCosts [flightAt "2026-06-02" "J" (CNum 293000);
                        flightAt "2026-06-03" "J" (CNum 280000);
                        flightAt "2026-06-04" "J" (CNum 280000)]) as Hnum.
  { intros f Hf. repeat (apply elem_of_cons in Hf as [->|Hf]); [by eexists..|].
    by apply elem_of_nil in Hf. }
  split_and!; [exact Hnum| |vm_compute; reflexivity].
  exact (displayed_flight_is_cheapest decimalNumber _ ["J"; "W"] "J" Hnum).
Defined.

(** With costs that are strings the two differ: the page compares them by
    code units, the server as numbers. *)
Example displayed_flight_of_string_costs :
  objGet (bestPerCabin numberLiteral
            [flightAt "2026-06-02" "J" (CStr "0x9");
             flightAt "2026-06-03" "J" (CStr "0x10")] ["J"]) "J"
    = Some (flightAt "2026-06-03" "J" (CStr "0x10")) /\
  cheapest numberLiteral "J"
    [flightAt "2026-06-02" "J" (CStr "0x9"); flightAt "2026-06-03" "J" (CStr "0x10")]
    = Some (flightAt "2026-06-02" "J" (CStr "0x9")).
Proof. split; vm_compute; reflexivity. Qed.

(** ** The fields a mode reads *)

Lemma append_nonempty (a b : string) : b ≠ "" -> a +:+ b ≠ "".
Proof. destruct a; [done|]. by intros _. Qed.

Lemma lastChar_app (a b : string) : b ≠ "" -> lastChar (a +:+ b) = lastChar b.
Proof.
  intros Hb. induction a as [|x a IH]; [done|].
  change (String x a +:+ b) with (String x (a +:+ b)).
  pose proof (append_nonempty a b Hb) as Hne.
  cbn [lastChar]. by destruct (a +:+ b).
Qed.

Lemma field_withField k v f k' :
  lastChar k ≠ lastChar k' ->
  field (raw_fields (withField k v f)) k' = field (raw_fields f) k'.
Proof.
  intros Hne. unfold field, withField. simpl.
  rewrite lookup_insert_ne; [done|]. by intros ->.
Qed.

Section ModeFields.
Context (parseFloatStr toNumberStr : string -> option Q)
        (localeCompare : string -> string -> Z).

Lemma normalizeEntry_withField sfx k v f code :
  Forall (fun name => name +:+ sfx ≠ "" /\ lastChar k ≠ lastChar (name +:+ sfx))
    CABIN_FIELDS ->
  normalizeEntry parseFloatStr toNumberStr sfx (withField k v f) code
    = normalizeEntry parseFloatStr toNumberStr sfx f code.
Proof.
  intros Hk. unfold normalizeEntry.
  assert (forall name, name ∈ CABIN_FIELDS ->
            field (raw_fields (withField k v f)) (code +:+ name +:+ sfx)
              = field (raw_fields f) (code +:+ name +:+ sfx)) as Hf.
  { intros name Hn. rewrite Forall_forall in Hk. destruct (Hk name Hn) as [Hs Hl].
    apply field_withField. by rewrite lastChar_app. }
  rewrite !Hf; [done|unfold CABIN_FIELDS; set_solver..].
Qed.

Lemma normalizeFlights_withField availType k v raw cabins :
  Forall (fun name => name +:+ suffix availType ≠ ""
                      /\ lastChar k ≠ lastChar (name +:+ suffix availType))
    CABIN_FIELDS ->
  normalizeFlights parseFloatStr toNumberStr localeCompare (withField k v <$> raw)
    cabins availType
  = normalizeFlights parseFloatStr toNumberStr localeCompare raw cabins availType.
Proof.
  intros Hk. unfold normalizeFlights. f_equal.
  rewrite list_fmap_bind. apply list_bind_ext; [|done].
  intros f. cbn [compose].
  induction (cabinCode <$> cabins) as [|code codes IH]; [done|].
  cbn [omap list_omap]. by rewrite IH, normalizeEntry_withField.
Qed.
End ModeFields.

(** Each availability mode reads its own variant of the per-cabin fields.
    With [rewards], setting a field whose name ends in [Raw] leaves the
    normalized flights as they were; with [any], so does setting a per-cabin
    field whose name does not end in [w]. *)
Theorem mode_reads_its_own_fields parseFloatStr toNumberStr localeCompare raw cabins :
  (forall base v,
     normalizeFlights parseFloatStr toNumberStr localeCompare
       (withField (base +:+ "Raw") v <$> raw) cabins rewards
     = normalizeFlights parseFloatStr toNumberStr localeCompare raw cabins rewards) /\
  (forall k v,
     k ≠ "Date" -> k ≠ "TaxesCurrency" ->
     lastChar k ≠ Some "w"%char ->
     normalizeFlights parseFloatStr toNumberStr localeCompare
       (withField k v <$> raw) cabins any
     = normalizeFlights parseFloatStr toNumberStr localeCompare raw cabins any).
Proof.
  split.
  - intros base v. apply normalizeFlights_withField.
    rewrite (lastChar_app base "Raw") by done.
    unfold CABIN_FIELDS. repeat constructor; done.
  - intros k v _ _ Hk. apply normalizeFlights_withField.
    unfold CABIN_FIELDS. repeat constructor; done.
Qed.

(** ** Create, look up, delete *)

Lemma find_hasId_snoc i (l : list Monitor) m :
  find (hasId i) l = None -> id m = i -> find (hasId i) (l ++ [m]) = Some m.
Proof.
  intros Hl Hm. induction l as [|x l IH]; simpl in *.
  - unfold hasId. by rewrite Hm, String.eqb_refl.
  - destruct (hasId i x); [done|]. by apply IH.
Qed.

Lemma filter_absent_id i (l : list Monitor) :
  find (hasId i) l = None -> filter (fun m => id m ≠ i) l = l.
Proof.
  intros Hl. induction l as [|x l IH]; [done|]. simpl in Hl.
  destruct (hasId i x) eqn:Hx; [done|].
  rewrite filter_cons. case_decide as Hne.
  - by rewrite IH.
  - unfold hasId in Hx. by rewrite Hne, String.eqb_refl in Hx.
Qed.

(** A create answered 201 under an id that no stored monitor has appends one
    monitor, the one it answers: it has that id and no tracking state, the
    monitors stored before keep their places before it, a lookup of the id
    finds it, and deleting the id restores the monitors stored before. *)
Theorem create_lookup_delete getTime now uuid body w :
  status (handleCreate getTime now uuid body w).1 = 201%nat ->
  find (hasId uuid) (readMonitors w) = None ->
  exists m,
    payload (handleCreate getTime now uuid body w).1 = MonitorJson m /\
    id m = uuid /\ noTracking m /\
    readMonitors (handleCreate getTime now uuid body w).2 = readMonitors w ++ [m] /\
    find (hasId uuid) (readMonitors (handleCreate getTime now uuid body w).2) = Some m /\
    readMonitors (handleDelete uuid (handleCreate getTime now uuid body w).2).2
      = readMonitors w.
Proof.
  intros Hs Hfresh. unfold handleCreate in *.
  destruct (str_truthy (rangeErr getTime body)); [done|].
  eexists. split; [done|]. split; [done|]. split; [by repeat split|].
  split; [done|]. split.
  - simpl. by apply find_hasId_snoc.
  - unfold handleDelete.
    cbn [fst snd readMonitors writeMonitors monitorsFile default from_option].
    unfold Datatypes.id. fold (readMonitors w).
    rewrite filter_app, filter_absent_id by done.
    rewrite filter_cons. cbn [id]. case_decide as Hne; [done|].
    by rewrite filter_nil, app_nil_r.
Qed.

Lemma create_lookup_delete_witness :
  exists m,
    payload (handleCreate isoTime demoNow "m2" (editBody ["business"] demoOutbound)
               demoWorld).1 = MonitorJson m /\
    id m = "m2" /\ noTracking m /\
    readMonitors (handleCreate isoTime demoNow "m2" (editBody ["business"] demoOutbound)
                    demoWorld).2 = readMonitors demoWorld ++ [m] /\
    find (hasId "m2")
      (readMonitors (handleCreate isoTime demoNow "m2"
                       (editBody ["business"] demoOutbound) demoWorld).2) = Some m /\
    readMonitors (handleDelete "m2"
                    (handleCreate isoTime demoNow "m2"
                       (editBody ["business"] demoOutbound) demoWorld).2).2
      = readMonitors demoWorld.
Proof.
  apply (create_lookup_delete isoTime demoNow "m2" (editBody ["business"] demoOutbound)
           demoWorld); vm_compute; reflexivity.
Defined.
